(** * OBJ / MTL text parsers of the WebGL model viewer

    A shallow embedding of [ParseObjFile] (src/parsing_obj.js) and of
    [ParseMaterialFile] (the material-file parser), with the properties
    that the design document states about them.

    Conventions of the embedding.
    - A JavaScript string is a [string]; the model covers texts whose
      code units are below 128, so the white space of [trim] and of
      the class [\s] is TAB, LF, VT, FF, CR and SPACE.
    - A JavaScript number produced by [parseFloat] is a value of the
      abstract type [num] of the class [JSFloat]; nothing that is
      proved depends on how a float is read.  A number produced by
      [parseInt] is an [option Z]: [None] is NaN, and the integer is
      kept exact (only its position relative to a table length is ever
      observed).
    - [undefined] is [None].
    - The module-level variables of parsing_obj.js form the record
      [State]; every function that reads or writes them is an
      [Action], a state transformer that may throw a [TypeError].
      The current geometry is a reference ([nat] index) into the list
      [geometries], which holds the geometry objects themselves, so
      that a push through [geometry] is seen through [geometries].
      The state outlives a call: [ParseObjFile] takes the state it
      finds and returns the state it leaves.
    - The local variables of [ParseMaterialFile] form the record
      [MtlState]; the object [materials] is a finite map from names to
      records, each record a finite map from property names to
      values.
    - A lookup in an object literal sees the properties inherited from
      [Object.prototype]. *)

From Stdlib Require Import ZArith Ascii String List Lia Bool.
From stdpp Require Import base option list strings gmap.

Open Scope string_scope.
Open Scope list_scope.

(** ** The JavaScript runtime functions the parsers call *)

Module JS.

Definition isSpace (c : ascii) : bool :=
  let n := nat_of_ascii c in
  (Nat.leb 9 n && Nat.leb n 13) || Nat.eqb n 32.

(** The class [\w]: letters, digits and the underscore. *)
Definition isWord (c : ascii) : bool :=
  let n := nat_of_ascii c in
  (Nat.leb 48 n && Nat.leb n 57) || (Nat.leb 65 n && Nat.leb n 90)
  || (Nat.leb 97 n && Nat.leb n 122) || Nat.eqb n 95.

(** [.] matches every code unit that is not a line terminator. *)
Definition isLineTerminator (c : ascii) : bool :=
  let n := nat_of_ascii c in Nat.eqb n 10 || Nat.eqb n 13.

Definition ascii_eqb (a b : ascii) : bool :=
  Nat.eqb (nat_of_ascii a) (nat_of_ascii b).

Fixpoint takeWhile (p : ascii -> bool) (s : string) : string :=
  match s with
  | EmptyString => EmptyString
  | String c s' => if p c then String c (takeWhile p s') else EmptyString
  end.

Fixpoint dropWhile (p : ascii -> bool) (s : string) : string :=
  match s with
  | EmptyString => EmptyString
  | String c s' => if p c then dropWhile p s' else s
  end.

(** [s.split(sep)] for a one-character separator. *)
Fixpoint split (sep : ascii) (s : string) : list string :=
  match s with
  | EmptyString => [EmptyString]
  | String c s' =>
      if ascii_eqb c sep then EmptyString :: split sep s'
      else match split sep s' with
           | w :: ws => String c w :: ws
           | [] => [String c EmptyString]
           end
  end.

(** [s.split(/\s+/)]: [inSep] records that the previous code unit was
    white space, so that a run of white space separates once. *)
Fixpoint splitWsFrom (inSep : bool) (s : string) : list string :=
  match s with
  | EmptyString => [EmptyString]
  | String c s' =>
      if isSpace c then
        if inSep then splitWsFrom true s'
        else EmptyString :: splitWsFrom true s'
      else match splitWsFrom false s' with
           | w :: ws => String c w :: ws
           | [] => [String c EmptyString]
           end
  end.

Definition splitWs (s : string) : list string := splitWsFrom false s.

Definition trimStart (s : string) : string := dropWhile isSpace s.

Fixpoint trimEnd (s : string) : string :=
  match s with
  | EmptyString => EmptyString
  | String c s' =>
      match trimEnd s' with
      | EmptyString => if isSpace c then EmptyString else String c EmptyString
      | t => String c t
      end
  end.

Definition trim (s : string) : string := trimEnd (trimStart s).

Definition startsWith (c : ascii) (s : string) : bool :=
  match s with
  | EmptyString => false
  | String d _ => ascii_eqb d c
  end.

Definition isEmpty (s : string) : bool :=
  match s with EmptyString => true | String _ _ => false end.

(** [a.join(sep)]. *)
Fixpoint join (sep : string) (l : list string) : string :=
  match l with
  | [] => EmptyString
  | [x] => x
  | x :: rest => String.append x (String.append sep (join sep rest))
  end.

(** [a.slice(1)], [a.slice(0, 3)] and [a.slice(3)]. *)
Definition slice1 {A} (l : list A) : list A := List.skipn 1 l.
Definition slice03 {A} (l : list A) : list A := List.firstn 3 l.
Definition slice3 {A} (l : list A) : list A := List.skipn 3 l.

(** The two captures of the keyword regular expression applied to a
    line: an optional run of word characters (first capture), an
    optional run of SPACE characters, then an optional run of
    characters other than line terminators (second capture).  Every
    quantifier is greedy and every part may match the empty string, so
    the match starts at offset 0 and never fails. *)
Definition regexKeyword (line : string) : string := takeWhile isWord line.

Definition regexRawArguments (line : string) : string :=
  takeWhile (fun c => negb (isLineTerminator c))
    (dropWhile (fun c => ascii_eqb c " "%char) (dropWhile isWord line)).

(** *** parseInt (no radix argument) *)

Definition digitValue (c : ascii) : option Z :=
  let n := nat_of_ascii c in
  if Nat.leb 48 n && Nat.leb n 57 then Some (Z.of_nat (n - 48))
  else if Nat.leb 97 n && Nat.leb n 102 then Some (Z.of_nat (n - 87))
  else if Nat.leb 65 n && Nat.leb n 70 then Some (Z.of_nat (n - 55))
  else None.

(** The digits of radix [r] at the front of [s], accumulated on [acc];
    [seen] tells whether one digit was read. *)
Fixpoint readDigits (r : Z) (seen : bool) (acc : Z) (s : string) : option Z :=
  match s with
  | EmptyString => if seen then Some acc else None
  | String c s' =>
      match digitValue c with
      | Some d =>
          if (d <? r)%Z then readDigits r true (acc * r + d)%Z s'
          else if seen then Some acc else None
      | None => if seen then Some acc else None
      end
  end.

Definition stripHexPrefix (s : string) : option string :=
  match s with
  | String c (String d rest) =>
      if ascii_eqb c "0" && (ascii_eqb d "x" || ascii_eqb d "X")
      then Some rest else None
  | _ => None
  end.

Definition readUnsigned (s : string) : option Z :=
  match stripHexPrefix s with
  | Some rest => readDigits 16 false 0 rest
  | None => readDigits 10 false 0 s
  end.

Definition parseInt (str : string) : option Z :=
  match trimStart str with
  | String c rest =>
      if ascii_eqb c "-" then Z.opp <$> readUnsigned rest
      else if ascii_eqb c "+" then readUnsigned rest
      else readUnsigned (String c rest)
  | EmptyString => None
  end.

End JS.

(** [parseFloat], the type of the numbers it returns, and the number 0
    of the array literals [[0, 0, 0]]. *)
Class JSFloat := {
  num : Type;
  parseFloat : string -> num;
  zero : num
}.


(** ** Exceptions and actions *)

(** The run-time errors the two parsers can raise; each is a
    JavaScript [TypeError]. *)
Inductive TypeError : Type :=
  | NotIterable        (* spread of [undefined] in a call *)
  | ReadOfUndefined    (* property read on [undefined] *)
  | WriteOnUndefined   (* property write on [undefined] *)
  | WriteOnPrimitive   (* property creation on a number or a string *)
  | NotAFunction       (* call of a value that is not callable *)
  | ThisIsUndefined.   (* built-in method called without a receiver *)

Inductive Result (A : Type) : Type :=
  | Ok (a : A)
  | Throw (e : TypeError).
Arguments Ok {A} a.
Arguments Throw {A} e.

Definition isOk {A} (r : Result A) : bool :=
  match r with Ok _ => true | Throw _ => false end.

Definition thrown {A} (r : Result A) : option TypeError :=
  match r with Ok _ => None | Throw e => Some e end.

(** A statement over the state [St]: it ends in a new state or throws. *)
Definition Action (St : Type) : Type := St -> Result St.

Definition skip {St} : Action St := fun s => Ok s.

Definition andThen {St} (a b : Action St) : Action St :=
  fun s => match a s with Ok s' => b s' | Throw e => Throw e end.

Notation "a >>> b" := (andThen a b) (at level 65, right associativity).

(** [l.forEach(f)]. *)
Fixpoint forEach {St A} (f : A -> Action St) (l : list A) : Action St :=
  match l with
  | [] => skip
  | x :: rest => f x >>> forEach f rest
  end.

(** [l.forEach((x, i) => f(i, x))], the index starting at [i]. *)
Fixpoint forEachFrom {St A} (i : nat) (f : nat -> A -> Action St) (l : list A)
  : Action St :=
  match l with
  | [] => skip
  | x :: rest => f i x >>> forEachFrom (S i) f rest
  end.

(** [for (let k = start; k < start + count; ++k) body(k)]. *)
Fixpoint forRange {St} (start count : nat) (body : nat -> Action St) : Action St :=
  match count with
  | O => skip
  | S c => body start >>> forRange (S start) c body
  end.

(** ** Property lookup on an object literal

    The handler tables [keywords] are object literals, so
    [keywords[keyword]] also finds the properties that every object
    inherits from [Object.prototype]. *)
Inductive ProtoMember : Type :=
  | P_constructor | P_toString | P_toLocaleString | P_valueOf
  | P_hasOwnProperty | P_isPrototypeOf | P_propertyIsEnumerable
  | P_defineGetter | P_defineSetter | P_lookupGetter | P_lookupSetter
  | P_proto.

Definition objectPrototype (name : string) : option ProtoMember :=
  if String.eqb name "constructor" then Some P_constructor
  else if String.eqb name "toString" then Some P_toString
  else if String.eqb name "toLocaleString" then Some P_toLocaleString
  else if String.eqb name "valueOf" then Some P_valueOf
  else if String.eqb name "hasOwnProperty" then Some P_hasOwnProperty
  else if String.eqb name "isPrototypeOf" then Some P_isPrototypeOf
  else if String.eqb name "propertyIsEnumerable" then Some P_propertyIsEnumerable
  else if String.eqb name "__defineGetter__" then Some P_defineGetter
  else if String.eqb name "__defineSetter__" then Some P_defineSetter
  else if String.eqb name "__lookupGetter__" then Some P_lookupGetter
  else if String.eqb name "__lookupSetter__" then Some P_lookupSetter
  else if String.eqb name "__proto__" then Some P_proto
  else None.

(** [handler(value, ...)] for an inherited member: the call passes no
    receiver.  [Object] returns its array argument and
    [Object.prototype.toString] returns a string; the accessor
    [__proto__] yields the prototype object, which is not callable;
    every other method converts its missing receiver to an object and
    throws. *)
Definition callInherited {St} (m : ProtoMember) : Action St :=
  match m with
  | P_constructor | P_toString => skip
  | P_proto => fun _ => Throw NotAFunction
  | _ => fun _ => Throw ThisIsUndefined
  end.

(** ** The body of the line loop, the same in the two parsers

    [own] gives the own properties of the object literal [keywords],
    [lookupHandler] is [keywords[keyword]], and [warn] is
    [console.warn]. *)
Definition Handler (St : Type) : Type := list string -> string -> Action St.

Definition lookupHandler {St} (own : string -> option (Handler St))
    (keyword : string) : option (Handler St) :=
  match own keyword with
  | Some h => Some h
  | None =>
      match objectPrototype keyword with
      | Some m => Some (fun _ _ => callInherited m)
      | None => None
      end
  end.

Definition processLine {St} (own : string -> option (Handler St))
    (warn : string -> St -> St) (line : string) : Action St :=
  let line := JS.trim line in
  if JS.isEmpty line || JS.startsWith "#" line then skip
  else
    let keyword := JS.regexKeyword line in
    let RawArguments := JS.regexRawArguments line in
    let value := JS.slice1 (JS.splitWs line) in
    match lookupHandler own keyword with
    | None => fun s => Ok (warn keyword s)
    | Some handler => handler value RawArguments
    end.

Definition newline : ascii := "010"%char.

(** ** parsing_obj.js *)

Section ObjModel.
Context {F : JSFloat}.

(** [geometry.data]: a key that was deleted is [None]. *)
Record GeometryData : Type := mkData {
  position : option (list num);
  texcoord : option (list num);
  normal : option (list num);
  color : option (list num)
}.

Record Geometry : Type := mkGeometry {
  g_object : option string;
  g_groups : list string;
  g_material : option string;
  g_data : GeometryData
}.

(** The module-level variables, and the console. *)
Record State : Type := mkState {
  objPositions : list (list num);
  objTexcoords : list (list num);
  objNormals : list (list num);
  objColors : list (list num);
  materialLibs : list string;
  geometries : list Geometry;
  geometry : option nat;
  groups : list string;
  material : option string;
  object : option string;
  console : list string
}.

Definition initialState : State :=
  {| objPositions := [[zero; zero; zero]];
     objTexcoords := [[zero; zero]];
     objNormals := [[zero; zero; zero]];
     objColors := [[zero; zero; zero]];
     materialLibs := [];
     geometries := [];
     geometry := None;
     groups := ["default"];
     material := Some "default";
     object := Some "default";
     console := [] |}.

(** [objVertexData] holds the four tables themselves, so [objVertexData[i]]
    is the current table [i]. *)
Definition objVertexData (s : State) : list (list (list num)) :=
  [objPositions s; objTexcoords s; objNormals s; objColors s].

Definition set_objPositions (t : list (list num)) (s : State) : State :=
  mkState t (objTexcoords s) (objNormals s) (objColors s) (materialLibs s)
    (geometries s) (geometry s) (groups s) (material s) (object s) (console s).
Definition set_objTexcoords (t : list (list num)) (s : State) : State :=
  mkState (objPositions s) t (objNormals s) (objColors s) (materialLibs s)
    (geometries s) (geometry s) (groups s) (material s) (object s) (console s).
Definition set_objNormals (t : list (list num)) (s : State) : State :=
  mkState (objPositions s) (objTexcoords s) t (objColors s) (materialLibs s)
    (geometries s) (geometry s) (groups s) (material s) (object s) (console s).
Definition set_objColors (t : list (list num)) (s : State) : State :=
  mkState (objPositions s) (objTexcoords s) (objNormals s) t (materialLibs s)
    (geometries s) (geometry s) (groups s) (material s) (object s) (console s).
Definition set_materialLibs (l : list string) (s : State) : State :=
  mkState (objPositions s) (objTexcoords s) (objNormals s) (objColors s) l
    (geometries s) (geometry s) (groups s) (material s) (object s) (console s).
Definition set_geometries (l : list Geometry) (s : State) : State :=
  mkState (objPositions s) (objTexcoords s) (objNormals s) (objColors s)
    (materialLibs s) l (geometry s) (groups s) (material s) (object s) (console s).
Definition set_geometry (r : option nat) (s : State) : State :=
  mkState (objPositions s) (objTexcoords s) (objNormals s) (objColors s)
    (materialLibs s) (geometries s) r (groups s) (material s) (object s) (console s).
Definition set_groups (l : list string) (s : State) : State :=
  mkState (objPositions s) (objTexcoords s) (objNormals s) (objColors s)
    (materialLibs s) (geometries s) (geometry s) l (material s) (object s) (console s).
Definition set_material (m : option string) (s : State) : State :=
  mkState (objPositions s) (objTexcoords s) (objNormals s) (objColors s)
    (materialLibs s) (geometries s) (geometry s) (groups s) m (object s) (console s).
Definition set_object (o : option string) (s : State) : State :=
  mkState (objPositions s) (objTexcoords s) (objNormals s) (objColors s)
    (materialLibs s) (geometries s) (geometry s) (groups s) (material s) o (console s).
Definition warn (keyword : string) (s : State) : State :=
  mkState (objPositions s) (objTexcoords s) (objNormals s) (objColors s)
    (materialLibs s) (geometries s) (geometry s) (groups s) (material s) (object s)
    (console s ++ [keyword]).

(** The four keys of [geometry.data]. *)
Inductive Attr : Type := Position | Texcoord | Normal | Color.

Definition getAttr (k : Attr) (d : GeometryData) : option (list num) :=
  match k with
  | Position => position d
  | Texcoord => texcoord d
  | Normal => normal d
  | Color => color d
  end.

Definition setAttr (k : Attr) (a : option (list num)) (d : GeometryData)
  : GeometryData :=
  match k with
  | Position => mkData a (texcoord d) (normal d) (color d)
  | Texcoord => mkData (position d) a (normal d) (color d)
  | Normal => mkData (position d) (texcoord d) a (color d)
  | Color => mkData (position d) (texcoord d) (normal d) a
  end.

Definition set_data (d : GeometryData) (g : Geometry) : Geometry :=
  mkGeometry (g_object g) (g_groups g) (g_material g) d.

(** [setGeometry()]. *)
Definition setGeometry : Action State := fun s =>
  match geometry s with
  | Some _ => Ok s
  | None =>
      let fresh :=
        {| g_object := object s; g_groups := groups s; g_material := material s;
           g_data := mkData (Some []) (Some []) (Some []) (Some []) |} in
      Ok (set_geometry (Some (length (geometries s)))
            (set_geometries (geometries s ++ [fresh]) s))
  end.

(** [newGeometry()]. *)
Definition newGeometry : Action State := fun s =>
  match geometry s with
  | None => Ok s
  | Some r =>
      match geometries s !! r with
      | None => Throw ReadOfUndefined
      | Some g =>
          match position (g_data g) with
          | None => Throw ReadOfUndefined
          | Some [] => Ok s
          | Some (_ :: _) => Ok (set_geometry None s)
          end
      end
  end.

(** [table[index]] for a number [index]: NaN and the negative numbers
    name no element. *)
Definition entryAt (table : list (list num)) (index : option Z)
  : option (list num) :=
  match index with
  | Some z => if (0 <=? z)%Z then table !! Z.to_nat z else None
  | None => None
  end.

(** [objIndex + (objIndex >= 0 ? 0 : objVertexData[i].length)]; the
    table is read only when the comparison fails. *)
Definition resolveIndex (objIndex : option Z) (table : option (list (list num)))
  : Result (option Z) :=
  match objIndex with
  | Some n =>
      if (0 <=? n)%Z then Ok (Some n)
      else match table with
           | Some t => Ok (Some (n + Z.of_nat (length t))%Z)
           | None => Throw ReadOfUndefined
           end
  | None =>
      match table with
      | Some _ => Ok None
      | None => Throw ReadOfUndefined
      end
  end.

(** [geometry.data.<k>.push(...entry)]: the array is reached before
    the argument is spread. *)
Definition pushData (k : Attr) (entry : option (list num)) : Action State :=
  fun s =>
  match geometry s with
  | None => Throw ReadOfUndefined
  | Some r =>
      match geometries s !! r with
      | None => Throw ReadOfUndefined
      | Some g =>
          match getAttr k (g_data g) with
          | None => Throw ReadOfUndefined
          | Some arr =>
              match entry with
              | None => Throw NotIterable
              | Some e =>
                  Ok (set_geometries
                        (<[r := set_data (setAttr k (Some (arr ++ e)) (g_data g)) g]>
                           (geometries s)) s)
              end
          end
      end
  end.

Definition slotAttr (i : nat) : option Attr :=
  [Position; Texcoord; Normal; Color] !! i.

(** [if (i === 0 && objColors.length > 1)
      geometry.data.color.push(...objColors[index])]. *)
Definition pushInlineColor (i : nat) (index : option Z) : Action State :=
  fun s =>
  if Nat.eqb i 0 && Nat.ltb 1 (length (objColors s)) then
    pushData Color (entryAt (objColors s) index) s
  else Ok s.

(** The callback of [ptn.forEach] in [addVertex]. *)
Definition addVertexSlot (i : nat) (objIndexStr : string) : Action State :=
  fun s =>
  if JS.isEmpty objIndexStr then Ok s
  else
    let objIndex := JS.parseInt objIndexStr in
    match resolveIndex objIndex (objVertexData s !! i) with
    | Throw e => Throw e
    | Ok index =>
        ((match slotAttr i, objVertexData s !! i with
          | Some k, Some table => pushData k (entryAt table index)
          | _, _ => skip
          end)
         >>> pushInlineColor i index) s
    end.

Definition addVertex (vert : string) : Action State :=
  forEachFrom 0 addVertexSlot (JS.split "/" vert).

(** [addVertex(value[k])]. *)
Definition addVertexAt (value : list string) (k : nat) : Action State :=
  match value !! k with
  | Some vert => addVertex vert
  | None => fun _ => Throw ReadOfUndefined
  end.

Definition mapParseFloat (value : list string) : list num := map parseFloat value.

Definition keyword_v : Handler State := fun value _ s =>
  if Nat.ltb 3 (length value) then
    Ok (set_objColors (objColors s ++ [mapParseFloat (JS.slice3 value)])
          (set_objPositions (objPositions s ++ [mapParseFloat (JS.slice03 value)]) s))
  else
    Ok (set_objPositions (objPositions s ++ [mapParseFloat value]) s).

Definition keyword_vn : Handler State := fun value _ s =>
  Ok (set_objNormals (objNormals s ++ [mapParseFloat value]) s).

Definition keyword_vt : Handler State := fun value _ s =>
  Ok (set_objTexcoords (objTexcoords s ++ [mapParseFloat value]) s).

Definition keyword_f : Handler State := fun value _ =>
  setGeometry >>>
  (let numTriangles := length value - 2 in
   forRange 0 numTriangles (fun tri =>
     addVertexAt value 0 >>>
     addVertexAt value (tri + 1) >>>
     addVertexAt value (tri + 2))).

(** [noop], the handler of [s]. *)
Definition noop : Handler State := fun _ _ => skip.

Definition keyword_s : Handler State := noop.

Definition keyword_mtllib : Handler State := fun _ RawValue s =>
  Ok (set_materialLibs (materialLibs s ++ [RawValue]) s).

Definition keyword_usemtl : Handler State := fun value _ =>
  (fun s => Ok (set_material (value !! 0) s)) >>> newGeometry.

Definition keyword_g : Handler State := fun value _ =>
  (fun s => Ok (set_groups value s)) >>> newGeometry.

Definition keyword_o : Handler State := fun value _ =>
  (fun s => Ok (set_object (value !! 0) s)) >>> newGeometry.

(** The own properties of the object literal [keywords]. *)
Definition keywords (keyword : string) : option (Handler State) :=
  if String.eqb keyword "v" then Some keyword_v
  else if String.eqb keyword "vn" then Some keyword_vn
  else if String.eqb keyword "vt" then Some keyword_vt
  else if String.eqb keyword "f" then Some keyword_f
  else if String.eqb keyword "s" then Some keyword_s
  else if String.eqb keyword "mtllib" then Some keyword_mtllib
  else if String.eqb keyword "usemtl" then Some keyword_usemtl
  else if String.eqb keyword "g" then Some keyword_g
  else if String.eqb keyword "o" then Some keyword_o
  else None.

(** The body of [Object.keys(geometry.data).forEach]: an array of
    length 0 is deleted. *)
Definition dropEmpty (a : option (list num)) : option (list num) :=
  match a with
  | Some [] => None
  | other => other
  end.

Definition removeEmptyArrays (g : Geometry) : Geometry :=
  set_data
    (mkData (dropEmpty (position (g_data g))) (dropEmpty (texcoord (g_data g)))
       (dropEmpty (normal (g_data g))) (dropEmpty (color (g_data g))))
    g.

(** The object that [ParseObjFile] returns. *)
Record ParseResult : Type := mkResult {
  r_geometries : list Geometry;
  r_materialLibs : list string
}.

Definition objLine : string -> Action State := processLine keywords warn.

(** [ParseObjFile(text)], run on the module state [s]: the result (or
    the exception) and the state the call leaves behind. *)
Definition ParseObjFile (text : string) (s : State)
  : Result (ParseResult * State) :=
  match forEach objLine (JS.split newline text) s with
  | Throw e => Throw e
  | Ok s1 =>
      let s2 := set_geometries (map removeEmptyArrays (geometries s1)) s1 in
      Ok (mkResult (geometries s2) (materialLibs s2), s2)
  end.

End ObjModel.

#[export] Instance Attr_eq_dec : EqDecision Attr.
Proof. solve_decision. Defined.

(** ** The material-file parser *)

Section MtlModel.
Context {F : JSFloat}.

(** The values the handlers store in a material record. *)
Inductive Value : Type :=
  | VNumber (x : num)              (* a result of [parseFloat] *)
  | VInteger (n : option Z)        (* a result of [parseInt] *)
  | VArray (a : list num)          (* [value.map(parseFloat)] *)
  | VString (p : string).          (* [value.join(" ")] *)

(** The object [materials]: its own properties, each a material
    record, and the record that an assignment to the key [__proto__]
    installed as its prototype ([None]: still [Object.prototype]). *)
Record Materials : Type := mkMaterials {
  own : gmap string (gmap string Value);
  proto : option (gmap string Value)
}.

(** The local variables of [ParseMaterialFile], and the console. *)
Record MtlState : Type := mkMtlState {
  materials : Materials;
  index : option string;
  mtlConsole : list string
}.

Definition mtlInitialState : MtlState :=
  {| materials := mkMaterials ∅ None; index := None; mtlConsole := [] |}.

Definition set_materials (m : Materials) (s : MtlState) : MtlState :=
  mkMtlState m (index s) (mtlConsole s).
Definition set_index (i : option string) (s : MtlState) : MtlState :=
  mkMtlState (materials s) i (mtlConsole s).
Definition mtlWarn (keyword : string) (s : MtlState) : MtlState :=
  mkMtlState (materials s) (index s) (mtlConsole s ++ [keyword]).

(** The property key of [materials[index]]: [undefined] is converted to
    the string ["undefined"]. *)
Definition propertyKey (i : option string) : string := default "undefined" i.

(** What [materials[index]] evaluates to. *)
Inductive Target : Type :=
  | OwnRecord (k : string) (m : gmap string Value)
  | ProtoRecord (m : gmap string Value)
  | OtherObject      (* an inherited object: a built-in or an array *)
  | Primitive        (* an inherited number or string *)
  | Undefined.

Definition materialAt (ms : Materials) (i : option string) : Target :=
  let k := propertyKey i in
  if String.eqb k "__proto__" then
    match proto ms with
    | Some m => ProtoRecord m
    | None => OtherObject
    end
  else
    match own ms !! k with
    | Some m => OwnRecord k m
    | None =>
        match proto ms ≫= (fun p => p !! k) with
        | Some (VArray _) => OtherObject
        | Some _ => Primitive
        | None =>
            match objectPrototype k with
            | Some _ => OtherObject
            | None => Undefined
            end
        end
    end.

(** [materials[index].<name> = v]; a write on an inherited object
    leaves [materials] as it is. *)
Definition setProperty (name : string) (v : Value) : Action MtlState := fun s =>
  match materialAt (materials s) (index s) with
  | OwnRecord k m =>
      Ok (set_materials
            (mkMaterials (<[k := <[name := v]> m]> (own (materials s)))
               (proto (materials s))) s)
  | ProtoRecord m =>
      Ok (set_materials
            (mkMaterials (own (materials s)) (Some (<[name := v]> m))) s)
  | OtherObject => Ok s
  | Primitive => Throw WriteOnPrimitive
  | Undefined => Throw WriteOnUndefined
  end.

(** [parseFloat(value[0])] and [parseInt(value[0])]: a missing token is
    converted to the string ["undefined"]. *)
Definition firstToken (value : list string) : string := propertyKey (value !! 0).

Definition keyword_newmtl : Handler MtlState := fun value _ s =>
  let s1 := set_index (value !! 0) s in
  let k := propertyKey (index s1) in
  if String.eqb k "__proto__" then
    Ok (set_materials (mkMaterials (own (materials s1)) (Some ∅)) s1)
  else
    Ok (set_materials
          (mkMaterials (<[k := ∅]> (own (materials s1))) (proto (materials s1))) s1).

Definition keyword_Ns : Handler MtlState := fun value _ =>
  setProperty "shininess" (VNumber (parseFloat (firstToken value))).
Definition keyword_Ka : Handler MtlState := fun value _ =>
  setProperty "ambient" (VArray (map parseFloat value)).
Definition keyword_Kd : Handler MtlState := fun value _ =>
  setProperty "diffuse" (VArray (map parseFloat value)).
Definition keyword_Ks : Handler MtlState := fun value _ =>
  setProperty "specular" (VArray (map parseFloat value)).
Definition keyword_Ke : Handler MtlState := fun value _ =>
  setProperty "emissive" (VArray (map parseFloat value)).
Definition keyword_map_Kd : Handler MtlState := fun value _ =>
  setProperty "diffuseMap" (VString (JS.join " " value)).
Definition keyword_map_Ns : Handler MtlState := fun value _ =>
  setProperty "specularMap" (VString (JS.join " " value)).
Definition keyword_Ni : Handler MtlState := fun value _ =>
  setProperty "IOR" (VNumber (parseFloat (firstToken value))).
Definition keyword_d : Handler MtlState := fun value _ =>
  setProperty "opacity" (VNumber (parseFloat (firstToken value))).
Definition keyword_illum : Handler MtlState := fun value _ =>
  setProperty "illum" (VInteger (JS.parseInt (firstToken value))).

(** The keywords that write a property of the current record. *)
Definition propertyKeywords : list string :=
  ["Ns"; "Ka"; "Kd"; "Ks"; "Ke"; "map_Kd"; "map_Ns"; "Ni"; "d"; "illum"].

(** The own properties of the object literal [keywords]. *)
Definition mtlKeywords (keyword : string) : option (Handler MtlState) :=
  if String.eqb keyword "newmtl" then Some keyword_newmtl
  else if String.eqb keyword "Ns" then Some keyword_Ns
  else if String.eqb keyword "Ka" then Some keyword_Ka
  else if String.eqb keyword "Kd" then Some keyword_Kd
  else if String.eqb keyword "Ks" then Some keyword_Ks
  else if String.eqb keyword "Ke" then Some keyword_Ke
  else if String.eqb keyword "map_Kd" then Some keyword_map_Kd
  else if String.eqb keyword "map_Ns" then Some keyword_map_Ns
  else if String.eqb keyword "Ni" then Some keyword_Ni
  else if String.eqb keyword "d" then Some keyword_d
  else if String.eqb keyword "illum" then Some keyword_illum
  else None.

Definition mtlLine : string -> Action MtlState := processLine mtlKeywords mtlWarn.

(** [ParseMaterialFile(text)]. *)
Definition ParseMaterialFile (text : string) : Result Materials :=
  match forEach mtlLine (JS.split newline text) mtlInitialState with
  | Throw e => Throw e
  | Ok s => Ok (materials s)
  end.

End MtlModel.

(** ** A reading of decimal literals, to run the parsers on concrete texts

    [Decimal] instantiates [JSFloat] with the exact value of the
    decimal literal at the front of a token, sign, digits and decimal
    exponent kept as read (no rounding to a binary float); a token
    with no such literal reads as [NaN], unless it spells Infinity. *)
Module Decimal.

Inductive t : Type :=
  | NaN
  | Infinity (negative : bool)
  | Dec (negative : bool) (digits : N) (exponent : Z).

(** Digits at the front of [s]: their value on top of [acc], how many
    were read, and the rest of [s]. *)
Fixpoint digitsOf (acc : N) (count : nat) (s : string) : N * nat * string :=
  match s with
  | String c rest =>
      let n := nat_of_ascii c in
      if Nat.leb 48 n && Nat.leb n 57
      then digitsOf (acc * 10 + N.of_nat (n - 48)) (S count) rest
      else (acc, count, s)
  | EmptyString => (acc, count, s)
  end.

(** The text after a leading sign, and whether the sign was [-]. *)
Definition signOf (s : string) : bool * string :=
  match s with
  | String c rest =>
      if JS.ascii_eqb c "-" then (true, rest)
      else if JS.ascii_eqb c "+" then (false, rest)
      else (false, s)
  | EmptyString => (false, s)
  end.

Definition exponentOf (s : string) : Z :=
  match s with
  | String c rest =>
      if JS.ascii_eqb c "e" || JS.ascii_eqb c "E" then
        let '(neg, body) := signOf rest in
        let '(e, count, _) := digitsOf 0 0 body in
        if Nat.eqb count 0 then 0%Z
        else if neg then (- Z.of_N e)%Z else Z.of_N e
      else 0%Z
  | EmptyString => 0%Z
  end.

(** The fraction digits after a decimal point, read on top of [int]. *)
Definition fractionOf (int : N) (s : string) : N * nat * string :=
  match s with
  | String c rest =>
      if JS.ascii_eqb c "." then digitsOf int 0 rest else (int, 0, s)
  | EmptyString => (int, 0, s)
  end.

Definition unsignedOf (neg : bool) (s : string) : t :=
  if String.prefix "Infinity" s then Infinity neg else
  let '(int, ni, afterInt) := digitsOf 0 0 s in
  let '(all, nf, afterFrac) := fractionOf int afterInt in
  if Nat.eqb (ni + nf) 0 then NaN
  else Dec neg all (exponentOf afterFrac - Z.of_nat nf).

Definition read (str : string) : t :=
  let '(neg, rest) := signOf (JS.trimStart str) in unsignedOf neg rest.

End Decimal.

Definition decimalFloat : JSFloat :=
  {| num := Decimal.t; parseFloat := Decimal.read; zero := Decimal.Dec false 0 0 |}.

(** Joins lines into a text. *)
Definition unlines (lines : list string) : string :=
  JS.join (String newline EmptyString) lines.


(** ** Vocabulary of the statements *)

(** The keyword of a line, [None] for a blank line or a comment, and
    the argument tokens and raw argument text the handler receives. *)
Definition lineKeyword (line : string) : option string :=
  let l := JS.trim line in
  if JS.isEmpty l || JS.startsWith "#" l then None else Some (JS.regexKeyword l).

Definition lineValue (line : string) : list string :=
  JS.slice1 (JS.splitWs (JS.trim line)).

Definition lineRaw (line : string) : string := JS.regexRawArguments (JS.trim line).

Section ObjVocabulary.
Context {F : JSFloat}.

(** The object that the reference [geometry] designates. *)
Definition currentGeometry (s : State) : option Geometry :=
  geometry s ≫= fun r => geometries s !! r.

(** The output array [k] of the current geometry. *)
Definition currentArray (k : Attr) (s : State) : option (list num) :=
  currentGeometry s ≫= fun g => getAttr k (g_data g).

(** [s] with [e] appended to the output array [k] of geometry [r]. *)
Definition appended (r : nat) (g : Geometry) (k : Attr) (arr e : list num)
    (s : State) : State :=
  set_geometries
    (<[r := set_data (setAttr k (Some (arr ++ e)) (g_data g)) g]> (geometries s)) s.

(** No key of [geometry.data] has been deleted, in any geometry, and
    the reference [geometry] designates one of them: the situation
    during the first call of [ParseObjFile]. *)
Definition allKeys (g : Geometry) : Prop :=
  forall k, is_Some (getAttr k (g_data g)).

Definition ArraysPresent (s : State) : Prop :=
  Forall allKeys (geometries s) /\
  (forall r, geometry s = Some r -> r < length (geometries s)).

(** The triangles of the fan over [n] vertex references, as triples of
    positions in the face line. *)
Definition fanTriangles (n : nat) : list (nat * nat * nat) :=
  map (fun k => (0, k + 1, k + 2)) (seq 0 (n - 2)).

Definition emitTriangle (value : list string) (t : nat * nat * nat)
  : Action State :=
  let '(a, b, c) := t in
  addVertexAt value a >>> addVertexAt value b >>> addVertexAt value c.

(** Component counts: the width of an entry of each table. *)
Definition width (k : Attr) : nat :=
  match k with Texcoord => 2 | _ => 3 end.

Definition tableOf (k : Attr) (s : State) : list (list num) :=
  match k with
  | Position => objPositions s
  | Texcoord => objTexcoords s
  | Normal => objNormals s
  | Color => objColors s
  end.

(** The table entry that the sub-index [str] of slot [i] designates,
    [None] when it designates none. *)
Definition slotEntry (s : State) (i : nat) (str : string) : option (list num) :=
  match objVertexData s !! i with
  | Some table =>
      match resolveIndex (JS.parseInt str) (Some table) with
      | Ok index => entryAt table index
      | Throw _ => None
      end
  | None => None
  end.

(** What [addVertex(vert)] appends to the position array in state [s]:
    the table entry that the first field of [vert] designates. *)
Definition positionOf (s : State) (vert : string) : list num :=
  match JS.split "/" vert with
  | p :: _ => if JS.isEmpty p then [] else default [] (slotEntry s 0 p)
  | [] => []
  end.

(** The entry of the color table at the index that a position
    sub-index resolves to. *)
Definition inlineColorEntry (s : State) (str : string) : option (list num) :=
  match resolveIndex (JS.parseInt str) (Some (objPositions s)) with
  | Ok index => entryAt (objColors s) index
  | Throw _ => None
  end.

(** A vertex reference with a sub-index that designates no entry of
    its table, or whose position has no entry in a color table that
    holds more than its first element. *)
Definition danglingSlot (s : State) (i : nat) (str : string) : Prop :=
  JS.isEmpty str = false /\
  ((i < 4 /\ slotEntry s i str = None) \/
   (i = 0 /\ 1 < length (objColors s) /\ inlineColorEntry s str = None)).

Definition danglingVertex (s : State) (vert : string) : Prop :=
  exists i str, JS.split "/" vert !! i = Some str /\ danglingSlot s i str.

Definition positionAt (s : State) (value : list string) (k : nat) : list num :=
  from_option (positionOf s) [] (value !! k).

Definition trianglePositions (s : State) (value : list string)
    (t : nat * nat * nat) : list num :=
  let '(a, b, c) := t in
  positionAt s value a ++ positionAt s value b ++ positionAt s value c.

(** The four tables are the same in both states. *)
Definition sameTables (s s' : State) : Prop :=
  objVertexData s' = objVertexData s.

(** [a] keeps the tables and the reference [geometry], and appends
    [out s] to the position array of the current geometry. *)
Definition Emits (a : Action State) (out : State -> list num) : Prop :=
  forall s s', a s = Ok s' ->
    sameTables s s' /\ geometry s' = geometry s /\
    (forall arr, currentArray Position s = Some arr ->
       currentArray Position s' = Some (arr ++ out s)).

Definition stable (out : State -> list num) : Prop :=
  forall s s', sameTables s s' -> out s' = out s.

(** The triangle [t] uses the vertex reference number [j]. *)
Definition mentions (t : nat * nat * nat) (j : nat) : Prop :=
  let '(a, b, c) := t in a = j \/ b = j \/ c = j.

(** Every table of [s'] is the table of [s] with entries appended. *)
Definition tablesGrow (s s' : State) : Prop :=
  forall k, exists more, tableOf k s' = tableOf k s ++ more.

(** [a] keeps the property [P] when it returns. *)
Definition Preserves (P : State -> Prop) (a : Action State) : Prop :=
  forall s s', P s -> a s = Ok s' -> P s'.

(** Lines that only set the object, the groups or the material. *)
Definition isStateLine (line : string) : bool :=
  match lineKeyword line with
  | Some k => String.eqb k "usemtl" || String.eqb k "g" || String.eqb k "o"
  | None => false
  end.

Definition TablesWide (s : State) : Prop :=
  forall k, Forall (fun e => length e = width k) (tableOf k s).

(** Each table still starts with the element it is created with. *)
Definition SentinelHeads (s : State) : Prop :=
  forall k, exists rest, tableOf k s = repeat zero (width k) :: rest.

Definition geometryWide (g : Geometry) : Prop :=
  forall k arr, getAttr k (g_data g) = Some arr ->
    exists n, length arr = n * width k.

(** Every table entry and every output array has the width of its
    attribute. *)
Definition Wide (s : State) : Prop :=
  TablesWide s /\ Forall geometryWide (geometries s).

(** A line that declares a table entry with the token count of the
    format: 3 or 6 for [v], 3 for [vn], 2 for [vt]. *)
Definition arityOk (line : string) : bool :=
  match lineKeyword line with
  | Some k =>
      let n := length (lineValue line) in
      if String.eqb k "v" then Nat.eqb n 3 || Nat.eqb n 6
      else if String.eqb k "vn" then Nat.eqb n 3
      else if String.eqb k "vt" then Nat.eqb n 2
      else true
  | None => true
  end.

(** The index of the entry a [push] has just appended. *)
Definition lastIndex {A} (table : list A) : nat := length table - 1.

(** The state a call leaves behind when it returns. *)
Definition finalState (r : Result (ParseResult * State)) : option State :=
  match r with
  | Ok (_, s) => Some s
  | Throw _ => None
  end.

(** The lengths of the arrays of the geometries a call returns, in the
    order position, texcoord, normal, color. *)
Definition arrayLengths (r : Result (ParseResult * State))
  : option (list (list (option nat))) :=
  match r with
  | Ok (res, _) =>
      Some (map (fun g => map (fun k => length <$> getAttr k (g_data g))
                            [Position; Texcoord; Normal; Color])
              (r_geometries res))
  | Throw _ => None
  end.

(** The end-to-end scenario of the design document: one triangle. *)
Definition triangleText : string :=
  unlines ["v 0 0 0"; "v 1 0 0"; "v 0 1 0"; "f 1 2 3"; ""].

Definition triangleGeometry : Geometry :=
  {| g_object := Some "default"; g_groups := ["default"];
     g_material := Some "default";
     g_data :=
       mkData (Some (map parseFloat ["0"; "0"; "0"; "1"; "0"; "0"; "0"; "1"; "0"]))
         None None None |}.

Definition triangleState : State :=
  set_geometry (Some 0)
    (set_geometries [triangleGeometry]
       (set_objPositions
          [[zero; zero; zero]; map parseFloat ["0"; "0"; "0"];
           map parseFloat ["1"; "0"; "0"]; map parseFloat ["0"; "1"; "0"]]
          initialState)).

End ObjVocabulary.

Section MtlVocabulary.
Context {F : JSFloat}.

(** The record that [materials[index]] designates, when it is one. *)
Definition currentRecord (s : MtlState) : option (gmap string Value) :=
  match materialAt (materials s) (index s) with
  | OwnRecord _ m => Some m
  | ProtoRecord m => Some m
  | _ => None
  end.

(** [materials[k].<name>] for an own record [k] of a parse result. *)
Definition materialProperty (r : Result Materials) (k name : string)
  : option Value :=
  match r with
  | Ok ms => own ms !! k ≫= fun m => m !! name
  | Throw _ => None
  end.

(** The same when the property holds a string. *)
Definition texturePath (r : Result Materials) (k name : string)
  : option string :=
  match materialProperty r k name with
  | Some (VString p) => Some p
  | _ => None
  end.

(** No [newmtl] line has been processed yet. *)
Definition Unopened (s : MtlState) : Prop :=
  materials s = mkMaterials ∅ None /\ index s = None.

(** The property that a texture-map keyword writes. *)
Definition textureProperty (kw : string) : option string :=
  if String.eqb kw "map_Kd" then Some "diffuseMap"
  else if String.eqb kw "map_Ns" then Some "specularMap"
  else None.

End MtlVocabulary.

(** A token as [split(/\s+/)] produces them inside a trimmed line: not
    empty and free of white space. *)
Fixpoint noSpace (t : string) : bool :=
  match t with
  | EmptyString => true
  | String c rest => negb (JS.isSpace c) && noSpace rest
  end.

Definition plainToken (t : string) : bool := negb (JS.isEmpty t) && noSpace t.

(** A text without line terminator. *)
Definition plainText (s : string) : Prop :=
  JS.takeWhile (fun c => negb (JS.isLineTerminator c)) s = s.

(** A line written with single spaces: the keyword, then the tokens. *)
Definition singleSpaced (kw : string) (tokens : list string) : string :=
  JS.join " " (kw :: tokens).

(** ** Vocabulary of the further properties *)

(** A line that is neither blank nor a comment. *)
Definition isKeyed (line : string) : bool :=
  match lineKeyword line with Some _ => true | None => false end.

(** A string of white space only. *)
Definition allSpace (w : string) : bool := JS.isEmpty (JS.trimStart w).

(** [a] relates the state it starts from to the state it returns. *)
Definition Relates {St} (R : St -> St -> Prop) (a : Action St) : Prop :=
  forall s s', a s = Ok s' -> R s s'.

Section ObjAccounting.
Context {F : JSFloat}.

(** The entries that a line appends to the table [k]. *)
Definition declares (k : Attr) (line : string) : list (list num) :=
  match lineKeyword line with
  | Some kw =>
      let value := lineValue line in
      if String.eqb kw "v" then
        match k with
        | Position =>
            [map parseFloat
               (if Nat.ltb 3 (length value) then JS.slice03 value else value)]
        | Color =>
            if Nat.ltb 3 (length value) then [map parseFloat (JS.slice3 value)]
            else []
        | _ => []
        end
      else if String.eqb kw "vn" then
        match k with Normal => [map parseFloat value] | _ => [] end
      else if String.eqb kw "vt" then
        match k with Texcoord => [map parseFloat value] | _ => [] end
      else []
  | None => []
  end.

(** The entry that a line appends to [materialLibs]. *)
Definition librariesOf (line : string) : list string :=
  match lineKeyword line with
  | Some kw => if String.eqb kw "mtllib" then [lineRaw line] else []
  | None => []
  end.

Definition isFaceLine (line : string) : bool :=
  match lineKeyword line with
  | Some kw => String.eqb kw "f"
  | None => false
  end.

Definition sameTags (g g' : Geometry) : Prop :=
  g_object g' = g_object g /\ g_groups g' = g_groups g /\
  g_material g' = g_material g.

(** Every array of [g] is in [g'] with values appended, and a deleted
    key of [g] is deleted in [g']. *)
Definition arraysExtend (g g' : Geometry) : Prop :=
  forall k,
    match getAttr k (g_data g) with
    | Some arr => exists more, getAttr k (g_data g') = Some (arr ++ more)
    | None => getAttr k (g_data g') = None
    end.

(** The same for the arrays that hold a value; this is what the
    cleanup keeps. *)
Definition valuesExtend (g g' : Geometry) : Prop :=
  forall k x xs, getAttr k (g_data g) = Some (x :: xs) ->
    exists more, getAttr k (g_data g') = Some (x :: xs ++ more).

(** Every geometry of [s] is in [s'] at the same place, with the same
    tags and extended arrays. *)
Definition geometriesGrow (s s' : State) : Prop :=
  forall j g, geometries s !! j = Some g ->
    exists g', geometries s' !! j = Some g' /\ sameTags g g' /\ arraysExtend g g'.

(** The effect of pushes: the arrays of the geometries grow and
    everything else is as it was. *)
Definition pushesOnly (s s' : State) : Prop :=
  sameTables s s' /\ geometry s' = geometry s /\
  materialLibs s' = materialLibs s /\ groups s' = groups s /\
  material s' = material s /\ object s' = object s /\
  console s' = console s /\
  length (geometries s') = length (geometries s) /\
  geometriesGrow s s'.

End ObjAccounting.

Section ObjAccounting2.
Context {F : JSFloat}.

(** What one line may do to the tables, to [materialLibs] and to the
    geometries. *)
Definition accounts (lines : list string) (s s' : State) : Prop :=
  (forall k, tableOf k s' = tableOf k s ++ flat_map (declares k) lines) /\
  materialLibs s' = materialLibs s ++ flat_map librariesOf lines /\
  geometriesGrow s s' /\
  length (geometries s') <= length (geometries s) + length (List.filter isFaceLine lines).

(** The tags that a state-setting line gives to the next geometry. *)
Definition retagged (line : string) (s : State) : Geometry -> Prop := fun g =>
  match lineKeyword line with
  | Some kw =>
      if String.eqb kw "usemtl" then
        g_material g = lineValue line !! 0 /\ g_object g = object s /\
        g_groups g = groups s
      else if String.eqb kw "g" then
        g_groups g = lineValue line /\ g_object g = object s /\
        g_material g = material s
      else if String.eqb kw "o" then
        g_object g = lineValue line !! 0 /\ g_groups g = groups s /\
        g_material g = material s
      else False
  | None => False
  end.

End ObjAccounting2.

Section Scene.
Context {F : JSFloat}.

(** A text with a material library and two materials. *)
Definition sceneText : string :=
  unlines ["mtllib a b.mtl"; "v 0 0 0"; "v 1 0 0"; "v 0 1 0"; "usemtl red";
           "f 1 2 3"; "usemtl blue"; "f 3 2 1"].

Definition sceneGeometries : list Geometry :=
  [ {| g_object := Some "default"; g_groups := ["default"]; g_material := Some "red";
       g_data :=
         mkData (Some (map parseFloat ["0"; "0"; "0"; "1"; "0"; "0"; "0"; "1"; "0"]))
           None None None |};
    {| g_object := Some "default"; g_groups := ["default"]; g_material := Some "blue";
       g_data :=
         mkData (Some (map parseFloat ["0"; "1"; "0"; "1"; "0"; "0"; "0"; "0"; "0"]))
           None None None |} ].

Definition sceneState : State :=
  set_material (Some "blue")
    (set_geometry (Some 1)
       (set_geometries sceneGeometries
          (set_materialLibs ["a b.mtl"]
             (set_objPositions
                [[zero; zero; zero]; map parseFloat ["0"; "0"; "0"];
                 map parseFloat ["1"; "0"; "0"]; map parseFloat ["0"; "1"; "0"]]
                initialState)))).

End Scene.

Section MtlAccounting.
Context {F : JSFloat}.

(** Whether the call of an inherited member returns. *)
Definition inheritedReturns (m : ProtoMember) : bool :=
  isOk (callInherited (St := unit) m tt).

(** Whether the line loop of [ParseMaterialFile] runs through [lines];
    [opened] tells whether a [newmtl] line came before them. *)
Fixpoint mtlSafe (opened : bool) (lines : list string) : bool :=
  match lines with
  | [] => true
  | line :: rest =>
      match lineKeyword line with
      | None => mtlSafe opened rest
      | Some kw =>
          if String.eqb kw "newmtl" then mtlSafe true rest
          else if bool_decide (kw ∈ propertyKeywords) then opened && mtlSafe opened rest
          else
            match objectPrototype kw with
            | Some m => inheritedReturns m && mtlSafe opened rest
            | None => mtlSafe opened rest
            end
      end
  end.

(** The own key of [materials] that a line creates. *)
Definition declaredNames (line : string) : list string :=
  match lineKeyword line with
  | Some kw =>
      if String.eqb kw "newmtl" then
        let k := propertyKey (lineValue line !! 0) in
        if String.eqb k "__proto__" then [] else [k]
      else []
  | None => []
  end.

(** Two states in which [materials[index]] designates the same record. *)
Definition sameTarget (s t : MtlState) : Prop :=
  index s = index t /\
  materialAt (materials s) (index s) = materialAt (materials t) (index t) /\
  is_Some (currentRecord s).

End MtlAccounting.

(** ** parsing_obj.js: the texture helper [isPowerOf2] *)

(** [ToInt32] of an integral number, the conversion that [&] applies to
    its operands. *)
Definition toInt32 (z : Z) : Z := ((z + 2 ^ 31) mod 2 ^ 32 - 2 ^ 31)%Z.

(** [isPowerOf2(value)] for an integral [value] such as the width of an
    image: [(value & (value - 1)) === 0]. *)
Definition isPowerOf2 (value : Z) : bool :=
  Z.eqb (Z.land (toInt32 value) (toInt32 (value - 1))) 0.

(** ** part_000: the extents of the geometries *)

(** The operations of [Math] and the constants of [Number] that
    [getExtents] and [getGeometriesExtents] use. *)
Class JSMath {F : JSFloat} := {
  NaN : num;
  POSITIVE_INFINITY : num;
  NEGATIVE_INFINITY : num;
  Math_min : num -> num -> num;
  Math_max : num -> num -> num
}.

Section Extents.
Context {F : JSFloat} {M : JSMath}.

(** [ToNumber] of an array element: a missing element is [undefined],
    which converts to [NaN]. *)
Definition toNumber (v : option num) : num := default NaN v.

(** The object [{ min, max }]. *)
Record Extents : Type := mkExtents {
  e_min : list num;
  e_max : list num
}.

(** The body of the inner loop of [getExtents] for one [j].  The
    arrays [min] and [max] have three elements whenever it runs, so
    the assignments to [min[j]] and [max[j]] replace an element. *)
Definition extentsAt (positions : list num) (i j : nat) (e : Extents) : Extents :=
  let v := toNumber (positions !! (i + j)) in
  mkExtents (<[j := Math_min v (toNumber (e_min e !! j))]> (e_min e))
    (<[j := Math_max v (toNumber (e_max e !! j))]> (e_max e)).

(** [for (; i < positions.length; i += 3) for (j = 0; j < 3; ++j) ...];
    [fuel] bounds the number of rounds. *)
Fixpoint extentsLoop (fuel : nat) (positions : list num) (i : nat) (e : Extents)
  : Extents :=
  match fuel with
  | O => e
  | S fuel' =>
      if Nat.ltb i (length positions) then
        extentsLoop fuel' positions (i + 3)
          (extentsAt positions i 2 (extentsAt positions i 1 (extentsAt positions i 0 e)))
      else e
  end.

(** [getExtents(positions)]; the loop makes fewer rounds than
    [positions] has elements. *)
Definition getExtents (positions : list num) : Extents :=
  extentsLoop (length positions) positions 3
    (mkExtents (take 3 positions) (take 3 positions)).

(** The callback of the [reduce] in [getGeometriesExtents]; the
    accumulator is the state.  [data.position] is [undefined] when the
    key was deleted, and [getExtents] then throws on its [slice]. *)
Definition extendBy (g : Geometry) : Action Extents := fun acc =>
  match position (g_data g) with
  | None => Throw ReadOfUndefined
  | Some positions =>
      let minMax := getExtents positions in
      Ok (mkExtents
            (imap (fun ndx m => Math_min (toNumber (e_min minMax !! ndx)) m) (e_min acc))
            (imap (fun ndx m => Math_max (toNumber (e_max minMax !! ndx)) m) (e_max acc)))
  end.

(** [getGeometriesExtents(geometries)]. *)
Definition getGeometriesExtents (geometries : list Geometry) : Result Extents :=
  forEach extendBy geometries
    (mkExtents (replicate 3 POSITIVE_INFINITY) (replicate 3 NEGATIVE_INFINITY)).

(** Whether a geometry has its [position] array. *)
Definition hasPositions (g : Geometry) : bool :=
  match position (g_data g) with Some _ => true | None => false end.

(** Whether a geometry holds at least one position coordinate. *)
Definition hasCoordinates (g : Geometry) : bool :=
  match position (g_data g) with Some (_ :: _) => true | _ => false end.

End Extents.

(** A comparison of decimal numerals, so that [Math.min] and
    [Math.max] can be run on the numerals of [decimalFloat]. *)
Definition decimalSigned (negative : bool) (digits : N) (scale : Z) : Z :=
  ((if negative then -1 else 1) * Z.of_N digits * 10 ^ scale)%Z.

Definition decimalLeb (a b : Decimal.t) : bool :=
  match a, b with
  | Decimal.NaN, _ | _, Decimal.NaN => false
  | Decimal.Infinity true, _ => true
  | _, Decimal.Infinity false => true
  | Decimal.Infinity false, _ => false
  | _, Decimal.Infinity true => false
  | Decimal.Dec na da ea, Decimal.Dec nb db eb =>
      let e0 := Z.min ea eb in
      Z.leb (decimalSigned na da (ea - e0)) (decimalSigned nb db (eb - e0))
  end.

Definition decimalIsNaN (a : Decimal.t) : bool :=
  match a with Decimal.NaN => true | _ => false end.

Definition decimalIsNegative (a : Decimal.t) : bool :=
  match a with
  | Decimal.Infinity n => n
  | Decimal.Dec n _ _ => n
  | Decimal.NaN => false
  end.

(** [Math.min]: [NaN] when an argument is, and [-0] below [+0]. *)
Definition decimalMin (a b : Decimal.t) : Decimal.t :=
  if decimalIsNaN a || decimalIsNaN b then Decimal.NaN
  else if decimalLeb a b then
    if decimalLeb b a then (if decimalIsNegative a then a else b) else a
  else b.

Definition decimalMax (a b : Decimal.t) : Decimal.t :=
  if decimalIsNaN a || decimalIsNaN b then Decimal.NaN
  else if decimalLeb a b then
    if decimalLeb b a then (if decimalIsNegative a then b else a) else b
  else a.

Definition decimalMath : JSMath (F := decimalFloat) :=
  {| NaN := Decimal.NaN : @num decimalFloat;
     POSITIVE_INFINITY := Decimal.Infinity false : @num decimalFloat;
     NEGATIVE_INFINITY := Decimal.Infinity true : @num decimalFloat;
     Math_min := decimalMin : @num decimalFloat -> @num decimalFloat -> @num decimalFloat;
     Math_max := decimalMax |}.

(** The keyword that a line makes the loop report on the console:
    the line has a keyword that [keywords[keyword]] does not find. *)
Definition warnedBy {St} (own : string -> option (Handler St)) (line : string)
  : list string :=
  match lineKeyword line with
  | Some kw =>
      match lookupHandler own kw with
      | None => [kw]
      | Some _ => []
      end
  | None => []
  end.

Section ObjRuns.
Context {F : JSFloat}.

(** The lengths of the four tables. *)
Definition tableLengths (s : State) : list nat := map length (objVertexData s).

(** Whether a table of [len] entries has an element at [index]. *)
Definition designates (index : option Z) (len : nat) : bool :=
  match index with
  | Some z => (0 <=? z)%Z && (z <? Z.of_nat len)%Z
  | None => false
  end.

(** Whether the callback of [addVertex] returns for the sub-index
    [objIndexStr] at place [i], the tables having the lengths [lens]
    and the current geometry its four arrays. *)
Definition slotRuns (lens : list nat) (i : nat) (objIndexStr : string) : bool :=
  if JS.isEmpty objIndexStr then true
  else
    let objIndex := JS.parseInt objIndexStr in
    match lens !! i with
    | Some len =>
        let index :=
          (fun n => if (0 <=? n)%Z then n else (n + Z.of_nat len)%Z) <$> objIndex in
        designates index len &&
        (if Nat.eqb i 0 && Nat.ltb 1 (default 0 (lens !! 3))
         then designates index (default 0 (lens !! 3))
         else true)
    | None =>
        match objIndex with
        | Some n => (0 <=? n)%Z
        | None => false
        end
    end.

Fixpoint slotsRun (lens : list nat) (i : nat) (ptn : list string) : bool :=
  match ptn with
  | [] => true
  | str :: rest => slotRuns lens i str && slotsRun lens (S i) rest
  end.

Definition vertexRuns (lens : list nat) (vert : string) : bool :=
  slotsRun lens 0 (JS.split "/" vert).

(** Whether a triangle of the fan runs: the references it reads. *)
Definition triangleRuns (lens : list nat) (value : list string)
    (t : nat * nat * nat) : bool :=
  let '(a, b, c) := t in
  let runs k :=
    match value !! k with Some vert => vertexRuns lens vert | None => false end in
  runs a && (runs b && runs c).

(** A face of fewer than three references emits nothing. *)
Definition faceRuns (lens : list nat) (value : list string) : bool :=
  if Nat.ltb (length value) 3 then true else forallb (vertexRuns lens) value.

(** The lengths of the tables after a line, [None] when the line
    throws. *)
Definition lineLengths (lens : list nat) (line : string) : option (list nat) :=
  match lineKeyword line with
  | None => Some lens
  | Some kw =>
      if String.eqb kw "v" then
        Some (if Nat.ltb 3 (length (lineValue line))
              then alter S 3 (alter S 0 lens) else alter S 0 lens)
      else if String.eqb kw "vn" then Some (alter S 2 lens)
      else if String.eqb kw "vt" then Some (alter S 1 lens)
      else if String.eqb kw "f" then
        if faceRuns lens (lineValue line) then Some lens else None
      else
        match keywords kw, objectPrototype kw with
        | None, Some m => if inheritedReturns m then Some lens else None
        | _, _ => Some lens
        end
  end.

Fixpoint objSafe (lens : list nat) (lines : list string) : bool :=
  match lines with
  | [] => true
  | line :: rest =>
      match lineLengths lens line with
      | Some lens' => objSafe lens' rest
      | None => false
      end
  end.

(** The states in which the pushes of a face find their arrays. *)
Definition Pushable (lens : list nat) (s : State) : Prop :=
  ArraysPresent s /\ is_Some (geometry s) /\ tableLengths s = lens.

(** From a pushable state, [a] returns exactly when [p] holds, in a
    pushable state. *)
Definition Runs (lens : list nat) (a : Action State) (p : bool) : Prop :=
  forall s, Pushable lens s ->
    isOk (a s) = p /\ forall s', a s = Ok s' -> Pushable lens s'.

End ObjRuns.

Section Emission.
Context {F : JSFloat}.

(** What the callback of [addVertex] appends to the array [k] for the
    sub-index [objIndexStr] at place [i]: the entry of its own table
    when [k] is the array of the place, and for the color array the
    color at the index of the position, once a color was declared. *)
Definition slotOut (k : Attr) (s : State) (i : nat) (objIndexStr : string)
  : list num :=
  if JS.isEmpty objIndexStr then []
  else
    (if bool_decide (slotAttr i = Some k)
     then default [] (slotEntry s i objIndexStr) else [])
    ++ (if bool_decide (k = Color) && Nat.eqb i 0 && Nat.ltb 1 (length (objColors s))
        then default [] (inlineColorEntry s objIndexStr) else []).

Fixpoint slotsOut (k : Attr) (s : State) (i : nat) (ptn : list string) : list num :=
  match ptn with
  | [] => []
  | str :: rest => slotOut k s i str ++ slotsOut k s (S i) rest
  end.

Definition vertexOut (k : Attr) (s : State) (vert : string) : list num :=
  slotsOut k s 0 (JS.split "/" vert).

Definition vertexOutAt (k : Attr) (s : State) (value : list string) (j : nat)
  : list num :=
  from_option (vertexOut k s) [] (value !! j).

Definition triangleOut (k : Attr) (s : State) (value : list string)
    (t : nat * nat * nat) : list num :=
  let '(a, b, c) := t in
  vertexOutAt k s value a ++ vertexOutAt k s value b ++ vertexOutAt k s value c.

(** What a face appends to the array [k]: its fan, vertex by vertex. *)
Definition faceOut (k : Attr) (s : State) (value : list string) : list num :=
  flat_map (triangleOut k s value) (fanTriangles (length value)).

(** [a] keeps the tables and the reference [geometry], and appends
    [out k s] to each array [k] of the current geometry. *)
Definition EmitsTo (a : Action State) (out : Attr -> State -> list num) : Prop :=
  forall s s', a s = Ok s' ->
    sameTables s s' /\ geometry s' = geometry s /\
    (forall k arr, currentArray k s = Some arr ->
       currentArray k s' = Some (arr ++ out k s)).

Definition stableTo (out : Attr -> State -> list num) : Prop :=
  forall k s s', sameTables s s' -> out k s' = out k s.

End Emission.

(* ================================================================== *)
(** * Properties *)

Section Samples.
Local Existing Instance decimalFloat.

Example split_lines : JS.split newline (unlines ["a"; "b"; ""]) = ["a"; "b"; ""].
Proof. reflexivity. Qed.

Example splitWs_run :
  JS.splitWs (String "f" (String " " (String "1" (String "009" "2  3"))))
  = ["f"; "1"; "2"; "3"].
Proof. reflexivity. Qed.

Example trim_both : JS.trim "  v 1 2 3  " = "v 1 2 3".
Proof. reflexivity. Qed.

Example parseInt_samples :
  map JS.parseInt ["12"; "-3"; "+7"; "1.5"; "0x1f"; "x"; ""; "-0"; "4a"]
  = [Some 12%Z; Some (-3)%Z; Some 7%Z; Some 1%Z; Some 31%Z; None; None;
     Some 0%Z; Some 4%Z].
Proof. reflexivity. Qed.

Example regex_captures :
  (JS.regexKeyword "mtllib   a b.mtl", JS.regexRawArguments "mtllib   a b.mtl")
  = ("mtllib", "a b.mtl").
Proof. reflexivity. Qed.

Example decimal_samples :
  map Decimal.read ["0"; "1.5"; "-2e3"; ".25"; "abc"; "3x"]
  = [Decimal.Dec false 0 0; Decimal.Dec false 15 (-1); Decimal.Dec true 2 3;
     Decimal.Dec false 25 (-2); Decimal.NaN; Decimal.Dec false 3 0].
Proof. reflexivity. Qed.

End Samples.

(** ** Sequencing and the line loop *)

Section ActionLemmas.
Context {St : Type}.
Implicit Types (a b : Action St) (s : St).

Lemma andThen_ok a b s s1 : a s = Ok s1 -> (a >>> b) s = b s1.
Proof. intros H. unfold andThen. now rewrite H. Qed.

Lemma andThen_throw a b s e : a s = Throw e -> (a >>> b) s = Throw e.
Proof. intros H. unfold andThen. now rewrite H. Qed.

Lemma andThen_inv a b s s2 :
  (a >>> b) s = Ok s2 -> exists s1, a s = Ok s1 /\ b s1 = Ok s2.
Proof.
  unfold andThen. destruct (a s) as [s1|e]; [|discriminate].
  intros H. now exists s1.
Qed.

Lemma forEach_app {A} (f : A -> Action St) l1 l2 s :
  forEach f (l1 ++ l2) s = (forEach f l1 >>> forEach f l2) s.
Proof.
  revert s. induction l1 as [|x l1 IH]; intros s; simpl.
  - reflexivity.
  - unfold andThen in *. destruct (f x s) as [s1|e]; [apply IH | reflexivity].
Qed.

(** A property kept by every step is kept by the loop. *)
Lemma forEach_invariant {A} (P : St -> Prop) (f : A -> Action St) l :
  (forall x s s', In x l -> P s -> f x s = Ok s' -> P s') ->
  forall s s', P s -> forEach f l s = Ok s' -> P s'.
Proof.
  induction l as [|x l IH]; intros Hstep s s' HP Hrun; simpl in Hrun.
  - injection Hrun as <-. exact HP.
  - apply andThen_inv in Hrun as (s1 & H1 & H2).
    apply (IH (fun y t t' Hy => Hstep y t t' (or_intror Hy)) s1 s').
    + apply (Hstep x s s1); [now left | exact HP | exact H1].
    + exact H2.
Qed.

(** The loop stops at the first step that throws. *)
Lemma forEach_throws_at {A} (f : A -> Action St) pre x post s s1 e :
  forEach f pre s = Ok s1 -> f x s1 = Throw e ->
  forEach f (pre ++ x :: post) s = Throw e.
Proof.
  intros Hpre Hx. rewrite forEach_app. rewrite (andThen_ok _ _ _ _ Hpre).
  simpl. now apply andThen_throw.
Qed.

(** Once a step throws, so does the whole loop, whatever came first. *)
Lemma forEach_throws {A} (f : A -> Action St) pre x post s :
  (forall s1, forEach f pre s = Ok s1 -> exists e, f x s1 = Throw e) ->
  exists e, forEach f (pre ++ x :: post) s = Throw e.
Proof.
  intros Hx. destruct (forEach f pre s) as [s1|e] eqn:Hpre.
  - destruct (Hx s1 eq_refl) as [e He]. exists e.
    now apply forEach_throws_at with s1.
  - exists e. rewrite forEach_app. now apply andThen_throw.
Qed.

Lemma forRange_forEach (body : nat -> Action St) start count s :
  forRange start count body s = forEach body (seq start count) s.
Proof.
  revert start s. induction count as [|c IH]; intros start s; simpl.
  - reflexivity.
  - unfold andThen. destruct (body start s); [apply IH | reflexivity].
Qed.

Lemma forEach_map {A B} (g : A -> B) (f : B -> Action St) l s :
  forEach f (map g l) s = forEach (fun x => f (g x)) l s.
Proof.
  revert s. induction l as [|x l IH]; intros s; simpl; [reflexivity|].
  unfold andThen. destruct (f (g x) s); [apply IH | reflexivity].
Qed.

Variable own : string -> option (Handler St).
Variable warnWith : string -> St -> St.

Lemma processLine_blank line :
  lineKeyword line = None -> processLine own warnWith line = skip.
Proof.
  unfold lineKeyword, processLine.
  destruct (JS.isEmpty (JS.trim line) || JS.startsWith "#" (JS.trim line));
    [reflexivity | discriminate].
Qed.

Lemma processLine_dispatch line kw :
  lineKeyword line = Some kw ->
  processLine own warnWith line =
    match lookupHandler own kw with
    | None => fun s => Ok (warnWith kw s)
    | Some handler => handler (lineValue line) (lineRaw line)
    end.
Proof.
  unfold lineKeyword, processLine, lineValue, lineRaw.
  destruct (JS.isEmpty (JS.trim line) || JS.startsWith "#" (JS.trim line));
    [discriminate|].
  intros [= <-]. reflexivity.
Qed.

Lemma processLine_own line kw h :
  lineKeyword line = Some kw -> own kw = Some h ->
  processLine own warnWith line = h (lineValue line) (lineRaw line).
Proof.
  intros Hk Ho. rewrite (processLine_dispatch _ _ Hk).
  unfold lookupHandler. now rewrite Ho.
Qed.

(** A keyword that is neither in the table nor inherited: the line is
    skipped with a warning, and nothing else changes. *)
Lemma processLine_unknown line kw s :
  lineKeyword line = Some kw -> own kw = None -> objectPrototype kw = None ->
  processLine own warnWith line s = Ok (warnWith kw s).
Proof.
  intros Hk Ho Hp. rewrite (processLine_dispatch _ _ Hk).
  unfold lookupHandler. now rewrite Ho, Hp.
Qed.

(** An inherited keyword: the line is dropped without a warning, or
    the call throws. *)
Lemma processLine_inherited line kw m s :
  lineKeyword line = Some kw -> own kw = None -> objectPrototype kw = Some m ->
  processLine own warnWith line s = callInherited m s.
Proof.
  intros Hk Ho Hp. rewrite (processLine_dispatch _ _ Hk).
  unfold lookupHandler. now rewrite Ho, Hp.
Qed.

Lemma callInherited_inv (m : ProtoMember) s s' :
  callInherited m s = Ok s' -> s' = s.
Proof. destruct m; simpl; unfold skip; congruence. Qed.

End ActionLemmas.

(** Case analysis on a chain of [String.eqb] tests against literals. *)
Ltac case_keyword kw :=
  repeat match goal with
    | |- context [String.eqb kw ?c] =>
        destruct (String.eqb_spec kw c); [subst kw |]
    | H : context [String.eqb kw ?c] |- _ =>
        destruct (String.eqb_spec kw c); [subst kw |]
    end.

(** ** The material-file parser *)

Section MtlProofs.
Context {F : JSFloat}.

Lemma mtlKeywords_inv kw h :
  mtlKeywords kw = Some h -> kw = "newmtl" \/ kw ∈ propertyKeywords.
Proof.
  unfold mtlKeywords, propertyKeywords. intros H.
  case_keyword kw; try (right; set_solver); try (now left).
Qed.

Lemma mtlKeywords_property kw :
  kw ∈ propertyKeywords ->
  exists h, mtlKeywords kw = Some h /\
    forall value raw, exists name v, h value raw = setProperty name v.
Proof.
  unfold propertyKeywords. rewrite !elem_of_cons, elem_of_nil.
  intros H.
  repeat (destruct H as [-> | H];
          [eexists; split; [reflexivity | intros; eexists _, _; reflexivity] |]).
  contradiction.
Qed.

Lemma materialAt_unopened : materialAt (mkMaterials ∅ None) None = Undefined.
Proof.
  unfold materialAt. simpl. rewrite lookup_empty. reflexivity.
Qed.

Lemma setProperty_unopened name v s :
  Unopened s -> setProperty name v s = Throw WriteOnUndefined.
Proof.
  intros [Hm Hi]. unfold setProperty. rewrite Hm, Hi, materialAt_unopened.
  reflexivity.
Qed.

(** Before any [newmtl], a property line throws. *)
Lemma property_line_unopened line kw s :
  Unopened s -> lineKeyword line = Some kw -> kw ∈ propertyKeywords ->
  mtlLine line s = Throw WriteOnUndefined.
Proof.
  intros Hs Hk Hp. destruct (mtlKeywords_property kw Hp) as (h & Hh & Hset).
  unfold mtlLine. rewrite (processLine_own _ _ _ _ _ Hk Hh).
  destruct (Hset (lineValue line) (lineRaw line)) as (name & v & ->).
  now apply setProperty_unopened.
Qed.

(** A line other than [newmtl] that does not throw leaves the
    materials and the index as they were. *)
Lemma other_line_unopened line s s' :
  Unopened s -> lineKeyword line <> Some "newmtl" ->
  mtlLine line s = Ok s' -> Unopened s'.
Proof.
  intros Hs Hk Hrun. unfold mtlLine in Hrun.
  destruct (lineKeyword line) as [kw|] eqn:Hkw.
  - destruct (mtlKeywords kw) as [h|] eqn:Hh.
    + destruct (mtlKeywords_inv _ _ Hh) as [-> | Hp]; [congruence|].
      pose proof (property_line_unopened line kw s Hs Hkw Hp) as Ht.
      unfold mtlLine in Ht. congruence.
    + destruct (objectPrototype kw) as [m|] eqn:Hm.
      * rewrite (processLine_inherited _ _ _ _ _ _ Hkw Hh Hm) in Hrun.
        apply callInherited_inv in Hrun. now subst.
      * rewrite (processLine_unknown _ _ _ _ _ Hkw Hh Hm) in Hrun.
        injection Hrun as <-. exact Hs.
  - rewrite (processLine_blank _ _ _ Hkw) in Hrun. injection Hrun as <-. exact Hs.
Qed.

Lemma prefix_unopened pre s :
  Forall (fun l => lineKeyword l <> Some "newmtl") pre ->
  forEach mtlLine pre mtlInitialState = Ok s -> Unopened s.
Proof.
  intros Hpre. apply (forEach_invariant Unopened).
  - intros x t t' Hx Ht Hrun. rewrite Forall_forall in Hpre.
    apply (other_line_unopened x t t' Ht); [|exact Hrun].
    apply Hpre. now apply list_elem_of_In.
  - split; reflexivity.
Qed.

(** C8. A property line ([Ns], [Kd], [map_Kd], ...) that comes before
    every [newmtl] line makes [ParseMaterialFile] throw: when the lines
    before it are processed without an exception, the exception is
    raised by that very line, a write on the [undefined] that
    [materials[index]] evaluates to, and no material has been
    recorded. *)
Theorem property_before_newmtl_throws
    (text : string) (pre : list string) (line : string) (post : list string)
    (kw : string) :
  JS.split newline text = pre ++ line :: post ->
  Forall (fun l => lineKeyword l <> Some "newmtl") pre ->
  lineKeyword line = Some kw ->
  kw ∈ propertyKeywords ->
  (exists e, ParseMaterialFile text = Throw e) /\
  (forall s, forEach mtlLine pre mtlInitialState = Ok s ->
     mtlLine line s = Throw WriteOnUndefined /\
     materials s = mkMaterials ∅ None).
Proof.
  intros Hsplit Hpre Hk Hp.
  assert (Hstep : forall s, forEach mtlLine pre mtlInitialState = Ok s ->
            mtlLine line s = Throw WriteOnUndefined /\
            materials s = mkMaterials ∅ None).
  { intros s Hs. pose proof (prefix_unopened pre s Hpre Hs) as Hu. split.
    - now apply property_line_unopened with kw.
    - apply Hu. }
  split; [|exact Hstep].
  unfold ParseMaterialFile. rewrite Hsplit.
  destruct (forEach_throws mtlLine pre line post mtlInitialState) as [e He].
  - intros s1 Hs1. exists WriteOnUndefined. now apply Hstep.
  - exists e. now rewrite He.
Qed.

End MtlProofs.

Lemma property_before_newmtl_throws_witness :
  let text := unlines ["# materials"; "bogus 1"; "Kd 1 0 0"; "newmtl X"] in
  let pre := ["# materials"; "bogus 1"] in
  (JS.split newline text = pre ++ "Kd 1 0 0" :: ["newmtl X"] /\
   Forall (fun l => lineKeyword l <> Some "newmtl") pre /\
   lineKeyword "Kd 1 0 0" = Some "Kd" /\
   "Kd" ∈ propertyKeywords) /\
  ((exists e, ParseMaterialFile (F := decimalFloat) text = Throw e) /\
   (forall s, forEach (mtlLine (F := decimalFloat)) pre mtlInitialState = Ok s ->
      mtlLine "Kd 1 0 0" s = Throw WriteOnUndefined /\
      materials s = mkMaterials ∅ None)).
Proof.
  assert (H1 : JS.split newline
                 (unlines ["# materials"; "bogus 1"; "Kd 1 0 0"; "newmtl X"])
               = ["# materials"; "bogus 1"] ++ "Kd 1 0 0" :: ["newmtl X"])
    by reflexivity.
  assert (H2 : Forall (fun l => lineKeyword l <> Some "newmtl")
                 ["# materials"; "bogus 1"])
    by (repeat constructor; vm_compute; discriminate).
  assert (H3 : lineKeyword "Kd 1 0 0" = Some "Kd") by reflexivity.
  assert (H4 : "Kd" ∈ propertyKeywords)
    by (unfold propertyKeywords; apply list_elem_of_In; simpl; tauto).
  split; [repeat split; assumption|].
  exact (property_before_newmtl_throws (F := decimalFloat) _ _ _ _ _ H1 H2 H3 H4).
Defined.

(** ** Lines written with single spaces *)

Section SingleSpaced.

Lemma terminator_is_space c : JS.isLineTerminator c = true -> JS.isSpace c = true.
Proof.
  unfold JS.isLineTerminator, JS.isSpace. cbv zeta.
  destruct (Nat.eqb_spec (nat_of_ascii c) 10) as [->|]; [reflexivity|].
  destruct (Nat.eqb_spec (nat_of_ascii c) 13) as [->|]; [reflexivity|].
  discriminate.
Qed.

Lemma trimEnd_noSpace t : noSpace t = true -> JS.trimEnd t = t.
Proof.
  induction t as [|c r IH]; simpl; [reflexivity|].
  intros H. apply andb_prop in H as [Hc Hr]. rewrite (IH Hr).
  apply negb_true_iff in Hc. rewrite Hc. now destruct r.
Qed.

Lemma append_cons c a b :
  String.append (String c a) b = String c (String.append a b).
Proof. reflexivity. Qed.

Lemma append_nil b : String.append EmptyString b = b.
Proof. reflexivity. Qed.

Lemma trimEnd_append a b :
  b <> EmptyString -> JS.trimEnd b = b ->
  JS.trimEnd (String.append a b) = String.append a b.
Proof.
  intros Hne Hb. induction a as [|c a IH]; [exact Hb|].
  rewrite append_cons. cbn [JS.trimEnd]. rewrite IH.
  destruct (String.append a b) eqn:E; [|reflexivity].
  destruct a; [rewrite append_nil in E; contradiction|].
  rewrite append_cons in E. discriminate.
Qed.

Lemma join_cons2 sep x y l :
  JS.join sep (x :: y :: l) = String.append x (String.append sep (JS.join sep (y :: l))).
Proof. reflexivity. Qed.

(** A join of plain tokens starts with a character that is not white
    space. *)
Lemma join_plain_head l :
  l <> [] -> Forall (fun t => plainToken t = true) l ->
  exists c rest, JS.join " " l = String c rest /\ JS.isSpace c = false.
Proof.
  destruct l as [|t l]; [contradiction|]. intros _ H.
  apply Forall_cons_1 in H as [Ht _]. unfold plainToken in Ht.
  apply andb_prop in Ht as [Hne Hns]. destruct t as [|c r]; [discriminate|].
  simpl in Hns. apply andb_prop in Hns as [Hc _]. apply negb_true_iff in Hc.
  exists c. destruct l; simpl; eauto.
Qed.

Lemma trimEnd_join l :
  l <> [] -> Forall (fun t => plainToken t = true) l ->
  JS.trimEnd (JS.join " " l) = JS.join " " l.
Proof.
  induction l as [|t l IH]; [contradiction|]. intros _ H.
  pose proof H as Hall. apply Forall_cons_1 in H as [Ht Hl].
  destruct l as [|u l].
  - simpl. apply trimEnd_noSpace. unfold plainToken in Ht.
    now apply andb_prop in Ht as [_ ?].
  - rewrite join_cons2.
    destruct (join_plain_head (u :: l)) as (c & rest & E & Hc);
      [discriminate | exact Hl |].
    apply trimEnd_append; [rewrite append_cons; discriminate|].
    rewrite append_cons, append_nil. cbn [JS.trimEnd].
    rewrite IH by (discriminate || exact Hl). rewrite E. reflexivity.
Qed.

Lemma splitWs_noSpace t : noSpace t = true -> JS.splitWsFrom false t = [t].
Proof.
  induction t as [|c r IH]; simpl; [reflexivity|].
  intros H. apply andb_prop in H as [Hc Hr]. apply negb_true_iff in Hc.
  now rewrite Hc, (IH Hr).
Qed.

Lemma splitWs_append t rest :
  noSpace t = true ->
  JS.splitWsFrom false (String.append t (String " " rest))
  = t :: JS.splitWsFrom true rest.
Proof.
  induction t as [|c r IH]; [reflexivity|].
  intros H. cbn [noSpace] in H. apply andb_prop in H as [Hc Hr].
  apply negb_true_iff in Hc.
  rewrite append_cons. cbn [JS.splitWsFrom]. now rewrite Hc, (IH Hr).
Qed.

Lemma splitWs_join l :
  l <> [] -> Forall (fun t => plainToken t = true) l ->
  JS.splitWs (JS.join " " l) = l.
Proof.
  unfold JS.splitWs.
  induction l as [|t l IH]; [contradiction|]. intros _ H.
  apply Forall_cons_1 in H as [Ht Hl].
  assert (Hns : noSpace t = true)
    by (unfold plainToken in Ht; now apply andb_prop in Ht as [_ ?]).
  destruct l as [|u l].
  - simpl. now apply splitWs_noSpace.
  - rewrite join_cons2, append_cons, append_nil.
    rewrite (splitWs_append _ _ Hns). f_equal.
    destruct (join_plain_head (u :: l)) as (c & rest & E & Hc);
      [discriminate | exact Hl |].
    rewrite <- IH at 2 by (discriminate || exact Hl).
    rewrite E. simpl. now rewrite Hc.
Qed.

Lemma plainText_noSpace t : noSpace t = true -> plainText t.
Proof.
  unfold plainText. induction t as [|c r IH]; simpl; [reflexivity|].
  intros H. apply andb_prop in H as [Hc Hr]. apply negb_true_iff in Hc.
  destruct (JS.isLineTerminator c) eqn:E.
  - apply terminator_is_space in E. congruence.
  - simpl. now rewrite (IH Hr).
Qed.

Lemma plainText_append a b : plainText a -> plainText b -> plainText (String.append a b).
Proof.
  unfold plainText. induction a as [|c a IH]; [now rewrite append_nil|].
  rewrite append_cons. cbn [JS.takeWhile].
  destruct (negb (JS.isLineTerminator c)); [|discriminate].
  intros [= Ha] Hb. now rewrite (IH Ha Hb).
Qed.

Lemma plainText_join l :
  Forall (fun t => plainToken t = true) l -> plainText (JS.join " " l).
Proof.
  induction l as [|t l IH]; intros H; [reflexivity|].
  apply Forall_cons_1 in H as [Ht Hl].
  assert (Hns : noSpace t = true)
    by (unfold plainToken in Ht; now apply andb_prop in Ht as [_ ?]).
  destruct l as [|u l]; [now apply plainText_noSpace|].
  rewrite join_cons2. apply plainText_append; [now apply plainText_noSpace|].
  apply (plainText_append " "); [reflexivity | now apply IH].
Qed.

(** What the line loop extracts from a texture-map line written with
    single spaces: the tokens are recovered, and joining them gives
    back the raw argument text. *)
Lemma singleSpaced_texture_line kw name tokens :
  textureProperty kw = Some name ->
  tokens <> [] -> Forall (fun t => plainToken t = true) tokens ->
  lineKeyword (singleSpaced kw tokens) = Some kw /\
  lineValue (singleSpaced kw tokens) = tokens /\
  lineRaw (singleSpaced kw tokens) = JS.join " " tokens.
Proof.
  intros Hkw Hne Hall.
  assert (Hk : kw = "map_Kd" \/ kw = "map_Ns").
  { unfold textureProperty in Hkw. case_keyword kw; [now left | now right | discriminate]. }
  assert (Hplain : plainToken kw = true) by (destruct Hk as [-> | ->]; reflexivity).
  assert (Hall' : Forall (fun t => plainToken t = true) (kw :: tokens))
    by (constructor; assumption).
  assert (Htrim : JS.trim (singleSpaced kw tokens) = singleSpaced kw tokens).
  { unfold JS.trim, singleSpaced.
    replace (JS.trimStart (JS.join " " (kw :: tokens))) with (JS.join " " (kw :: tokens)).
    - apply trimEnd_join; [discriminate | exact Hall'].
    - destruct tokens; [contradiction|]. destruct Hk as [-> | ->]; reflexivity. }
  destruct (join_plain_head tokens Hne Hall) as (c & rest & E & Hc).
  assert (Hsp : JS.ascii_eqb c " " = false).
  { unfold JS.ascii_eqb. destruct (Nat.eqb_spec (nat_of_ascii c) (nat_of_ascii " ")) as [e|]; [|reflexivity].
    apply (f_equal ascii_of_nat) in e. rewrite !ascii_nat_embedding in e. subst c. discriminate. }
  unfold lineKeyword, lineValue, lineRaw. rewrite Htrim.
  split; [|split].
  - unfold singleSpaced. destruct tokens; [contradiction|].
    rewrite join_cons2. destruct Hk as [-> | ->]; simpl String.append at 2; rewrite E; reflexivity.
  - unfold singleSpaced. rewrite (splitWs_join (kw :: tokens)); [reflexivity | discriminate | exact Hall'].
  - pose proof (plainText_join tokens Hall) as Hp. unfold plainText in Hp.
    unfold singleSpaced, JS.regexRawArguments. destruct tokens; [contradiction|].
    rewrite join_cons2. rewrite E in *.
    destruct Hk as [-> | ->]; simpl; simpl in Hp; rewrite Hsp; simpl; exact Hp.
Qed.

End SingleSpaced.

(** ** Texture maps *)

Section TextureMaps.
Context {F : JSFloat}.

Lemma materialAt_own ms i k m :
  materialAt ms i = OwnRecord k m ->
  k = propertyKey i /\ String.eqb k "__proto__" = false /\ own ms !! k = Some m.
Proof.
  unfold materialAt.
  destruct (String.eqb (propertyKey i) "__proto__") eqn:E.
  - destruct (proto ms); discriminate.
  - destruct (own ms !! propertyKey i) as [m0|] eqn:Ho.
    + intros [= <- <-]. auto.
    + destruct (proto ms ≫= _) as [[]|]; try discriminate.
      destruct (objectPrototype _); discriminate.
Qed.

Lemma materialAt_proto ms i m :
  materialAt ms i = ProtoRecord m ->
  String.eqb (propertyKey i) "__proto__" = true /\ proto ms = Some m.
Proof.
  unfold materialAt.
  destruct (String.eqb (propertyKey i) "__proto__") eqn:E.
  - destruct (proto ms); [intros [= <-]; auto | discriminate].
  - destruct (own ms !! propertyKey i); [discriminate|].
    destruct (proto ms ≫= _) as [[]|]; try discriminate.
    destruct (objectPrototype _); discriminate.
Qed.

(** A write through [materials[index]] lands in the current record and
    leaves the other records alone. *)
Lemma setProperty_current name v s m :
  currentRecord s = Some m ->
  exists s', setProperty name v s = Ok s' /\
    currentRecord s' = Some (<[name := v]> m) /\
    index s' = index s /\
    (forall k, k <> propertyKey (index s) ->
       own (materials s') !! k = own (materials s) !! k).
Proof.
  unfold currentRecord, setProperty.
  destruct (materialAt (materials s) (index s)) as [k m0|m0| | |] eqn:E;
    try discriminate; intros [= <-]; eexists; (split; [reflexivity|]).
  - apply materialAt_own in E as (-> & Hk & Ho). simpl.
    repeat split.
    + unfold materialAt. simpl. rewrite Hk, lookup_insert_eq. reflexivity.
    + intros k Hne. now rewrite lookup_insert_ne.
  - apply materialAt_proto in E as (Hk & Hp). simpl.
    repeat split. unfold materialAt. simpl. now rewrite Hk.
Qed.

Lemma texture_handler kw name :
  textureProperty kw = Some name ->
  exists h, mtlKeywords kw = Some h /\
    forall value raw, h value raw = setProperty name (VString (JS.join " " value)).
Proof.
  unfold textureProperty. intros H.
  case_keyword kw; [| |discriminate]; injection H as <-;
    eexists; (split; [reflexivity|]); reflexivity.
Qed.

(** [newmtl] makes a record current. *)
Lemma newmtl_opens line s :
  lineKeyword line = Some "newmtl" ->
  exists s', mtlLine line s = Ok s' /\ currentRecord s' = Some ∅.
Proof.
  intros Hk. unfold mtlLine.
  rewrite (processLine_own _ _ _ _ keyword_newmtl Hk eq_refl).
  unfold keyword_newmtl. cbn [index set_index].
  destruct (String.eqb (propertyKey (lineValue line !! 0)) "__proto__") eqn:E;
    eexists; (split; [reflexivity|]); unfold currentRecord, materialAt; simpl;
    rewrite E; [reflexivity|].
  now rewrite lookup_insert_eq.
Qed.

(** Once a record is current, one stays current. *)
Lemma opened_preserved line s s' :
  is_Some (currentRecord s) -> mtlLine line s = Ok s' -> is_Some (currentRecord s').
Proof.
  intros [m Hm] Hrun. unfold mtlLine in Hrun.
  destruct (lineKeyword line) as [kw|] eqn:Hkw.
  - destruct (mtlKeywords kw) as [h|] eqn:Hh.
    + destruct (mtlKeywords_inv _ _ Hh) as [-> | Hp].
      * destruct (newmtl_opens line s Hkw) as (s1 & H1 & Hc). unfold mtlLine in H1.
        rewrite H1 in Hrun. injection Hrun as <-. rewrite Hc. eauto.
      * destruct (mtlKeywords_property kw Hp) as (h' & Hh' & Hset).
        rewrite Hh in Hh'. injection Hh' as <-.
        rewrite (processLine_own _ _ _ _ _ Hkw Hh) in Hrun.
        destruct (Hset (lineValue line) (lineRaw line)) as (name & v & E).
        rewrite E in Hrun.
        destruct (setProperty_current name v s m Hm) as (s1 & H1 & Hc & _).
        rewrite H1 in Hrun. injection Hrun as <-. rewrite Hc. eauto.
    + destruct (objectPrototype kw) as [p|] eqn:Hp.
      * rewrite (processLine_inherited _ _ _ _ _ _ Hkw Hh Hp) in Hrun.
        apply callInherited_inv in Hrun. subst. eauto.
      * rewrite (processLine_unknown _ _ _ _ _ Hkw Hh Hp) in Hrun.
        injection Hrun as <-. eauto.
  - rewrite (processLine_blank _ _ _ Hkw) in Hrun. injection Hrun as <-. eauto.
Qed.

(** After a [newmtl] line, every later line finds a current record. *)
Lemma opened_after_newmtl pre line rest s0 s :
  lineKeyword line = Some "newmtl" ->
  forEach mtlLine (pre ++ line :: rest) s0 = Ok s -> is_Some (currentRecord s).
Proof.
  intros Hk H. rewrite forEach_app in H. apply andThen_inv in H as (s1 & _ & H).
  simpl in H. apply andThen_inv in H as (s2 & H2 & H).
  destruct (newmtl_opens line s1 Hk) as (s2' & H2' & Hc).
  rewrite H2 in H2'. injection H2' as <-.
  apply (forEach_invariant (fun t => is_Some (currentRecord t)) mtlLine rest)
    with (s := s2); [| rewrite Hc; eauto | exact H].
  intros x t t' _. apply opened_preserved.
Qed.

(** C7 (amended). A [map_Kd] or [map_Ns] line processed while a
    material record is current stores, as the texture path of that
    record, all the argument tokens of the line joined by single
    spaces: option flags are tokens like the others and nothing is
    interpreted; the other records are untouched, and a text that ends
    with the line returns the materials so updated.  When the line is
    written with single spaces between its tokens, the stored path is
    the rest of the line as it stands. *)
Theorem texture_map_stores_joined_tokens
    (line kw name : string) (s : MtlState) (m : gmap string Value) :
  lineKeyword line = Some kw ->
  textureProperty kw = Some name ->
  currentRecord s = Some m ->
  (exists s', mtlLine line s = Ok s' /\
     currentRecord s' = Some (<[name := VString (JS.join " " (lineValue line))]> m) /\
     index s' = index s /\
     (forall k, k <> propertyKey (index s) ->
        own (materials s') !! k = own (materials s) !! k) /\
     (forall text pre,
        JS.split newline text = pre ++ [line] ->
        forEach mtlLine pre mtlInitialState = Ok s ->
        ParseMaterialFile text = Ok (materials s'))) /\
  (forall tokens,
     tokens <> [] -> Forall (fun t => plainToken t = true) tokens ->
     line = singleSpaced kw tokens ->
     JS.join " " (lineValue line) = lineRaw line /\ lineValue line = tokens).
Proof.
  intros Hk Hn Hm. split.
  - destruct (texture_handler kw name Hn) as (h & Hh & Hset).
    unfold mtlLine. rewrite (processLine_own _ _ _ _ _ Hk Hh), Hset.
    destruct (setProperty_current name (VString (JS.join " " (lineValue line))) s m Hm)
      as (s' & Hrun & Hc & Hi & Hother).
    exists s'. repeat split; try assumption.
    intros text pre Hsplit Hpre. unfold ParseMaterialFile.
    rewrite Hsplit, forEach_app, (andThen_ok _ _ _ _ Hpre). simpl.
    unfold andThen, mtlLine. rewrite (processLine_own _ _ _ _ _ Hk Hh), Hset, Hrun.
    reflexivity.
  - intros tokens Hne Hall ->.
    destruct (singleSpaced_texture_line kw name tokens Hn Hne Hall) as (_ & Hv & Hr).
    rewrite Hv, Hr. split; reflexivity.
Qed.

(** The scenario of the design document: one material, its diffuse
    color and its shininess, and nothing else. *)
Example material_round_trip :
  let r := ParseMaterialFile (unlines ["newmtl X"; "Kd 1 0 0"; "Ns 50"; ""]) in
  materialProperty r "X" "diffuse" = Some (VArray (map parseFloat ["1"; "0"; "0"])) /\
  materialProperty r "X" "shininess" = Some (VNumber (parseFloat "50")) /\
  map (materialProperty r "X")
    ["ambient"; "specular"; "emissive"; "diffuseMap"; "specularMap"; "IOR";
     "opacity"; "illum"]
  = [None; None; None; None; None; None; None; None].
Proof. repeat split; vm_compute; reflexivity. Qed.

End TextureMaps.

Lemma texture_map_stores_joined_tokens_witness :
  let s := mkMtlState (mkMaterials {[ "X" := ∅ ]} None) (Some "X") [] in
  let line := "map_Kd -o 1 1 wood.png" in
  (lineKeyword line = Some "map_Kd" /\
   textureProperty "map_Kd" = Some "diffuseMap" /\
   currentRecord (F := decimalFloat) s = Some ∅) /\
  ((exists s', mtlLine line s = Ok s' /\
      currentRecord s'
      = Some (<["diffuseMap" := VString (JS.join " " (lineValue line))]> ∅) /\
      index s' = index s /\
      (forall k, k <> propertyKey (index s) ->
         own (materials s') !! k = own (materials s) !! k) /\
      (forall text pre,
         JS.split newline text = pre ++ [line] ->
         forEach mtlLine pre mtlInitialState = Ok s ->
         ParseMaterialFile text = Ok (materials s'))) /\
   (forall tokens,
      tokens <> [] -> Forall (fun t => plainToken t = true) tokens ->
      line = singleSpaced "map_Kd" tokens ->
      JS.join " " (lineValue line) = lineRaw line /\ lineValue line = tokens)).
Proof.
  assert (H1 : lineKeyword "map_Kd -o 1 1 wood.png" = Some "map_Kd") by reflexivity.
  assert (H2 : textureProperty "map_Kd" = Some "diffuseMap") by reflexivity.
  assert (H3 : currentRecord (F := decimalFloat)
                 (mkMtlState (mkMaterials {[ "X" := ∅ ]} None) (Some "X") [])
               = Some ∅).
  { unfold currentRecord, materialAt. cbn [materials index own proto propertyKey default].
    change (String.eqb "X" "__proto__") with false. cbv iota.
    now rewrite lookup_singleton_eq. }
  split; [repeat split; assumption|].
  exact (texture_map_stores_joined_tokens (F := decimalFloat) _ _ _ _ _ H1 H2 H3).
Defined.

(** C7 as stated fails: with two spaces between its arguments, the
    path stored for the line [map_Kd a  b.png] is ["a b.png"], which is
    not the rest of the line. *)
Lemma texture_map_not_verbatim :
  let line := "map_Kd a  b.png" in
  texturePath
    (ParseMaterialFile (F := decimalFloat) (unlines ["newmtl X"; line]))
    "X" "diffuseMap"
  = Some "a b.png" /\
  lineRaw line = "a  b.png" /\
  "a b.png" <> lineRaw line.
Proof.
  split; [vm_compute; reflexivity|].
  split; [reflexivity | vm_compute; discriminate].
Qed.

(** ** parsing_obj.js: pushes into the current geometry *)

Section ObjCore.
Context {F : JSFloat}.
Implicit Types (s : State) (g : Geometry) (k : Attr).

Lemma getAttr_setAttr_eq k a d : getAttr k (setAttr k a d) = a.
Proof. now destruct k. Qed.

Lemma getAttr_setAttr_ne k k' a d : k <> k' -> getAttr k (setAttr k' a d) = getAttr k d.
Proof. destruct k, k'; simpl; congruence. Qed.

Lemma pushData_inv k entry s s' :
  pushData k entry s = Ok s' ->
  exists r g arr e,
    geometry s = Some r /\ geometries s !! r = Some g /\
    getAttr k (g_data g) = Some arr /\ entry = Some e /\
    s' = appended r g k arr e s.
Proof.
  unfold pushData.
  destruct (geometry s) as [r|] eqn:Hr; [|discriminate].
  destruct (geometries s !! r) as [g|] eqn:Hg; [|discriminate].
  destruct (getAttr k (g_data g)) as [arr|] eqn:Ha; [|discriminate].
  destruct entry as [e|]; [|discriminate].
  intros [= <-]. exists r, g, arr, e. auto.
Qed.

Lemma pushData_ok k r g arr e s :
  geometry s = Some r -> geometries s !! r = Some g ->
  getAttr k (g_data g) = Some arr ->
  pushData k (Some e) s = Ok (appended r g k arr e s).
Proof. intros Hr Hg Ha. unfold pushData. now rewrite Hr, Hg, Ha. Qed.

(** Spreading [undefined] always throws. *)
Lemma pushData_undefined k s : exists e, pushData k None s = Throw e.
Proof.
  unfold pushData.
  destruct (geometry s) as [r|]; [|eauto].
  destruct (geometries s !! r) as [g|]; [|eauto].
  destruct (getAttr k (g_data g)); eauto.
Qed.

Lemma currentArray_appended k' r g k arr e s :
  geometry s = Some r -> geometries s !! r = Some g ->
  currentArray k' (appended r g k arr e s)
  = if decide (k' = k) then Some (arr ++ e) else currentArray k' s.
Proof.
  intros Hr Hg. unfold currentArray, currentGeometry, appended. simpl.
  rewrite Hr. simpl. rewrite list_lookup_insert_eq by (now apply lookup_lt_Some with g).
  rewrite Hg. simpl. destruct (decide (k' = k)) as [->|Hne].
  - apply getAttr_setAttr_eq.
  - now apply getAttr_setAttr_ne.
Qed.

(** A push keeps the tables and the reference, and extends one array
    of the current geometry. *)
Lemma pushData_effect k entry s s' :
  pushData k entry s = Ok s' ->
  sameTables s s' /\ geometry s' = geometry s /\
  exists arr e, currentArray k s = Some arr /\ entry = Some e /\
    currentArray k s' = Some (arr ++ e) /\
    (forall k', k' <> k -> currentArray k' s' = currentArray k' s).
Proof.
  intros H. apply pushData_inv in H as (r & g & arr & e & Hr & Hg & Ha & -> & ->).
  split; [reflexivity|]. split; [reflexivity|].
  exists arr, e. repeat split.
  - unfold currentArray, currentGeometry. rewrite Hr. simpl. rewrite Hg. exact Ha.
  - rewrite (currentArray_appended _ _ _ _ _ _ _ Hr Hg). now rewrite decide_True.
  - intros k' Hne. rewrite (currentArray_appended _ _ _ _ _ _ _ Hr Hg).
    now rewrite decide_False.
Qed.

Lemma sameTables_trans s1 s2 s3 : sameTables s1 s2 -> sameTables s2 s3 -> sameTables s1 s3.
Proof. unfold sameTables. congruence. Qed.

Lemma sameTables_colors s s' : sameTables s s' -> objColors s' = objColors s.
Proof. unfold sameTables, objVertexData. congruence. Qed.

Lemma sameTables_positions s s' : sameTables s s' -> objPositions s' = objPositions s.
Proof. unfold sameTables, objVertexData. congruence. Qed.

Lemma slotEntry_sameTables s s' i str :
  sameTables s s' -> slotEntry s' i str = slotEntry s i str.
Proof. unfold sameTables, slotEntry. now intros ->. Qed.

Lemma inlineColorEntry_sameTables s s' str :
  sameTables s s' -> inlineColorEntry s' str = inlineColorEntry s str.
Proof.
  intros H. unfold inlineColorEntry.
  now rewrite (sameTables_colors _ _ H), (sameTables_positions _ _ H).
Qed.

Lemma danglingSlot_sameTables s s' i str :
  sameTables s s' -> danglingSlot s i str -> danglingSlot s' i str.
Proof.
  intros H. unfold danglingSlot.
  now rewrite (slotEntry_sameTables _ _ _ _ H), (inlineColorEntry_sameTables _ _ _ H),
    (sameTables_colors _ _ H).
Qed.

(** The effect of the inline-color push on the position array. *)
Lemma pushInlineColor_effect i index s s' :
  pushInlineColor i index s = Ok s' ->
  sameTables s s' /\ geometry s' = geometry s /\
  currentArray Position s' = currentArray Position s.
Proof.
  unfold pushInlineColor.
  destruct (Nat.eqb i 0 && Nat.ltb 1 (length (objColors s))).
  - intros H. apply pushData_effect in H as (Ht & Hg & arr & e & _ & _ & _ & Hk).
    repeat split; [exact Ht | exact Hg | apply Hk; discriminate].
  - intros [= <-]. repeat split.
Qed.

(** What one sub-index does to the position array: only slot 0 writes
    there, the entry it designates. *)
Lemma addVertexSlot_effect i str s s' :
  addVertexSlot i str s = Ok s' ->
  sameTables s s' /\ geometry s' = geometry s /\
  (forall arr, currentArray Position s = Some arr ->
     currentArray Position s'
     = Some (arr ++ if Nat.eqb i 0 && negb (JS.isEmpty str)
                    then default [] (slotEntry s 0 str) else [])).
Proof.
  unfold addVertexSlot.
  destruct (JS.isEmpty str) eqn:Hstr.
  { intros [= <-]. repeat split. intros arr ->. rewrite andb_false_r.
    now rewrite app_nil_r. }
  destruct (resolveIndex (JS.parseInt str) (objVertexData s !! i)) as [index|] eqn:Hres;
    [|discriminate].
  intros H. apply andThen_inv in H as (s1 & H1 & H2).
  apply pushInlineColor_effect in H2 as (Ht2 & Hg2 & Hp2).
  rewrite andb_true_r.
  destruct (slotAttr i) as [k|] eqn:Hk; destruct (objVertexData s !! i) as [table|] eqn:Htab;
    try (injection H1 as <-).
  - apply pushData_effect in H1 as (Ht1 & Hg1 & arr0 & e & Ha & He & Ha' & Hother).
    split; [now apply sameTables_trans with s1|]. split; [congruence|].
    intros arr Harr. rewrite Hp2.
    destruct i as [|i].
    + injection Hk as <-. simpl. unfold slotEntry. rewrite Htab, Hres, He. simpl.
      congruence.
    + simpl. rewrite app_nil_r. rewrite Hother; [exact Harr|].
      destruct i as [|[|[|i]]]; simpl in Hk; try discriminate;
        injection Hk as <-; discriminate.
  - exfalso. destruct i as [|[|[|[|i]]]]; simpl in Hk, Htab; discriminate.
  - exfalso. destruct i as [|[|[|[|i]]]]; simpl in Hk, Htab; discriminate.
  - split; [exact Ht2|]. split; [exact Hg2|].
    intros arr Harr. rewrite Hp2.
    destruct i as [|i]; [discriminate|]. simpl. now rewrite app_nil_r.
Qed.

End ObjCore.

(** ** Faces *)

Section Faces.
Context {F : JSFloat}.
Implicit Types (s : State) (value : list string).

Lemma Emits_skip : Emits skip (fun _ => []).
Proof.
  intros s s' [= <-]. repeat split. intros arr ->. now rewrite app_nil_r.
Qed.

Lemma Emits_andThen a b oa ob :
  Emits a oa -> Emits b ob -> stable ob ->
  Emits (a >>> b) (fun s => oa s ++ ob s).
Proof.
  intros Ha Hb Hst s s' H. apply andThen_inv in H as (s1 & H1 & H2).
  destruct (Ha _ _ H1) as (Ht1 & Hg1 & Hp1). destruct (Hb _ _ H2) as (Ht2 & Hg2 & Hp2).
  split; [now apply sameTables_trans with s1|]. split; [congruence|].
  intros arr Harr. rewrite (Hp2 _ (Hp1 _ Harr)), (Hst _ _ Ht1). now rewrite app_assoc.
Qed.

Lemma stable_flat_map {A} (o : A -> State -> list num) l :
  (forall x, stable (o x)) -> stable (fun s => flat_map (fun x => o x s) l).
Proof.
  intros Hst s s' Ht. induction l as [|x l IH]; [reflexivity|].
  simpl. now rewrite (Hst x _ _ Ht), IH.
Qed.

Lemma Emits_forEach {A} (f : A -> Action State) (o : A -> State -> list num) l :
  (forall x, Emits (f x) (o x)) -> (forall x, stable (o x)) ->
  Emits (forEach f l) (fun s => flat_map (fun x => o x s) l).
Proof.
  intros Hf Hst. induction l as [|x l IH]; [apply Emits_skip|].
  simpl. apply Emits_andThen; [apply Hf | exact IH | now apply stable_flat_map].
Qed.

Lemma Emits_ext a o o' : (forall s, o s = o' s) -> Emits a o -> Emits a o'.
Proof.
  intros He Ha s s' H. destruct (Ha _ _ H) as (? & ? & Hp).
  repeat split; try assumption. intros arr Harr. rewrite <- He. now apply Hp.
Qed.

(** The sub-indices after the first leave the position array alone. *)
Lemma laterSlots_effect l i :
  Emits (forEachFrom (S i) addVertexSlot l) (fun _ => []).
Proof.
  revert i. induction l as [|x l IH]; intros i; [apply Emits_skip|].
  simpl. apply (Emits_ext _ (fun s => [] ++ [])); [reflexivity|].
  apply Emits_andThen; [| apply IH | now intros ? ? ?].
  intros s s' H. apply addVertexSlot_effect in H as (Ht & Hg & Hp).
  repeat split; try assumption.
Qed.

Lemma stable_positionOf vert : stable (fun s => positionOf s vert).
Proof.
  intros s s' Ht. unfold positionOf. destruct (JS.split "/" vert); [reflexivity|].
  now rewrite (slotEntry_sameTables _ _ _ _ Ht).
Qed.

Lemma addVertex_effect vert : Emits (addVertex vert) (fun s => positionOf s vert).
Proof.
  unfold addVertex, positionOf. destruct (JS.split "/" vert) as [|p rest].
  - apply Emits_skip.
  - simpl. apply (Emits_ext _ (fun s =>
      (if JS.isEmpty p then [] else default [] (slotEntry s 0 p)) ++ [])).
    { intros s. now rewrite app_nil_r. }
    apply Emits_andThen; [| apply laterSlots_effect | now intros ? ? ?].
    intros s s' H. apply addVertexSlot_effect in H as (Ht & Hg & Hp).
    repeat split; try assumption. intros arr Harr. rewrite (Hp _ Harr).
    simpl. now destruct (JS.isEmpty p).
Qed.

Lemma stable_positionAt value k : stable (fun s => positionAt s value k).
Proof.
  intros s s' Ht. unfold positionAt. destruct (value !! k); [|reflexivity].
  simpl. now apply stable_positionOf.
Qed.

Lemma addVertexAt_effect value k :
  Emits (addVertexAt value k) (fun s => positionAt s value k).
Proof.
  unfold addVertexAt, positionAt. destruct (value !! k) as [vert|].
  - apply addVertex_effect.
  - intros s s' [=].
Qed.

Lemma stable_trianglePositions value t : stable (fun s => trianglePositions s value t).
Proof.
  intros s s' Ht. destruct t as [[a b] c]. unfold trianglePositions.
  now rewrite !(stable_positionAt value _ _ _ Ht).
Qed.

Lemma emitTriangle_effect value t :
  Emits (emitTriangle value t) (fun s => trianglePositions s value t).
Proof.
  destruct t as [[a b] c]. unfold emitTriangle, trianglePositions.
  apply Emits_andThen; [apply addVertexAt_effect | | ].
  - apply Emits_andThen; [apply addVertexAt_effect .. | apply stable_positionAt].
  - intros s s' Ht. now rewrite !(stable_positionAt value _ _ _ Ht).
Qed.

(** The loop of the handler [f] runs over the fan. *)
Lemma keyword_f_fan value raw s :
  keyword_f value raw s
  = (setGeometry >>> forEach (emitTriangle value) (fanTriangles (length value))) s.
Proof.
  unfold keyword_f. destruct (setGeometry s) as [s0|e] eqn:H0.
  - rewrite !(andThen_ok _ _ _ _ H0). rewrite forRange_forEach.
    unfold fanTriangles. now rewrite forEach_map.
  - now rewrite !(andThen_throw _ _ _ _ H0).
Qed.

Lemma fanTriangles_length n : length (fanTriangles n) = n - 2.
Proof. unfold fanTriangles. now rewrite length_map, length_seq. Qed.

Lemma fanTriangles_lookup n k :
  k < n - 2 -> fanTriangles n !! k = Some (0, k + 1, k + 2).
Proof.
  intros Hk. unfold fanTriangles. rewrite list_lookup_fmap.
  rewrite lookup_seq_lt by exact Hk. reflexivity.
Qed.

Lemma setGeometry_ok s : exists s0, setGeometry s = Ok s0 /\ sameTables s s0.
Proof.
  unfold setGeometry. destruct (geometry s); eexists; split; reflexivity.
Qed.

(** C2. An [f] line with N >= 3 vertex references emits N - 2
    triangles, triangle k being the references 0, k + 1, k + 2 in
    that order: the line runs the handler [f] on its N references, the
    handler is the fan loop, and when it returns, the
    position array of the current geometry has grown by the positions
    of the triangles of the fan, in order. *)
Theorem face_is_triangle_fan (value : list string) (raw : string) (s : State) :
  3 <= length value ->
  (forall line, lineKeyword line = Some "f" -> lineValue line = value ->
     lineRaw line = raw ->
     objLine line s = keyword_f value raw s) /\
  keyword_f value raw s
  = (setGeometry >>> forEach (emitTriangle value) (fanTriangles (length value))) s /\
  length (fanTriangles (length value)) = length value - 2 /\
  (forall k, k < length value - 2 ->
     fanTriangles (length value) !! k = Some (0, k + 1, k + 2)) /\
  (forall s0 s' arr,
     setGeometry s = Ok s0 -> currentArray Position s0 = Some arr ->
     keyword_f value raw s = Ok s' ->
     currentArray Position s'
     = Some (arr ++ flat_map (trianglePositions s value)
                      (fanTriangles (length value)))).
Proof.
  intros HN. split.
  { intros line Hk <- <-. unfold objLine.
    now rewrite (processLine_own _ _ _ _ keyword_f Hk eq_refl). }
  split; [apply keyword_f_fan|].
  split; [apply fanTriangles_length|]. split; [intros k; apply fanTriangles_lookup|].
  intros s0 s' arr H0 Harr Hrun.
  rewrite keyword_f_fan, (andThen_ok _ _ _ _ H0) in Hrun.
  destruct (setGeometry_ok s) as (s0' & H0' & Ht). rewrite H0 in H0'.
  injection H0' as <-.
  pose proof (Emits_forEach (emitTriangle value) (fun t s => trianglePositions s value t)
                (fanTriangles (length value)) (emitTriangle_effect value)
                (stable_trianglePositions value)) as He.
  destruct (He _ _ Hrun) as (_ & _ & Hp). rewrite (Hp _ Harr). do 2 f_equal.
  apply (stable_flat_map (fun t s => trianglePositions s value t) _
           (stable_trianglePositions value) _ _ Ht).
Qed.

End Faces.

(** ** Sub-indices that designate no table entry *)

Section Dangling.
Context {F : JSFloat}.
Implicit Types (s : State) (value : list string).

Lemma resolveIndex_table objIndex table :
  exists index, resolveIndex objIndex (Some table) = Ok index.
Proof.
  unfold resolveIndex. destruct objIndex as [n|]; [|eauto].
  destruct (0 <=? n)%Z; eauto.
Qed.

Lemma addVertexSlot_dangling i str s :
  danglingSlot s i str -> exists e, addVertexSlot i str s = Throw e.
Proof.
  intros [Hstr Hd]. unfold addVertexSlot. rewrite Hstr.
  destruct Hd as [[Hi Hentry] | (-> & Hlen & Hcol)].
  - unfold slotEntry in Hentry.
    destruct (objVertexData s !! i) as [table|] eqn:Htab.
    2:{ apply lookup_ge_None in Htab. simpl in Htab. lia. }
    destruct (resolveIndex_table (JS.parseInt str) table) as [index Hres].
    rewrite Hres in *.
    destruct (slotAttr i) as [k|] eqn:Hk.
    2:{ apply lookup_ge_None in Hk. simpl in Hk. lia. }
    rewrite Hentry. destruct (pushData_undefined k s) as [e He].
    exists e. now apply andThen_throw.
  - unfold inlineColorEntry in Hcol. simpl.
    destruct (resolveIndex_table (JS.parseInt str) (objPositions s)) as [index Hres].
    rewrite Hres in *.
    destruct (pushData Position (entryAt (objPositions s) index) s) as [s1|e] eqn:H1.
    + rewrite (andThen_ok _ _ _ _ H1).
      apply pushData_effect in H1 as (Ht & _).
      unfold pushInlineColor. rewrite (sameTables_colors _ _ Ht).
      apply Nat.ltb_lt in Hlen. rewrite Hlen, Hcol. simpl.
      apply pushData_undefined.
    + exists e. now apply andThen_throw.
Qed.

Lemma slots_dangling l i j str s0 s :
  l !! j = Some str -> danglingSlot s0 (i + j) str -> sameTables s0 s ->
  exists e, forEachFrom i addVertexSlot l s = Throw e.
Proof.
  revert i j s. induction l as [|x l IH]; intros i j s Hl Hd Ht; [discriminate|].
  simpl. destruct j as [|j].
  - injection Hl as ->. rewrite Nat.add_0_r in Hd.
    destruct (addVertexSlot_dangling i str s) as [e He].
    { now apply danglingSlot_sameTables with s0. }
    exists e. now apply andThen_throw.
  - simpl in Hl. destruct (addVertexSlot i x s) as [s1|e] eqn:H1.
    + rewrite (andThen_ok _ _ _ _ H1). apply (IH (S i) j); [exact Hl | |].
      * now replace (S i + j) with (i + S j) by lia.
      * apply addVertexSlot_effect in H1 as (Ht1 & _).
        now apply sameTables_trans with s.
    + exists e. now apply andThen_throw.
Qed.

Lemma addVertex_dangling vert s0 s :
  danglingVertex s0 vert -> sameTables s0 s -> exists e, addVertex vert s = Throw e.
Proof.
  intros (i & str & Hl & Hd) Ht. unfold addVertex.
  now apply (slots_dangling _ 0 i str s0).
Qed.

(** [addVertex(value[k])] either throws or keeps the tables. *)
Lemma addVertexAt_tables value k s s' :
  addVertexAt value k s = Ok s' -> sameTables s s'.
Proof. intros H. now apply addVertexAt_effect in H as (? & _). Qed.

Lemma emitTriangle_tables value t s s' :
  emitTriangle value t s = Ok s' -> sameTables s s'.
Proof. intros H. now apply emitTriangle_effect in H as (? & _). Qed.

Lemma addVertexAt_dangling value k vert s0 s :
  value !! k = Some vert -> danglingVertex s0 vert -> sameTables s0 s ->
  exists e, addVertexAt value k s = Throw e.
Proof.
  intros Hk Hd Ht. unfold addVertexAt. rewrite Hk. now apply addVertex_dangling with s0.
Qed.

Lemma emitTriangle_dangling value t j vert s0 s :
  mentions t j -> value !! j = Some vert -> danglingVertex s0 vert ->
  sameTables s0 s -> exists e, emitTriangle value t s = Throw e.
Proof.
  destruct t as [[a b] c]. intros Hm Hj Hd Ht. unfold emitTriangle.
  destruct (addVertexAt value a s) as [s1|e] eqn:H1.
  2:{ exists e. now apply andThen_throw. }
  rewrite (andThen_ok _ _ _ _ H1).
  destruct Hm as [-> | Hm].
  { destruct (addVertexAt_dangling value j vert s0 s Hj Hd Ht) as [e He]. congruence. }
  pose proof (sameTables_trans _ _ _ Ht (addVertexAt_tables _ _ _ _ H1)) as Ht1.
  destruct (addVertexAt value b s1) as [s2|e] eqn:H2.
  2:{ exists e. now apply andThen_throw. }
  rewrite (andThen_ok _ _ _ _ H2).
  destruct Hm as [-> | ->].
  { destruct (addVertexAt_dangling value j vert s0 s1 Hj Hd Ht1) as [e He]. congruence. }
  apply (addVertexAt_dangling value j vert s0 s2 Hj Hd).
  exact (sameTables_trans _ _ _ Ht1 (addVertexAt_tables _ _ _ _ H2)).
Qed.

Lemma fan_dangling value l t j vert s0 s :
  In t l -> mentions t j -> value !! j = Some vert -> danglingVertex s0 vert ->
  sameTables s0 s -> exists e, forEach (emitTriangle value) l s = Throw e.
Proof.
  intros Hin Hm Hj Hd. revert s. induction l as [|x l IH]; intros s Ht; [contradiction|].
  simpl. destruct (emitTriangle value x s) as [s1|e] eqn:H1.
  - rewrite (andThen_ok _ _ _ _ H1).
    pose proof (sameTables_trans _ _ _ Ht (emitTriangle_tables _ _ _ _ H1)) as Ht1.
    destruct Hin as [-> | Hin].
    + destruct (emitTriangle_dangling value t j vert s0 s Hm Hj Hd Ht) as [e He].
      congruence.
    + now apply IH.
  - exists e. now apply andThen_throw.
Qed.

(** Every reference of a face with three references or more is in a
    triangle of the fan. *)
Lemma fan_covers n j :
  3 <= n -> j < n -> exists t, In t (fanTriangles n) /\ mentions t j.
Proof.
  intros Hn Hj. unfold fanTriangles.
  destruct j as [|j].
  - exists (0, 0 + 1, 0 + 2). split; [|now left].
    apply in_map_iff. exists 0. split; [reflexivity|]. apply in_seq. lia.
  - destruct (Nat.eq_dec (S j) (n - 1)) as [E|E].
    + exists (0, (n - 3) + 1, (n - 3) + 2). split.
      * apply in_map_iff. exists (n - 3). split; [reflexivity|]. apply in_seq. lia.
      * right. right. lia.
    + exists (0, j + 1, j + 2). split.
      * apply in_map_iff. exists j. split; [reflexivity|]. apply in_seq. lia.
      * right. left. lia.
Qed.

Lemma keyword_f_dangling value raw j vert s :
  3 <= length value -> value !! j = Some vert -> danglingVertex s vert ->
  exists e, keyword_f value raw s = Throw e.
Proof.
  intros Hn Hj Hd. rewrite keyword_f_fan.
  destruct (setGeometry_ok s) as (s0 & H0 & Ht). rewrite (andThen_ok _ _ _ _ H0).
  destruct (fan_covers (length value) j Hn) as (t & Hin & Hm).
  { now apply lookup_lt_Some with vert. }
  now apply (fan_dangling value _ t j vert s).
Qed.

End Dangling.

(** ** What a line can do to the state *)

Section Lines.
Context {F : JSFloat}.
Implicit Types (s : State) (value : list string) (P : State -> Prop).

Lemma objLine_own line kw h :
  lineKeyword line = Some kw -> keywords kw = Some h ->
  objLine line = h (lineValue line) (lineRaw line).
Proof. intros Hk Hh. unfold objLine. now apply processLine_own with kw. Qed.

Lemma objLine_inv line s s' :
  objLine line s = Ok s' ->
  s' = s \/ (exists kw, s' = warn kw s) \/
  exists kw h, lineKeyword line = Some kw /\ keywords kw = Some h /\
    h (lineValue line) (lineRaw line) s = Ok s'.
Proof.
  intros Hrun. unfold objLine in Hrun.
  destruct (lineKeyword line) as [kw|] eqn:Hkw.
  - destruct (keywords kw) as [h|] eqn:Hh.
    + rewrite (processLine_own _ _ _ _ _ Hkw Hh) in Hrun. right. right. eauto.
    + destruct (objectPrototype kw) as [m|] eqn:Hm.
      * rewrite (processLine_inherited _ _ _ _ _ _ Hkw Hh Hm) in Hrun.
        apply callInherited_inv in Hrun. now left.
      * rewrite (processLine_unknown _ _ _ _ _ Hkw Hh Hm) in Hrun.
        injection Hrun as <-. right. left. eauto.
  - rewrite (processLine_blank _ _ _ Hkw) in Hrun. injection Hrun as <-. now left.
Qed.

Lemma Preserves_skip P : Preserves P skip.
Proof. intros s s' HP [= <-]. exact HP. Qed.

Lemma Preserves_andThen P a b : Preserves P a -> Preserves P b -> Preserves P (a >>> b).
Proof.
  intros Ha Hb s s' HP H. apply andThen_inv in H as (s1 & H1 & H2). eauto.
Qed.

Lemma Preserves_forEach {A} P (f : A -> Action State) l :
  (forall x, In x l -> Preserves P (f x)) -> Preserves P (forEach f l).
Proof.
  intros Hf s s' HP H. apply (forEach_invariant P f l) with (s := s); [|exact HP | exact H].
  intros x t t' Hx Ht Hrun. exact (Hf x Hx t t' Ht Hrun).
Qed.

Lemma Preserves_forEachFrom {A} P (f : nat -> A -> Action State) l i :
  (forall j x, Preserves P (f j x)) -> Preserves P (forEachFrom i f l).
Proof.
  intros Hf. revert i. induction l as [|x l IH]; intros i; [apply Preserves_skip|].
  simpl. apply Preserves_andThen; [apply Hf | apply IH].
Qed.

(** A property kept by a warning and by every handler of the table is
    kept by every line. *)
Lemma Preserves_objLine P line :
  (forall kw s, P s -> P (warn kw s)) ->
  (forall kw h, lineKeyword line = Some kw -> keywords kw = Some h ->
     Preserves P (h (lineValue line) (lineRaw line))) ->
  Preserves P (objLine line).
Proof.
  intros Hw Hh s s' HP H.
  apply objLine_inv in H as [-> | [[kw ->] | (kw & h & Hk & Hkw & Hrun)]].
  - exact HP.
  - now apply Hw.
  - exact (Hh kw h Hk Hkw s s' HP Hrun).
Qed.

Lemma newGeometry_inv s s' :
  newGeometry s = Ok s' ->
  s' = s \/
  (s' = set_geometry None s /\
   exists x xs, currentArray Position s = Some (x :: xs)).
Proof.
  unfold newGeometry, currentArray, currentGeometry.
  destruct (geometry s) as [r|]; simpl; [|intros [= <-]; now left].
  destruct (geometries s !! r) as [g|]; simpl; [|discriminate].
  destruct (position (g_data g)) as [[|x xs]|]; [| |discriminate]; intros [= <-].
  - now left.
  - right. eauto.
Qed.

Lemma sameTables_tableOf s s' k : sameTables s s' -> tableOf k s' = tableOf k s.
Proof.
  unfold sameTables, objVertexData. intros [= H1 H2 H3 H4]. now destruct k.
Qed.

Lemma tablesGrow_same s s' : sameTables s s' -> tablesGrow s s'.
Proof.
  intros H k. exists []. now rewrite app_nil_r, (sameTables_tableOf _ _ _ H).
Qed.

Lemma tablesGrow_trans s1 s2 s3 : tablesGrow s1 s2 -> tablesGrow s2 s3 -> tablesGrow s1 s3.
Proof.
  intros H1 H2 k. destruct (H1 k) as [m1 E1]. destruct (H2 k) as [m2 E2].
  exists (m1 ++ m2). now rewrite E2, E1, app_assoc.
Qed.

Lemma keyword_f_tables value raw s s' :
  keyword_f value raw s = Ok s' -> sameTables s s'.
Proof.
  rewrite keyword_f_fan. intros H. apply andThen_inv in H as (s0 & H0 & H1).
  destruct (setGeometry_ok s) as (s0' & H0' & Ht). rewrite H0 in H0'. injection H0' as <-.
  apply sameTables_trans with s0; [exact Ht|].
  now apply (Emits_forEach _ _ _ (emitTriangle_effect value)
               (stable_trianglePositions value)) in H1 as (? & _).
Qed.

(** The three handlers that set the object, the groups or the
    material: the list [geometries] is left as it is, and the
    reference [geometry] is kept or dropped by the gate. *)
Lemma stateHandler_inv kw h value raw s s' :
  keywords kw = Some h ->
  String.eqb kw "usemtl" || String.eqb kw "g" || String.eqb kw "o" = true ->
  h value raw s = Ok s' ->
  sameTables s s' /\ geometries s' = geometries s /\
  materialLibs s' = materialLibs s /\
  (geometry s' = geometry s \/
   (geometry s' = None /\ exists x xs, currentArray Position s = Some (x :: xs))).
Proof.
  unfold keywords. intros Hh Hkw Hrun.
  case_keyword kw; try discriminate; injection Hh as <-;
    unfold keyword_usemtl, keyword_g, keyword_o in Hrun;
    apply andThen_inv in Hrun as (s1 & [= <-] & H2);
    apply newGeometry_inv in H2 as [-> | (-> & x & xs & Hp)];
    repeat split; (now left) || (right; split; [reflexivity | now exists x, xs]).
Qed.

Lemma handler_tablesGrow kw h value raw s s' :
  keywords kw = Some h -> h value raw s = Ok s' -> tablesGrow s s'.
Proof.
  intros Hh Hrun.
  destruct (String.eqb kw "usemtl" || String.eqb kw "g" || String.eqb kw "o") eqn:Hst.
  { apply tablesGrow_same. now apply (stateHandler_inv kw h value raw). }
  unfold keywords in Hh. case_keyword kw; try discriminate; injection Hh as <-.
  - unfold keyword_v in Hrun. destruct (Nat.ltb 3 (length value));
      injection Hrun as <-; intros [| | |]; simpl; eauto using app_nil_r;
      eexists []; now rewrite app_nil_r.
  - injection Hrun as <-. intros [| | |]; simpl; eauto; eexists []; now rewrite app_nil_r.
  - injection Hrun as <-. intros [| | |]; simpl; eauto; eexists []; now rewrite app_nil_r.
  - apply tablesGrow_same. now apply keyword_f_tables with value raw.
  - injection Hrun as <-. now apply tablesGrow_same.
  - injection Hrun as <-. now apply tablesGrow_same.
Qed.

Lemma objLine_tablesGrow line s s' : objLine line s = Ok s' -> tablesGrow s s'.
Proof.
  intros H. apply objLine_inv in H as [-> | [[kw ->] | (kw & h & Hk & Hkw & Hrun)]].
  - now apply tablesGrow_same.
  - now apply tablesGrow_same.
  - now apply handler_tablesGrow with kw h (lineValue line) (lineRaw line).
Qed.

(** The tables are append-only over any run of lines. *)
Lemma lines_tablesGrow lines s s' :
  forEach objLine lines s = Ok s' -> tablesGrow s s'.
Proof.
  revert s. induction lines as [|l lines IH]; intros s H.
  - injection H as <-. now apply tablesGrow_same.
  - simpl in H. apply andThen_inv in H as (s1 & H1 & H2).
    apply tablesGrow_trans with s1; [now apply objLine_tablesGrow with l | now apply IH].
Qed.

Lemma SentinelHeads_initial : SentinelHeads initialState.
Proof. intros [| | |]; eexists; reflexivity. Qed.

Lemma SentinelHeads_grow s s' : tablesGrow s s' -> SentinelHeads s -> SentinelHeads s'.
Proof.
  intros Hg Hs k. destruct (Hs k) as [rest E]. destruct (Hg k) as [more E'].
  exists (rest ++ more). now rewrite E', E.
Qed.

End Lines.

(** ** The first call: no key of a geometry is missing *)

Section Present.
Context {F : JSFloat}.
Implicit Types (s : State) (value : list string).

Lemma ArraysPresent_initial : ArraysPresent initialState.
Proof. split; [constructor | discriminate]. Qed.

Lemma allKeys_setAttr k a g :
  allKeys g -> allKeys (set_data (setAttr k (Some a) (g_data g)) g).
Proof.
  intros H k'. simpl. destruct (decide (k' = k)) as [->|Hne].
  - rewrite getAttr_setAttr_eq. eauto.
  - rewrite getAttr_setAttr_ne by exact Hne. apply H.
Qed.

Lemma ArraysPresent_current s r :
  ArraysPresent s -> geometry s = Some r ->
  exists g, geometries s !! r = Some g /\ allKeys g.
Proof.
  intros [Hall Hr] Hg. destruct (lookup_lt_is_Some_2 (geometries s) r (Hr r Hg)) as [g Hl].
  exists g. split; [exact Hl|]. rewrite Forall_forall in Hall. apply Hall.
  now apply list_elem_of_lookup_2 with r.
Qed.

Lemma pushData_present k entry : Preserves ArraysPresent (pushData k entry).
Proof.
  intros s s' HP H. pose proof HP as [Hall Hr].
  apply pushData_inv in H as (r & g & arr & e & Hg & Hl & Ha & -> & ->).
  destruct (ArraysPresent_current s r HP Hg) as (g' & Hl' & Hk).
  rewrite Hl in Hl'. injection Hl' as <-.
  split; simpl.
  - apply Forall_insert; [exact Hall | now apply allKeys_setAttr].
  - intros r' Hr'. rewrite length_insert. now apply Hr.
Qed.

Lemma addVertexSlot_present i str : Preserves ArraysPresent (addVertexSlot i str).
Proof.
  intros s s' HP. unfold addVertexSlot. destruct (JS.isEmpty str); [now intros [= <-]|].
  destruct (resolveIndex _ _) as [index|]; [|discriminate].
  intros H. eapply Preserves_andThen; [| | exact HP | exact H].
  - destruct (slotAttr i), (objVertexData s !! i);
      (apply pushData_present || apply Preserves_skip).
  - intros t t' Ht. unfold pushInlineColor.
    destruct (Nat.eqb i 0 && Nat.ltb 1 (length (objColors t)));
      [now apply pushData_present | now intros [= <-]].
Qed.

Lemma addVertexAt_present value k : Preserves ArraysPresent (addVertexAt value k).
Proof.
  unfold addVertexAt. destruct (value !! k) as [vert|]; [|intros s s' _ [=]].
  unfold addVertex. apply Preserves_forEachFrom. intros j x. apply addVertexSlot_present.
Qed.

Lemma setGeometry_present : Preserves ArraysPresent setGeometry.
Proof.
  intros s s' HP. pose proof HP as [Hall Hr]. unfold setGeometry.
  destruct (geometry s) as [r|] eqn:Hg; intros [= <-]; [exact HP|].
  split; simpl.
  - apply Forall_app. split; [exact Hall|]. constructor; [|constructor].
    intros [| | |]; simpl; eauto.
  - intros r [= <-]. rewrite length_app. simpl. lia.
Qed.

(** After [setGeometry()] the current geometry exists, with its four
    arrays. *)
Lemma setGeometry_current s :
  ArraysPresent s ->
  exists s0 g, setGeometry s = Ok s0 /\ sameTables s s0 /\ ArraysPresent s0 /\
    currentGeometry s0 = Some g /\ allKeys g.
Proof.
  intros HP. destruct (setGeometry_ok s) as (s0 & H0 & Ht).
  pose proof (setGeometry_present s s0 HP H0) as HP0.
  assert (Hr : exists r, geometry s0 = Some r).
  { unfold setGeometry in H0. destruct (geometry s) eqn:E; injection H0 as <-; simpl; eauto. }
  destruct Hr as [r Hr]. destruct (ArraysPresent_current s0 r HP0 Hr) as (g & Hl & Hk).
  exists s0, g. split; [exact H0|]. split; [exact Ht|]. split; [exact HP0|].
  split; [|exact Hk]. unfold currentGeometry. rewrite Hr. exact Hl.
Qed.

Lemma keyword_f_present value raw : Preserves ArraysPresent (keyword_f value raw).
Proof.
  intros s s' HP. rewrite keyword_f_fan. revert s s' HP.
  apply Preserves_andThen; [apply setGeometry_present|].
  apply Preserves_forEach. intros [[a b] c] _. unfold emitTriangle.
  repeat apply Preserves_andThen; apply addVertexAt_present.
Qed.

Lemma handler_present kw h value raw :
  keywords kw = Some h -> Preserves ArraysPresent (h value raw).
Proof.
  intros Hh s s' HP Hrun.
  destruct (String.eqb kw "usemtl" || String.eqb kw "g" || String.eqb kw "o") eqn:Hst.
  { destruct (stateHandler_inv kw h value raw s s' Hh Hst Hrun) as (_ & Hgs & _ & Hg).
    destruct HP as [Hall Hr]. split; rewrite Hgs; [exact Hall|].
    destruct Hg as [-> | [-> _]]; [exact Hr | discriminate]. }
  unfold keywords in Hh. case_keyword kw; try discriminate; injection Hh as <-.
  - unfold keyword_v in Hrun. destruct (Nat.ltb 3 (length value)); now injection Hrun as <-.
  - now injection Hrun as <-.
  - now injection Hrun as <-.
  - now apply (keyword_f_present value raw s).
  - now injection Hrun as <-.
  - now injection Hrun as <-.
Qed.

Lemma objLine_present line : Preserves ArraysPresent (objLine line).
Proof.
  apply Preserves_objLine; [now intros kw s HP|].
  intros kw h _ Hh. now apply handler_present with kw.
Qed.

Lemma lines_present lines : Preserves ArraysPresent (forEach objLine lines).
Proof. apply Preserves_forEach. intros l _. apply objLine_present. Qed.

(** During the first call no key is missing. *)
Lemma first_call_present lines s :
  forEach objLine lines initialState = Ok s -> ArraysPresent s.
Proof. apply lines_present. apply ArraysPresent_initial. Qed.

(** A sub-index that designates an entry appends it to the array of
    its slot. *)
Lemma addVertexSlot_emits i k str s g arr e :
  slotAttr i = Some k ->
  currentGeometry s = Some g -> allKeys g ->
  getAttr k (g_data g) = Some arr ->
  JS.isEmpty str = false ->
  slotEntry s i str = Some e ->
  (i = 0 -> 1 < length (objColors s) -> is_Some (inlineColorEntry s str)) ->
  exists s', addVertexSlot i str s = Ok s' /\ currentArray k s' = Some (arr ++ e).
Proof.
  intros Hk Hg Hkeys Harr Hstr He Hcol.
  unfold currentGeometry in Hg. destruct (geometry s) as [r|] eqn:Hr; [|discriminate].
  simpl in Hg.
  unfold addVertexSlot. rewrite Hstr. unfold slotEntry in He.
  destruct (objVertexData s !! i) as [table|] eqn:Htab; [|discriminate].
  destruct (resolveIndex (JS.parseInt str) (Some table)) as [index|] eqn:Hres;
    [|discriminate].
  rewrite Hk, He.
  rewrite (andThen_ok _ _ _ _ (pushData_ok k r g arr e s Hr Hg Harr)).
  pose proof (currentArray_appended k r g k arr e s Hr Hg) as Hcur.
  rewrite decide_True in Hcur by reflexivity.
  unfold pushInlineColor.
  destruct (Nat.eqb i 0 && Nat.ltb 1 (length (objColors (appended r g k arr e s)))) eqn:Hc.
  - apply andb_prop in Hc as [Hi Hlen]. apply Nat.eqb_eq in Hi. subst i.
    apply Nat.ltb_lt in Hlen. simpl in Hlen.
    injection Hk as <-. injection Htab as <-.
    destruct (Hcol eq_refl Hlen) as [c Hcolor].
    unfold inlineColorEntry in Hcolor. rewrite Hres in Hcolor.
    change (objColors (appended r g Position arr e s)) with (objColors s).
    rewrite Hcolor.
    set (g1 := set_data (setAttr Position (Some (arr ++ e)) (g_data g)) g).
    destruct (Hkeys Color) as [carr Hcarr].
    assert (Hg1 : geometries (appended r g Position arr e s) !! r = Some g1).
    { simpl. apply list_lookup_insert_eq. now apply lookup_lt_Some with g. }
    assert (Hc1 : getAttr Color (g_data g1) = Some carr) by exact Hcarr.
    eexists. split;
      [exact (pushData_ok Color r g1 carr c (appended r g Position arr e s) Hr Hg1 Hc1)|].
    rewrite (currentArray_appended Position r g1 Color carr c
               (appended r g Position arr e s) Hr Hg1).
    rewrite decide_False by discriminate. exact Hcur.
  - eexists. split; [reflexivity | exact Hcur].
Qed.

End Present.

(** ** Index resolution *)

Section IndexResolution.
Context {F : JSFloat}.
Implicit Types (s : State) (value : list string).

Lemma parseInt_nonempty str n : JS.parseInt str = Some n -> JS.isEmpty str = false.
Proof. destruct str; [discriminate | reflexivity]. Qed.

Lemma slotEntry_first s i table sentinel first rest str :
  objVertexData s !! i = Some table -> table = sentinel :: first :: rest ->
  JS.parseInt str = Some 1%Z -> slotEntry s i str = Some first.
Proof. intros Ht -> Hp. unfold slotEntry. now rewrite Ht, Hp. Qed.

Lemma entryAt_last (table : list (list num)) front last :
  table = front ++ [last] ->
  entryAt table (Some (-1 + Z.of_nat (length table))%Z) = Some last.
Proof.
  intros ->. unfold entryAt. rewrite length_app. simpl.
  destruct (Z.leb_spec 0 (-1 + Z.of_nat (length front + 1))) as [_|Hlt]; [|lia].
  replace (Z.to_nat (-1 + Z.of_nat (length front + 1))) with (length front) by lia.
  now rewrite list_lookup_middle.
Qed.

Lemma slotEntry_last s i table front last str :
  objVertexData s !! i = Some table -> table = front ++ [last] ->
  JS.parseInt str = Some (-1)%Z -> slotEntry s i str = Some last.
Proof.
  intros Ht E Hp. unfold slotEntry. rewrite Ht, Hp. simpl.
  now apply entryAt_last with front.
Qed.

Lemma slotEntry_zero s i sentinel rest str :
  objVertexData s !! i = Some (sentinel :: rest) ->
  JS.parseInt str = Some 0%Z -> slotEntry s i str = Some sentinel.
Proof. intros Ht Hp. unfold slotEntry. now rewrite Ht, Hp. Qed.

(** The color entry that goes with a position index exists when the
    two tables have the same length. *)
Lemma inlineColor_aligned s str e :
  length (objColors s) = length (objPositions s) ->
  slotEntry s 0 str = Some e -> is_Some (inlineColorEntry s str).
Proof.
  intros Hlen. unfold slotEntry, inlineColorEntry. simpl.
  destruct (resolveIndex (JS.parseInt str) (Some (objPositions s))) as [[z|]|];
    try discriminate.
  unfold entryAt. destruct (0 <=? z)%Z; [|discriminate].
  intros H. apply lookup_lt_Some in H. apply lookup_lt_is_Some_2. lia.
Qed.

(** The scenario of the design document: a vertex, a face that refers
    to it as -1, then another vertex.  The face holds the first
    vertex three times. *)
Lemma negative_index_at_time_of_use :
  exists r s',
    ParseObjFile (unlines ["v 1 2 3"; "f -1 -1 -1"; "v 4 5 6"]) initialState
    = Ok (r, s') /\
    (position ∘ g_data) <$> r_geometries r
    = [Some (flat_map (fun _ => map parseFloat ["1"; "2"; "3"]) [0; 1; 2])].
Proof. eexists _, _. split; vm_compute; reflexivity. Qed.

(** C1. When a face sub-index is processed in state [s], the
    sub-index 1 designates the first declared element of its table
    (the one after the element the table is created with) and the
    sub-index -1 designates the element most recently appended to the
    table of [s]; the designated element is what the line appends to
    the array of the slot; and the tables of every later state are
    those of [s] with entries appended, so that -1 is resolved against
    the table at the time of use and not at the end of the text: a
    face that refers to -1 between two [v] lines holds the first
    vertex. *)
Theorem index_resolution
    (s : State) (i : nat) (table : list (list num)) (str : string) :
  objVertexData s !! i = Some table ->
  (forall sentinel first rest,
     JS.parseInt str = Some 1%Z -> table = sentinel :: first :: rest ->
     slotEntry s i str = Some first) /\
  (forall front last,
     JS.parseInt str = Some (-1)%Z -> table = front ++ [last] ->
     slotEntry s i str = Some last) /\
  (forall k g arr e,
     slotAttr i = Some k ->
     currentGeometry s = Some g -> allKeys g -> getAttr k (g_data g) = Some arr ->
     JS.isEmpty str = false -> slotEntry s i str = Some e ->
     (length (objColors s) <= 1 \/ length (objColors s) = length (objPositions s)) ->
     exists s', addVertexSlot i str s = Ok s' /\
       currentArray k s' = Some (arr ++ e)) /\
  (forall lines s2, forEach objLine lines s = Ok s2 -> tablesGrow s s2) /\
  (exists r s',
     ParseObjFile (unlines ["v 1 2 3"; "f -1 -1 -1"; "v 4 5 6"]) initialState
     = Ok (r, s') /\
     (position ∘ g_data) <$> r_geometries r
     = [Some (flat_map (fun _ => map parseFloat ["1"; "2"; "3"]) [0; 1; 2])]).
Proof.
  intros Htab. split; [|split; [|split; [|split]]]; [| | | |apply negative_index_at_time_of_use].
  - intros sentinel first rest Hp E.
    now apply slotEntry_first with table sentinel rest.
  - intros front last Hp E. now apply slotEntry_last with table front.
  - intros k g arr e Hk Hg Hkeys Harr Hstr He Hcol.
    apply (addVertexSlot_emits i k str s g arr e Hk Hg Hkeys Harr Hstr He).
    intros -> Hlen. destruct Hcol as [Hle | Heq]; [lia|].
    now apply inlineColor_aligned with e.
  - intros lines s2. apply lines_tablesGrow.
Qed.

End IndexResolution.

Section IndexResolutionAtDecimal.
Local Existing Instance decimalFloat.

Lemma index_resolution_witness :
  let s := set_objPositions
             [[zero; zero; zero]; map parseFloat ["1"; "2"; "3"];
              map parseFloat ["4"; "5"; "6"]]
             initialState in
  let table := objPositions s in
  objVertexData s !! 0 = Some table /\
  ((forall sentinel first rest,
      JS.parseInt "-1" = Some 1%Z -> table = sentinel :: first :: rest ->
      slotEntry s 0 "-1" = Some first) /\
   (forall front last,
      JS.parseInt "-1" = Some (-1)%Z -> table = front ++ [last] ->
      slotEntry s 0 "-1" = Some last) /\
   (forall k g arr e,
      slotAttr 0 = Some k ->
      currentGeometry s = Some g -> allKeys g -> getAttr k (g_data g) = Some arr ->
      JS.isEmpty "-1" = false -> slotEntry s 0 "-1" = Some e ->
      (length (objColors s) <= 1 \/ length (objColors s) = length (objPositions s)) ->
      exists s', addVertexSlot 0 "-1" s = Ok s' /\
        currentArray k s' = Some (arr ++ e)) /\
   (forall lines s2, forEach objLine lines s = Ok s2 -> tablesGrow s s2) /\
   (exists r s',
      ParseObjFile (unlines ["v 1 2 3"; "f -1 -1 -1"; "v 4 5 6"]) initialState
      = Ok (r, s') /\
      (position ∘ g_data) <$> r_geometries r
      = [Some (flat_map (fun _ => map parseFloat ["1"; "2"; "3"]) [0; 1; 2])])).
Proof.
  intros s table.
  assert (H : objVertexData s !! 0 = Some table) by reflexivity.
  split; [exact H|].
  exact (index_resolution s 0 table "-1" H).
Defined.

(** The sub-indices 1 and -1 on a table of two declared elements. *)
Example first_and_last_entries :
  let s := set_objPositions
             [[zero; zero; zero]; map parseFloat ["1"; "2"; "3"];
              map parseFloat ["4"; "5"; "6"]]
             initialState in
  slotEntry s 0 "1" = Some (map parseFloat ["1"; "2"; "3"]) /\
  slotEntry s 0 "-1" = Some (map parseFloat ["4"; "5"; "6"]) /\
  slotEntry s 0 "-2" = Some (map parseFloat ["1"; "2"; "3"]).
Proof. repeat split. Qed.

End IndexResolutionAtDecimal.

(** ** Faces that refer outside the tables *)

Section OutsideTables.
Context {F : JSFloat}.
Implicit Types (s : State) (value : list string).

(** A positive sub-index beyond the declared entries, or a negative
    one whose magnitude exceeds the length of the table, designates no
    entry. *)
Lemma slotEntry_outside s i table str n :
  objVertexData s !! i = Some table -> JS.parseInt str = Some n ->
  (Z.of_nat (length table) <= n \/ n < - Z.of_nat (length table))%Z ->
  slotEntry s i str = None.
Proof.
  intros Ht Hp Hn. unfold slotEntry. rewrite Ht, Hp. unfold resolveIndex, entryAt.
  destruct (Z.leb_spec 0 n) as [Hpos|Hneg].
  - rewrite (proj2 (Z.leb_le 0 n) Hpos). apply lookup_ge_None. lia.
  - destruct (Z.leb_spec 0 (n + Z.of_nat (length table))) as [H|_]; [lia | reflexivity].
Qed.

Lemma objLine_face_dangling line j vert s :
  lineKeyword line = Some "f" -> 3 <= length (lineValue line) ->
  lineValue line !! j = Some vert -> danglingVertex s vert ->
  exists e, objLine line s = Throw e.
Proof.
  intros Hk Hn Hj Hd. rewrite (objLine_own line "f" keyword_f Hk eq_refl).
  now apply keyword_f_dangling with j vert.
Qed.

(** A face line with fewer than three references only makes sure that
    a geometry is current. *)
Lemma short_face_runs value raw s :
  length value < 3 -> keyword_f value raw s = setGeometry s.
Proof.
  intros Hn. rewrite keyword_f_fan. unfold fanTriangles.
  replace (length value - 2) with 0 by lia. simpl.
  unfold andThen, skip. now destruct (setGeometry s).
Qed.

(** C10 (amended). A face line with at least three vertex references
    makes the parse throw when one of its sub-indices designates no
    entry of its table (a positive index beyond the declared entries,
    or a negative one whose magnitude exceeds the length of the
    table), and when the color table holds more than its first element
    but has no entry at the index of a position; the sub-index 0 does
    not fail, it appends the element the table was created with.  A
    face line with fewer than three references dereferences nothing
    and returns. *)
Theorem dangling_face_index_throws
    (s : State) (value : list string) (raw : string) (j i : nat)
    (vert str : string) :
  value !! j = Some vert ->
  JS.split "/" vert !! i = Some str ->
  JS.isEmpty str = false ->
  (3 <= length value -> i < 4 -> slotEntry s i str = None ->
     exists e, keyword_f value raw s = Throw e) /\
  (3 <= length value -> i = 0 -> 1 < length (objColors s) ->
     inlineColorEntry s str = None ->
     exists e, keyword_f value raw s = Throw e) /\
  (forall table n,
     objVertexData s !! i = Some table -> JS.parseInt str = Some n ->
     (Z.of_nat (length table) <= n \/ n < - Z.of_nat (length table))%Z ->
     slotEntry s i str = None) /\
  (forall text s0 pre line post,
     JS.split newline text = pre ++ line :: post ->
     forEach objLine pre s0 = Ok s ->
     lineKeyword line = Some "f" -> lineValue line = value ->
     3 <= length value -> danglingSlot s i str ->
     exists e, ParseObjFile text s0 = Throw e) /\
  (forall k sentinel rest g arr,
     slotAttr i = Some k -> objVertexData s !! i = Some (sentinel :: rest) ->
     JS.parseInt str = Some 0%Z ->
     currentGeometry s = Some g -> allKeys g -> getAttr k (g_data g) = Some arr ->
     exists s', addVertexSlot i str s = Ok s' /\
       currentArray k s' = Some (arr ++ sentinel)) /\
  (length value < 3 ->
     exists s', keyword_f value raw s = Ok s' /\ setGeometry s = Ok s').
Proof.
  intros Hj Hi Hstr.
  assert (Hthrow : 3 <= length value -> danglingSlot s i str ->
            exists e, keyword_f value raw s = Throw e).
  { intros Hn Hd. apply keyword_f_dangling with j vert; [exact Hn | exact Hj |].
    now exists i, str. }
  split; [|split; [|split; [|split; [|split]]]].
  - intros Hn Hlt He. apply (Hthrow Hn). split; [exact Hstr | now left].
  - intros Hn -> Hlen Hc. apply (Hthrow Hn). split; [exact Hstr | now right].
  - intros table n. apply slotEntry_outside.
  - intros text s0 pre line post Hsplit Hpre Hk Hv Hn Hd.
    unfold ParseObjFile. rewrite Hsplit.
    destruct (objLine_face_dangling line j vert s Hk) as [e He].
    { now rewrite Hv. } { now rewrite Hv. } { now exists i, str. }
    exists e. now rewrite (forEach_throws_at objLine pre line post s0 s e Hpre He).
  - intros k sentinel rest g arr Hk Ht Hp Hg Hkeys Harr.
    apply (addVertexSlot_emits i k str s g arr sentinel Hk Hg Hkeys Harr Hstr).
    + now apply slotEntry_zero with rest.
    + intros -> Hlen. unfold inlineColorEntry. injection Ht as Ht. rewrite Ht, Hp. simpl.
      apply lookup_lt_is_Some_2. lia.
  - intros Hn. rewrite (short_face_runs value raw s Hn).
    destruct (setGeometry_ok s) as (s0 & H0 & _). now exists s0.
Qed.

(** In the first call the element a table is created with is the
    tuple of zeros. *)
Lemma first_call_sentinels lines s :
  forEach objLine lines initialState = Ok s -> SentinelHeads s.
Proof.
  intros H. apply SentinelHeads_grow with initialState.
  - now apply lines_tablesGrow with lines.
  - apply SentinelHeads_initial.
Qed.

End OutsideTables.

Section OutsideTablesAtDecimal.
Local Existing Instance decimalFloat.

Lemma dangling_face_index_throws_witness :
  let s := initialState in
  let value := ["1"; "2/7"; "3"] in
  let raw := "1 2/7 3" in
  (value !! 1 = Some "2/7" /\
   JS.split "/" "2/7" !! 1 = Some "7" /\ JS.isEmpty "7" = false) /\
  ((3 <= length value -> 1 < 4 -> slotEntry s 1 "7" = None ->
      exists e, keyword_f value raw s = Throw e) /\
   (3 <= length value -> 1 = 0 -> 1 < length (objColors s) ->
      inlineColorEntry s "7" = None ->
      exists e, keyword_f value raw s = Throw e) /\
   (forall table n,
      objVertexData s !! 1 = Some table -> JS.parseInt "7" = Some n ->
      (Z.of_nat (length table) <= n \/ n < - Z.of_nat (length table))%Z ->
      slotEntry s 1 "7" = None) /\
   (forall text s0 pre line post,
      JS.split newline text = pre ++ line :: post ->
      forEach objLine pre s0 = Ok s ->
      lineKeyword line = Some "f" -> lineValue line = value ->
      3 <= length value -> danglingSlot s 1 "7" ->
      exists e, ParseObjFile text s0 = Throw e) /\
   (forall k sentinel rest g arr,
      slotAttr 1 = Some k -> objVertexData s !! 1 = Some (sentinel :: rest) ->
      JS.parseInt "7" = Some 0%Z ->
      currentGeometry s = Some g -> allKeys g -> getAttr k (g_data g) = Some arr ->
      exists s', addVertexSlot 1 "7" s = Ok s' /\
        currentArray k s' = Some (arr ++ sentinel)) /\
   (length value < 3 ->
      exists s', keyword_f value raw s = Ok s' /\ setGeometry s = Ok s')).
Proof.
  intros s value raw.
  assert (H2 : value !! 1 = Some "2/7") by reflexivity.
  assert (H3 : JS.split "/" "2/7" !! 1 = Some "7") by reflexivity.
  assert (H4 : JS.isEmpty "7" = false) by reflexivity.
  split; [repeat split; assumption|].
  exact (dangling_face_index_throws s value raw 1 1 "2/7" "7" H2 H3 H4).
Defined.

(** The face [f 1 2/7 3] on the tables of the first call: the texcoord
    sub-index 7 designates nothing and the parse throws. *)
Example dangling_texcoord_throws :
  thrown (ParseObjFile (unlines ["v 0 0 0"; "v 1 0 0"; "v 0 1 0"; "f 1 2/7 3"])
            initialState)
  = Some NotIterable.
Proof. vm_compute. reflexivity. Qed.

(** C10 as stated fails: the line [f 5 6] holds sub-indices beyond the
    position table, which has one element, and the parse returns. *)
Lemma short_face_does_not_throw :
  slotEntry initialState 0 "5" = None /\
  slotEntry initialState 0 "6" = None /\
  lineKeyword "f 5 6" = Some "f" /\ lineValue "f 5 6" = ["5"; "6"] /\
  isOk (ParseObjFile "f 5 6" initialState) = true.
Proof. repeat split; vm_compute; reflexivity. Qed.

End OutsideTablesAtDecimal.

(** ** State-setting lines *)

Section StateLines.
Context {F : JSFloat}.
Implicit Types (s : State).

Lemma newGeometry_runs s : ArraysPresent s -> exists s', newGeometry s = Ok s'.
Proof.
  intros HP. unfold newGeometry. destruct (geometry s) as [r|] eqn:Hr; [|eauto].
  destruct (ArraysPresent_current s r HP Hr) as (g & -> & Hk).
  destruct (Hk Position) as [arr Harr]. simpl in Harr. rewrite Harr.
  destruct arr; eauto.
Qed.

Lemma isStateLine_inv line :
  isStateLine line = true ->
  exists kw h, lineKeyword line = Some kw /\ keywords kw = Some h /\
    String.eqb kw "usemtl" || String.eqb kw "g" || String.eqb kw "o" = true /\
    exists set : State -> State,
      (forall s, ArraysPresent s -> ArraysPresent (set s)) /\
      h (lineValue line) (lineRaw line) = (fun s => Ok (set s)) >>> newGeometry.
Proof.
  unfold isStateLine. destruct (lineKeyword line) as [kw|]; [|discriminate].
  intros H. exists kw.
  assert (Hkw : kw = "usemtl" \/ kw = "g" \/ kw = "o").
  { destruct (String.eqb_spec kw "usemtl"); [now left|].
    destruct (String.eqb_spec kw "g"); [now right; left|].
    destruct (String.eqb_spec kw "o"); [now right; right | discriminate]. }
  destruct Hkw as [E | [E | E]]; subst kw;
    eexists; (split; [reflexivity|]); (split; [reflexivity|]); (split; [reflexivity|]);
    eexists; (split; [|reflexivity]); intros s HP; exact HP.
Qed.

Lemma stateLine_runs line s :
  isStateLine line = true -> ArraysPresent s ->
  exists s', objLine line s = Ok s' /\ ArraysPresent s' /\
    geometries s' = geometries s /\
    (geometry s' = geometry s \/
     (geometry s' = None /\ exists x xs, currentArray Position s = Some (x :: xs))).
Proof.
  intros Hl HP.
  destruct (isStateLine_inv line Hl) as (kw & h & Hk & Hh & Hst & set & Hset & Heq).
  rewrite (objLine_own line kw h Hk Hh).
  destruct (newGeometry_runs (set s) (Hset s HP)) as [s' Hs'].
  assert (Hrun : h (lineValue line) (lineRaw line) s = Ok s').
  { rewrite Heq. unfold andThen. exact Hs'. }
  exists s'. split; [exact Hrun|].
  split; [exact (handler_present kw h _ _ Hh s s' HP Hrun)|].
  destruct (stateHandler_inv kw h _ _ s s' Hh Hst Hrun) as (_ & Hg & _ & Hd).
  split; assumption.
Qed.

Lemma currentArray_same k s s' :
  geometries s' = geometries s -> geometry s' = geometry s ->
  currentArray k s' = currentArray k s.
Proof. intros H1 H2. unfold currentArray, currentGeometry. now rewrite H1, H2. Qed.

Lemma currentArray_closed k s : geometry s = None -> currentArray k s = None.
Proof. intros H. unfold currentArray, currentGeometry. now rewrite H. Qed.

Lemma stateLines_run lines s :
  Forall (fun l => isStateLine l = true) lines -> ArraysPresent s ->
  exists s', forEach objLine lines s = Ok s' /\
    geometries s' = geometries s /\
    (geometry s' = geometry s \/
     (geometry s' = None /\ exists x xs, currentArray Position s = Some (x :: xs))).
Proof.
  intros Hall. revert s. induction Hall as [|l lines Hl Hall IH]; intros s HP.
  - exists s. repeat split. now left.
  - destruct (stateLine_runs l s Hl HP) as (s1 & H1 & HP1 & Hg1 & Hd1).
    destruct (IH s1 HP1) as (s' & H' & Hg' & Hd').
    exists s'. simpl. rewrite (andThen_ok _ _ _ _ H1).
    split; [exact H'|]. split; [congruence|].
    destruct Hd1 as [Hsame | [Hnone Hne]].
    + destruct Hd' as [Hsame' | [Hnone' (x & xs & Hne')]]; [left; congruence|].
      right. split; [exact Hnone'|]. exists x, xs.
      now rewrite <- (currentArray_same Position s s1 Hg1 Hsame).
    + right. split; [|exact Hne].
      destruct Hd' as [Hsame' | [Hnone' _]]; congruence.
Qed.

Lemma scenario_object_group :
  exists g s',
    ParseObjFile
      (unlines ["v 0 0 0"; "v 1 0 0"; "v 0 1 0"; "o A"; "g g1"; "f 1 2 3"])
      initialState
    = Ok (mkResult [g] [], s') /\
    g_object g = Some "A" /\ g_groups g = ["g1"].
Proof. eexists _, _. split; [vm_compute; reflexivity|]. split; reflexivity. Qed.

(** C3. A run of [usemtl], [g] and [o] lines never adds a geometry:
    the list of geometries is unchanged, and the gate drops the
    reference to the current geometry only when that geometry holds an
    emitted position, so a geometry that is still empty stays current
    and is used by the next face.  Parsing three [v] lines, [o A],
    [g g1] and [f 1 2 3] yields one geometry, of object "A" and groups
    ["g1"]. *)
Theorem state_lines_add_no_geometry (lines : list string) (s : State) :
  Forall (fun l => isStateLine l = true) lines ->
  ArraysPresent s ->
  (exists s', forEach objLine lines s = Ok s' /\
     geometries s' = geometries s /\
     (geometry s' = geometry s \/
      (geometry s' = None /\
       exists x xs, currentArray Position s = Some (x :: xs))) /\
     (currentArray Position s = Some [] -> geometry s' = geometry s)) /\
  (exists g s',
     ParseObjFile
       (unlines ["v 0 0 0"; "v 1 0 0"; "v 0 1 0"; "o A"; "g g1"; "f 1 2 3"])
       initialState
     = Ok (mkResult [g] [], s') /\
     g_object g = Some "A" /\ g_groups g = ["g1"]).
Proof.
  intros Hall HP. split; [|apply scenario_object_group].
  destruct (stateLines_run lines s Hall HP) as (s' & H & Hg & Hd).
  exists s'. repeat split; try assumption.
  intros Hempty. destruct Hd as [Hsame | [_ (x & xs & Hne)]]; [exact Hsame | congruence].
Qed.

End StateLines.

Lemma state_lines_add_no_geometry_witness :
  let s := set_geometry (Some 0)
             (set_geometries
                [mkGeometry None [] None (mkData (Some []) (Some []) (Some []) (Some []))]
                (initialState (F := decimalFloat))) in
  let lines := ["o A"; "g g1 g2"; "usemtl wood"] in
  (Forall (fun l => isStateLine l = true) lines /\ ArraysPresent s) /\
  ((exists s', forEach objLine lines s = Ok s' /\
      geometries s' = geometries s /\
      (geometry s' = geometry s \/
       (geometry s' = None /\
        exists x xs, currentArray Position s = Some (x :: xs))) /\
      (currentArray Position s = Some [] -> geometry s' = geometry s)) /\
   (exists g s',
      ParseObjFile (F := decimalFloat)
        (unlines ["v 0 0 0"; "v 1 0 0"; "v 0 1 0"; "o A"; "g g1"; "f 1 2 3"])
        initialState
      = Ok (mkResult [g] [], s') /\
      g_object g = Some "A" /\ g_groups g = ["g1"])).
Proof.
  intros s lines.
  assert (H1 : Forall (fun l => isStateLine l = true) lines)
    by (repeat constructor).
  assert (H2 : ArraysPresent s).
  { split.
    - repeat constructor; intros [| | |]; simpl; eauto.
    - intros r [= <-]. simpl. lia. }
  split; [split; assumption|].
  exact (state_lines_add_no_geometry lines s H1 H2).
Defined.

(** ** Vertex lines *)

Section VertexLines.
Context {F : JSFloat}.
Implicit Types (s : State).

Lemma lastIndex_snoc {A} (t : list A) (x : A) : lastIndex (t ++ [x]) = length t.
Proof. unfold lastIndex. rewrite length_app. simpl. lia. Qed.

(** C4 (amended). A [v] line with more than 3 tokens appends the
    floats of its first 3 tokens to the position table and those of
    the remaining tokens to the color table; the two new entries have
    the same index exactly when the two tables had the same length
    before the line.  A [v] line with 3 tokens appends them to the
    position table and leaves the color table as it is. *)
Theorem vertex_line_tables (line : string) (value : list string) (s : State) :
  lineKeyword line = Some "v" ->
  lineValue line = value ->
  (3 < length value ->
   exists s', objLine line s = Ok s' /\
     objPositions s' = objPositions s ++ [map parseFloat (JS.slice03 value)] /\
     length (map parseFloat (JS.slice03 value)) = 3 /\
     objColors s' = objColors s ++ [map parseFloat (JS.slice3 value)] /\
     (lastIndex (objColors s') = lastIndex (objPositions s') <->
      length (objColors s) = length (objPositions s))) /\
  (length value = 3 ->
   exists s', objLine line s = Ok s' /\
     objPositions s' = objPositions s ++ [map parseFloat value] /\
     objColors s' = objColors s).
Proof.
  intros Hk Hv. rewrite (objLine_own line "v" keyword_v Hk eq_refl), Hv.
  unfold keyword_v. split; intros Hn.
  - apply Nat.ltb_lt in Hn as Hb. rewrite Hb. eexists. split; [reflexivity|]. simpl.
    split; [reflexivity|]. split.
    { unfold JS.slice03. rewrite length_map, length_firstn. lia. }
    split; [reflexivity|]. rewrite !lastIndex_snoc. reflexivity.
  - assert (Hb : Nat.ltb 3 (length value) = false) by (apply Nat.ltb_ge; lia).
    rewrite Hb. eexists. split; [reflexivity|]. split; reflexivity.
Qed.

Lemma colored_vertex_after_plain :
  let r := ParseObjFile (unlines ["v 0 0 0"; "v 1 1 1 1 0 0"]) initialState in
  lastIndex ∘ objPositions <$> finalState r = Some 2 /\
  lastIndex ∘ objColors <$> finalState r = Some 1.
Proof. split; vm_compute; reflexivity. Qed.

End VertexLines.

Section VertexLinesAtDecimal.
Local Existing Instance decimalFloat.

Lemma vertex_line_tables_witness :
  let s := initialState in
  let line := "v 1 2 3 0.5 0.5 0.5" in
  let value := ["1"; "2"; "3"; "0.5"; "0.5"; "0.5"] in
  (lineKeyword line = Some "v" /\ lineValue line = value) /\
  ((3 < length value ->
    exists s', objLine line s = Ok s' /\
      objPositions s' = objPositions s ++ [map parseFloat (JS.slice03 value)] /\
      length (map parseFloat (JS.slice03 value)) = 3 /\
      objColors s' = objColors s ++ [map parseFloat (JS.slice3 value)] /\
      (lastIndex (objColors s') = lastIndex (objPositions s') <->
       length (objColors s) = length (objPositions s))) /\
   (length value = 3 ->
    exists s', objLine line s = Ok s' /\
      objPositions s' = objPositions s ++ [map parseFloat value] /\
      objColors s' = objColors s)).
Proof.
  intros s line value.
  assert (H1 : lineKeyword line = Some "v") by reflexivity.
  assert (H2 : lineValue line = value) by reflexivity.
  split; [split; assumption|].
  exact (vertex_line_tables line value s H1 H2).
Defined.

(** C4 as stated fails: after the line [v 0 0 0], the line
    [v 1 1 1 1 0 0] creates the position entry of index 2 and the
    color entry of index 1. *)
Lemma colored_vertex_misaligned :
  let r := ParseObjFile (F := decimalFloat)
             (unlines ["v 0 0 0"; "v 1 1 1 1 0 0"]) initialState in
  lineKeyword "v 1 1 1 1 0 0" = Some "v" /\
  length (lineValue "v 1 1 1 1 0 0") = 6 /\
  lastIndex ∘ objPositions <$> finalState r = Some 2 /\
  lastIndex ∘ objColors <$> finalState r = Some 1.
Proof.
  split; [reflexivity|]. split; [reflexivity|].
  exact (colored_vertex_after_plain (F := decimalFloat)).
Qed.

End VertexLinesAtDecimal.

(** ** The cleanup after the line loop *)

Section Cleanup.
Context {F : JSFloat}.
Implicit Types (s : State) (g : Geometry).

Lemma dropEmpty_not_empty a : dropEmpty a <> Some [].
Proof. now destruct a as [[|x xs]|]. Qed.

Lemma getAttr_removeEmptyArrays k g :
  getAttr k (g_data (removeEmptyArrays g)) = dropEmpty (getAttr k (g_data g)).
Proof. now destruct k. Qed.

Lemma ParseObjFile_inv text s r s' :
  ParseObjFile text s = Ok (r, s') ->
  exists s1, forEach objLine (JS.split newline text) s = Ok s1 /\
    r_geometries r = map removeEmptyArrays (geometries s1) /\
    r_materialLibs r = materialLibs s1 /\
    s' = set_geometries (map removeEmptyArrays (geometries s1)) s1.
Proof.
  unfold ParseObjFile. destruct (forEach objLine _ s) as [s1|]; [|discriminate].
  intros [= <- <-]. exists s1. repeat split.
Qed.

(** The end-to-end scenario: one geometry, 9 position floats, and no
    other array. *)
Lemma triangle_parse :
  ParseObjFile triangleText initialState
  = Ok (mkResult [triangleGeometry] [], triangleState).
Proof. vm_compute. reflexivity. Qed.

(** C5. In every geometry that [ParseObjFile] returns, no attribute
    array is present and empty: an array that is empty when the line
    loop ends (nothing was emitted into it) is deleted from the
    geometry, and an array that holds values is returned as it is. *)
Theorem empty_arrays_are_deleted
    (text : string) (s s' : State) (r : ParseResult) :
  ParseObjFile text s = Ok (r, s') ->
  (forall g k, g ∈ r_geometries r -> getAttr k (g_data g) <> Some []) /\
  (exists s1, forEach objLine (JS.split newline text) s = Ok s1 /\
     r_geometries r = map removeEmptyArrays (geometries s1) /\
     forall j g1 k, geometries s1 !! j = Some g1 ->
       exists g, r_geometries r !! j = Some g /\
         (getAttr k (g_data g1) = Some [] -> getAttr k (g_data g) = None) /\
         (forall x xs, getAttr k (g_data g1) = Some (x :: xs) ->
            getAttr k (g_data g) = Some (x :: xs))).
Proof.
  intros H. apply ParseObjFile_inv in H as (s1 & Hrun & Hg & _ & _).
  split.
  - intros g k Hin. rewrite Hg in Hin. apply list_elem_of_fmap in Hin as (g1 & -> & _).
    rewrite getAttr_removeEmptyArrays. apply dropEmpty_not_empty.
  - exists s1. split; [exact Hrun|]. split; [exact Hg|].
    intros j g1 k Hj. exists (removeEmptyArrays g1). rewrite Hg.
    split; [now rewrite list_lookup_fmap, Hj|].
    rewrite getAttr_removeEmptyArrays. split.
    + now intros ->.
    + now intros x xs ->.
Qed.

End Cleanup.

Section CleanupAtDecimal.
Local Existing Instance decimalFloat.

Lemma empty_arrays_are_deleted_witness :
  ParseObjFile triangleText initialState
  = Ok (mkResult [triangleGeometry] [], triangleState) /\
  ((forall g k, g ∈ [triangleGeometry] ->
      getAttr k (g_data g) <> Some []) /\
   (exists s1,
      forEach objLine (JS.split newline triangleText) initialState = Ok s1 /\
      [triangleGeometry] = map removeEmptyArrays (geometries s1) /\
      forall j g1 k, geometries s1 !! j = Some g1 ->
        exists g, [triangleGeometry] !! j = Some g /\
          (getAttr k (g_data g1) = Some [] -> getAttr k (g_data g) = None) /\
          (forall x xs, getAttr k (g_data g1) = Some (x :: xs) ->
             getAttr k (g_data g) = Some (x :: xs)))).
Proof.
  pose proof triangle_parse as H.
  split; [exact H|].
  exact (empty_arrays_are_deleted triangleText initialState triangleState
           (mkResult [triangleGeometry] []) H).
Defined.

End CleanupAtDecimal.

(** ** Keywords that are not in the handler tables *)

Section UnknownKeywords.
Context {F : JSFloat}.

(** A keyword that no object has: the line is skipped with a warning
    and the rest of the text is processed, in both parsers. *)
Lemma unknown_obj_line_skipped line kw rest (s : State) :
  lineKeyword line = Some kw -> keywords kw = None -> objectPrototype kw = None ->
  forEach objLine (line :: rest) s = forEach objLine rest (warn kw s).
Proof.
  intros Hk Ho Hp. simpl. unfold andThen, objLine.
  now rewrite (processLine_unknown _ _ _ _ _ Hk Ho Hp).
Qed.

Lemma unknown_mtl_line_skipped line kw rest (s : MtlState) :
  lineKeyword line = Some kw -> mtlKeywords kw = None -> objectPrototype kw = None ->
  forEach mtlLine (line :: rest) s = forEach mtlLine rest (mtlWarn kw s).
Proof.
  intros Hk Ho Hp. simpl. unfold andThen, mtlLine.
  now rewrite (processLine_unknown _ _ _ _ _ Hk Ho Hp).
Qed.

(** C9 at a failing input.  [hasOwnProperty] is in neither handler
    table, yet a line that starts with it makes either parser throw:
    the lookup in the table finds the method inherited from
    [Object.prototype], and the call, made without a receiver, raises
    a [TypeError].  A line that starts with [constructor] is dropped
    without a warning. *)
Theorem inherited_keyword_aborts_parse :
  lineKeyword "hasOwnProperty" = Some "hasOwnProperty" /\
  keywords "hasOwnProperty" = None /\
  mtlKeywords "hasOwnProperty" = None /\
  thrown (ParseObjFile (unlines ["v 0 0 0"; "hasOwnProperty"; "v 1 0 0"]) initialState)
  = Some ThisIsUndefined /\
  thrown (ParseMaterialFile (unlines ["newmtl X"; "hasOwnProperty"; "Kd 1 0 0"]))
  = Some ThisIsUndefined /\
  (forall s : State, objLine "constructor" s = Ok s).
Proof.
  split; [reflexivity|]. split; [reflexivity|]. split; [reflexivity|].
  split; [vm_compute; reflexivity|]. split; [vm_compute; reflexivity|].
  intros s. reflexivity.
Qed.

End UnknownKeywords.

Section FacesAtDecimal.
Local Existing Instance decimalFloat.

Lemma face_is_triangle_fan_witness :
  let value := ["1"; "2"; "3"; "4"] in
  let s := set_objPositions
             [[zero; zero; zero]; map parseFloat ["0"; "0"; "0"];
              map parseFloat ["1"; "0"; "0"]; map parseFloat ["1"; "1"; "0"];
              map parseFloat ["0"; "1"; "0"]]
             initialState in
  3 <= length value /\
  ((forall line, lineKeyword line = Some "f" -> lineValue line = value ->
      lineRaw line = "1 2 3 4" ->
      objLine line s = keyword_f value "1 2 3 4" s) /\
   keyword_f value "1 2 3 4" s
   = (setGeometry >>> forEach (emitTriangle value) (fanTriangles (length value))) s /\
   length (fanTriangles (length value)) = length value - 2 /\
   (forall k, k < length value - 2 ->
      fanTriangles (length value) !! k = Some (0, k + 1, k + 2)) /\
   (forall s0 s' arr,
      setGeometry s = Ok s0 -> currentArray Position s0 = Some arr ->
      keyword_f value "1 2 3 4" s = Ok s' ->
      currentArray Position s'
      = Some (arr ++ flat_map (trianglePositions s value)
                       (fanTriangles (length value))))).
Proof.
  intros value s.
  assert (H : 3 <= length value) by (simpl; lia).
  split; [exact H|].
  exact (face_is_triangle_fan value "1 2 3 4" s H).
Defined.

(** A quadrilateral gives two triangles, 18 position floats. *)
Example quad_gives_two_triangles :
  arrayLengths
    (ParseObjFile
       (unlines ["v 0 0 0"; "v 1 0 0"; "v 1 1 0"; "v 0 1 0"; "f 1 2 3 4"])
       initialState)
  = Some [[Some 18; None; None; None]].
Proof. vm_compute. reflexivity. Qed.

End FacesAtDecimal.

(** ** Component counts *)

Section Widths.
Context {F : JSFloat}.
Implicit Types (s : State) (g : Geometry) (k : Attr).

Lemma slot_table i k s :
  slotAttr i = Some k -> objVertexData s !! i = Some (tableOf k s).
Proof.
  destruct i as [|[|[|[|i]]]]; simpl; intros [= <-]; reflexivity.
Qed.

Lemma entryAt_width s k index e :
  TablesWide s -> entryAt (tableOf k s) index = Some e -> length e = width k.
Proof.
  intros Hw. unfold entryAt. destruct index as [z|]; [|discriminate].
  destruct (0 <=? z)%Z; [|discriminate]. intros Hl.
  pose proof (Hw k) as Hk. rewrite Forall_lookup in Hk. exact (Hk _ _ Hl).
Qed.

Lemma Wide_sameTables s s' :
  sameTables s s' -> geometries s' = geometries s -> Wide s -> Wide s'.
Proof.
  intros Ht Hg [Hw Hgw]. split; [|now rewrite Hg].
  intros k. rewrite (sameTables_tableOf _ _ k Ht). apply Hw.
Qed.

Lemma geometryWide_push k g arr e :
  geometryWide g -> getAttr k (g_data g) = Some arr -> length e = width k ->
  geometryWide (set_data (setAttr k (Some (arr ++ e)) (g_data g)) g).
Proof.
  intros Hg Harr He k' arr'. simpl. destruct (decide (k' = k)) as [->|Hne].
  - rewrite getAttr_setAttr_eq. intros [= <-]. destruct (Hg k arr Harr) as [n Hn].
    exists (S n). rewrite length_app, Hn, He. simpl. lia.
  - rewrite getAttr_setAttr_ne by exact Hne. apply Hg.
Qed.

Lemma pushData_wide k index s s' :
  Wide s -> pushData k (entryAt (tableOf k s) index) s = Ok s' -> Wide s'.
Proof.
  intros [Hw Hgw] H.
  apply pushData_inv in H as (r & g & arr & e & Hr & Hl & Ha & He & ->).
  split; [exact Hw|]. simpl. apply Forall_insert; [exact Hgw|].
  apply geometryWide_push; [|exact Ha | now apply entryAt_width with s index].
  rewrite Forall_lookup in Hgw. exact (Hgw _ _ Hl).
Qed.

Lemma addVertexSlot_wide i str : Preserves Wide (addVertexSlot i str).
Proof.
  intros s s' HW. unfold addVertexSlot. destruct (JS.isEmpty str); [now intros [= <-]|].
  destruct (resolveIndex _ _) as [index|]; [|discriminate].
  intros H. apply andThen_inv in H as (s1 & H1 & H2).
  assert (HW1 : Wide s1).
  { destruct (slotAttr i) as [k|] eqn:Hk.
    - rewrite (slot_table i k s Hk) in H1. now apply pushData_wide with k index s.
    - destruct (objVertexData s !! i); now injection H1 as <-. }
  unfold pushInlineColor in H2.
  destruct (Nat.eqb i 0 && Nat.ltb 1 (length (objColors s1))).
  - now apply (pushData_wide Color index s1).
  - now injection H2 as <-.
Qed.

Lemma addVertexAt_wide value j : Preserves Wide (addVertexAt value j).
Proof.
  unfold addVertexAt. destruct (value !! j) as [vert|]; [|intros s s' _ [=]].
  unfold addVertex. apply Preserves_forEachFrom. intros n x. apply addVertexSlot_wide.
Qed.

Lemma setGeometry_wide : Preserves Wide setGeometry.
Proof.
  intros s s' [Hw Hgw]. unfold setGeometry.
  destruct (geometry s); intros [= <-]; [now split|].
  split; [exact Hw|]. simpl. apply Forall_app. split; [exact Hgw|].
  constructor; [|constructor]. intros k arr. exists 0.
  destruct k; simpl in *; injection H as <-; reflexivity.
Qed.

Lemma keyword_f_wide value raw : Preserves Wide (keyword_f value raw).
Proof.
  intros s s' HW. rewrite keyword_f_fan. revert s s' HW.
  apply Preserves_andThen; [apply setGeometry_wide|].
  apply Preserves_forEach. intros [[a b] c] _. unfold emitTriangle.
  repeat apply Preserves_andThen; apply addVertexAt_wide.
Qed.

Lemma TablesWide_snoc s s' :
  (forall k, tableOf k s' = tableOf k s \/
             exists e, tableOf k s' = tableOf k s ++ [e] /\ length e = width k) ->
  TablesWide s -> TablesWide s'.
Proof.
  intros H Hw k. destruct (H k) as [-> | (e & -> & He)]; [apply Hw|].
  apply Forall_app. split; [apply Hw | now repeat constructor].
Qed.

Lemma arityOk_inv line kw :
  arityOk line = true -> lineKeyword line = Some kw ->
  (kw = "v" -> length (lineValue line) = 3 \/ length (lineValue line) = 6) /\
  (kw = "vn" -> length (lineValue line) = 3) /\
  (kw = "vt" -> length (lineValue line) = 2).
Proof.
  unfold arityOk. intros H Hk. rewrite Hk in H.
  repeat split; intros ->; simpl in H.
  - apply orb_prop in H as [H|H]; apply Nat.eqb_eq in H; auto.
  - now apply Nat.eqb_eq in H.
  - now apply Nat.eqb_eq in H.
Qed.

Lemma handler_wide line kw h :
  arityOk line = true -> lineKeyword line = Some kw -> keywords kw = Some h ->
  Preserves Wide (h (lineValue line) (lineRaw line)).
Proof.
  intros Har Hk Hh s s' HW Hrun.
  destruct (arityOk_inv line kw Har Hk) as (Hv & Hvn & Hvt).
  destruct (String.eqb kw "usemtl" || String.eqb kw "g" || String.eqb kw "o") eqn:Hst.
  { destruct (stateHandler_inv kw h _ _ s s' Hh Hst Hrun) as (Ht & Hg & _).
    now apply Wide_sameTables with s. }
  destruct HW as [Hw Hgw].
  unfold keywords in Hh. case_keyword kw; try discriminate; injection Hh as <-.
  - unfold keyword_v in Hrun. destruct (Hv eq_refl) as [Hn | Hn]; rewrite Hn in Hrun;
      simpl in Hrun; injection Hrun as <-; (split; [|exact Hgw]);
      apply (TablesWide_snoc s); try exact Hw; intros [| | |]; simpl; auto.
    + right. eexists. split; [reflexivity|]. unfold mapParseFloat. now rewrite length_map.
    + right. eexists. split; [reflexivity|].
      unfold mapParseFloat, JS.slice03. rewrite length_map, length_firstn. lia.
    + right. eexists. split; [reflexivity|].
      unfold mapParseFloat, JS.slice3. rewrite length_map, length_skipn. lia.
  - injection Hrun as <-. split; [|exact Hgw].
    apply (TablesWide_snoc s); try exact Hw; intros [| | |]; simpl; auto.
    right. eexists. split; [reflexivity|]. unfold mapParseFloat.
    rewrite length_map. now apply Hvn.
  - injection Hrun as <-. split; [|exact Hgw].
    apply (TablesWide_snoc s); try exact Hw; intros [| | |]; simpl; auto.
    right. eexists. split; [reflexivity|]. unfold mapParseFloat.
    rewrite length_map. now apply Hvt.
  - exact (keyword_f_wide (lineValue line) (lineRaw line) s s' (conj Hw Hgw) Hrun).
  - injection Hrun as <-. now split.
  - injection Hrun as <-. now split.
Qed.

Lemma objLine_wide line : arityOk line = true -> Preserves Wide (objLine line).
Proof.
  intros Har. apply Preserves_objLine; [now intros kw s HW|].
  intros kw h Hk Hh. now apply handler_wide with kw.
Qed.

Lemma geometryWide_removeEmptyArrays g :
  geometryWide g -> geometryWide (removeEmptyArrays g).
Proof.
  intros Hg k arr. rewrite getAttr_removeEmptyArrays.
  destruct (getAttr k (g_data g)) as [[|x xs]|] eqn:E; try discriminate.
  intros [= <-]. now apply Hg.
Qed.

Lemma Wide_initial : Wide initialState.
Proof.
  split; [|constructor]. intros [| | |]; repeat constructor.
Qed.

(** C6 (amended). When every [v] line of the text has 3 or 6 tokens,
    every [vn] line 3 and every [vt] line 2, and the tables and arrays
    have their widths when the call starts (as in the first call),
    then after the call every entry of the position, normal and color
    tables has 3 components and every texcoord entry 2, and every
    array present in a returned geometry is a whole number of such
    entries. *)
Theorem arrays_have_fixed_width
    (text : string) (s s' : State) (r : ParseResult) :
  TablesWide s ->
  Forall geometryWide (geometries s) ->
  Forall (fun l => arityOk l = true) (JS.split newline text) ->
  ParseObjFile text s = Ok (r, s') ->
  TablesWide s' /\ Forall geometryWide (r_geometries r).
Proof.
  intros Hw Hgw Har H. apply ParseObjFile_inv in H as (s1 & Hrun & Hg & _ & ->).
  assert (HW1 : Wide s1).
  { apply (forEach_invariant Wide objLine (JS.split newline text)) with (s := s);
      [| now split | exact Hrun].
    intros x t t' Hx Ht Hstep. apply (objLine_wide x) with t; [|exact Ht | exact Hstep].
    rewrite Forall_forall in Har. apply Har. now apply list_elem_of_In. }
  destruct HW1 as [Hw1 Hgw1]. split; [exact Hw1|].
  rewrite Hg. apply Forall_fmap. eapply Forall_impl; [exact Hgw1|].
  intros g. apply geometryWide_removeEmptyArrays.
Qed.

(** Without the condition on the token counts the widths are those of
    the lines: a [vt] line with three tokens gives a texcoord entry of
    three components, and three of them per emitted vertex. *)
Lemma texcoord_of_three_tokens :
  let r := ParseObjFile
             (unlines ["v 0 0 0"; "vt 0.5 0.5 0"; "f 1/1 1/1 1/1"]) initialState in
  map length ∘ objTexcoords <$> finalState r = Some [2; 3] /\
  arrayLengths r = Some [[Some 9; Some 9; None; None]].
Proof. split; vm_compute; reflexivity. Qed.

End Widths.

Section WidthsAtDecimal.
Local Existing Instance decimalFloat.

Lemma arrays_have_fixed_width_witness :
  (TablesWide initialState /\
   Forall geometryWide (geometries initialState) /\
   Forall (fun l => arityOk l = true) (JS.split newline triangleText) /\
   ParseObjFile triangleText initialState
   = Ok (mkResult [triangleGeometry] [], triangleState)) /\
  (TablesWide triangleState /\ Forall geometryWide [triangleGeometry]).
Proof.
  assert (H1 : TablesWide initialState) by apply Wide_initial.
  assert (H2 : Forall geometryWide (geometries initialState)) by constructor.
  assert (H3 : Forall (fun l => arityOk l = true) (JS.split newline triangleText))
    by (repeat constructor).
  pose proof triangle_parse as H4.
  split; [repeat split; assumption|].
  exact (arrays_have_fixed_width triangleText initialState triangleState
           (mkResult [triangleGeometry] []) H1 H2 H3 H4).
Defined.

(** C6 as stated fails: in the text below the texcoord table receives
    an entry of 3 components, and the texcoord array of the geometry
    holds 9 components for 3 emitted vertices. *)
Lemma texcoord_width_not_fixed :
  let r := ParseObjFile
             (unlines ["v 0 0 0"; "vt 0.5 0.5 0"; "f 1/1 1/1 1/1"]) initialState in
  map length ∘ objTexcoords <$> finalState r = Some [2; 3] /\
  arrayLengths r = Some [[Some 9; Some 9; None; None]].
Proof. exact texcoord_of_three_tokens. Qed.

End WidthsAtDecimal.

(* ================================================================== *)
(** * Further properties *)

(** ** Layout of the text *)

Section Layout.
Context {St : Type}.
Variable own : string -> option (Handler St).
Variable warnWith : string -> St -> St.

Lemma processLine_trim l l' :
  JS.trim l = JS.trim l' -> processLine own warnWith l = processLine own warnWith l'.
Proof. intros H. unfold processLine. now rewrite H. Qed.

Lemma lineKeyword_trim l l' : JS.trim l = JS.trim l' -> lineKeyword l = lineKeyword l'.
Proof. intros H. unfold lineKeyword. now rewrite H. Qed.

Lemma forEach_keyed lines (s : St) :
  forEach (processLine own warnWith) lines s
  = forEach (processLine own warnWith) (List.filter isKeyed lines) s.
Proof.
  revert s. induction lines as [|l lines IH]; intros s; [reflexivity|].
  simpl. unfold isKeyed at 1. destruct (lineKeyword l) eqn:Hk.
  - simpl. unfold andThen. destruct (processLine own warnWith l s); [apply IH | reflexivity].
  - rewrite (processLine_blank own warnWith l Hk). unfold andThen, skip. apply IH.
Qed.

Lemma forEach_trimmed lines lines' (s : St) :
  map JS.trim lines = map JS.trim lines' ->
  forEach (processLine own warnWith) lines s
  = forEach (processLine own warnWith) lines' s.
Proof.
  revert lines' s. induction lines as [|l lines IH]; intros [|l' lines'] s H;
    try discriminate; [reflexivity|].
  injection H as Hl Hrest. simpl. rewrite (processLine_trim l l' Hl). unfold andThen.
  destruct (processLine own warnWith l' s); [now apply IH | reflexivity].
Qed.

End Layout.

Section Trimming.

Lemma allSpace_cons c w : allSpace (String c w) = JS.isSpace c && allSpace w.
Proof. unfold allSpace, JS.trimStart. simpl. now destruct (JS.isSpace c). Qed.

Lemma trimStart_pad a x : allSpace a = true -> JS.trimStart (String.append a x) = JS.trimStart x.
Proof.
  induction a as [|c a IH]; [reflexivity|].
  rewrite allSpace_cons, append_cons. intros H. apply andb_prop in H as [Hc Ha].
  unfold JS.trimStart in *. simpl. rewrite Hc. now apply IH.
Qed.

Lemma trimEnd_allSpace b : allSpace b = true -> JS.trimEnd b = EmptyString.
Proof.
  induction b as [|c b IH]; [reflexivity|].
  rewrite allSpace_cons. intros H. apply andb_prop in H as [Hc Hb].
  simpl. now rewrite (IH Hb), Hc.
Qed.

Lemma trimEnd_pad x b : allSpace b = true -> JS.trimEnd (String.append x b) = JS.trimEnd x.
Proof.
  intros Hb. induction x as [|c x IH]; [now apply trimEnd_allSpace|].
  rewrite append_cons. simpl. now rewrite IH.
Qed.

Lemma trimStart_append_pad l b :
  allSpace b = true ->
  JS.trimEnd (JS.trimStart (String.append l b)) = JS.trimEnd (JS.trimStart l).
Proof.
  intros Hb. induction l as [|c l IH].
  - rewrite append_nil. unfold JS.trimStart at 2. simpl.
    apply trimEnd_allSpace. unfold allSpace in *.
    assert (H : JS.trimStart b = EmptyString) by (now destruct (JS.trimStart b)).
    unfold allSpace. now rewrite H.
  - rewrite append_cons. unfold JS.trimStart in *. simpl.
    destruct (JS.isSpace c); [exact IH|].
    rewrite <- append_cons. now apply trimEnd_pad.
Qed.

(** White space around a line does not count. *)
Lemma trim_pad a l b :
  allSpace a = true -> allSpace b = true ->
  JS.trim (String.append a (String.append l b)) = JS.trim l.
Proof.
  intros Ha Hb. unfold JS.trim. rewrite (trimStart_pad a _ Ha).
  now apply trimStart_append_pad.
Qed.

End Trimming.

Section LayoutOfTexts.
Context {F : JSFloat}.

(** X1. Two texts whose lines, once the blank lines and the comments
    are left out, are the same up to the white space around each line
    (indentation, trailing blanks, the CR of a CRLF line end) are
    parsed alike, by [ParseObjFile] on any state and by
    [ParseMaterialFile]. *)
Theorem layout_is_irrelevant (text text' : string) :
  map JS.trim (List.filter isKeyed (JS.split newline text))
  = map JS.trim (List.filter isKeyed (JS.split newline text')) ->
  (forall s, ParseObjFile text s = ParseObjFile text' s) /\
  ParseMaterialFile text = ParseMaterialFile text' /\
  (forall a l b, allSpace a = true -> allSpace b = true ->
     JS.trim (String.append a (String.append l b)) = JS.trim l).
Proof.
  intros H. split; [|split].
  - intros s. unfold ParseObjFile, objLine.
    rewrite (forEach_keyed keywords warn (JS.split newline text)).
    rewrite (forEach_keyed keywords warn (JS.split newline text')).
    now rewrite (forEach_trimmed keywords warn _ _ s H).
  - unfold ParseMaterialFile, mtlLine.
    rewrite (forEach_keyed mtlKeywords mtlWarn (JS.split newline text)).
    rewrite (forEach_keyed mtlKeywords mtlWarn (JS.split newline text')).
    now rewrite (forEach_trimmed mtlKeywords mtlWarn _ _ mtlInitialState H).
  - apply trim_pad.
Qed.

End LayoutOfTexts.

Section LayoutAtDecimal.
Local Existing Instance decimalFloat.

Lemma layout_is_irrelevant_witness :
  let cr := String "013" EmptyString in
  let text := unlines ["# a triangle"; String.append "  v 0 0 0" cr; "";
                       String.append "v 1 0 0" cr; "v 0 1 0  "; "	f 1 2 3"] in
  let text' := unlines ["v 0 0 0"; "v 1 0 0"; "v 0 1 0"; "f 1 2 3"] in
  map JS.trim (List.filter isKeyed (JS.split newline text))
  = map JS.trim (List.filter isKeyed (JS.split newline text')) /\
  ((forall s, ParseObjFile text s = ParseObjFile text' s) /\
   ParseMaterialFile text = ParseMaterialFile text' /\
   (forall a l b, allSpace a = true -> allSpace b = true ->
      JS.trim (String.append a (String.append l b)) = JS.trim l)).
Proof.
  intros cr text text'.
  assert (H : map JS.trim (List.filter isKeyed (JS.split newline text))
              = map JS.trim (List.filter isKeyed (JS.split newline text')))
    by reflexivity.
  split; [exact H|].
  exact (layout_is_irrelevant text text' H).
Defined.

End LayoutAtDecimal.

(** ** What the lines accumulate *)

Section RelatesLemmas.
Context {St : Type}.
Variable R : St -> St -> Prop.
Hypothesis R_refl : forall s, R s s.
Hypothesis R_trans : forall s1 s2 s3, R s1 s2 -> R s2 s3 -> R s1 s3.

Lemma Relates_skip : Relates R skip.
Proof. intros s s' [= <-]. apply R_refl. Qed.

Lemma Relates_andThen a b : Relates R a -> Relates R b -> Relates R (a >>> b).
Proof.
  intros Ha Hb s s' H. apply andThen_inv in H as (s1 & H1 & H2).
  apply R_trans with s1; [now apply Ha | now apply Hb].
Qed.

Lemma Relates_forEach {A} (f : A -> Action St) l :
  (forall x, In x l -> Relates R (f x)) -> Relates R (forEach f l).
Proof.
  induction l as [|x l IH]; intros Hf; [apply Relates_skip|].
  simpl. apply Relates_andThen; [apply Hf; now left|].
  apply IH. intros y Hy. apply Hf. now right.
Qed.

Lemma Relates_forEachFrom {A} (f : nat -> A -> Action St) l i :
  (forall j x, Relates R (f j x)) -> Relates R (forEachFrom i f l).
Proof.
  intros Hf. revert i. induction l as [|x l IH]; intros i; [apply Relates_skip|].
  simpl. apply Relates_andThen; [apply Hf | apply IH].
Qed.

End RelatesLemmas.

Section Accounting.
Context {F : JSFloat}.
Implicit Types (s : State) (g : Geometry) (k : Attr).

Lemma sameTags_refl g : sameTags g g.
Proof. repeat split. Qed.

Lemma sameTags_trans g1 g2 g3 : sameTags g1 g2 -> sameTags g2 g3 -> sameTags g1 g3.
Proof. unfold sameTags. intros (? & ? & ?) (? & ? & ?). repeat split; congruence. Qed.

Lemma arraysExtend_refl g : arraysExtend g g.
Proof.
  intros k. destruct (getAttr k (g_data g)) as [arr|]; [|reflexivity].
  exists []. now rewrite app_nil_r.
Qed.

Lemma arraysExtend_trans g1 g2 g3 :
  arraysExtend g1 g2 -> arraysExtend g2 g3 -> arraysExtend g1 g3.
Proof.
  intros H1 H2 k. specialize (H1 k). specialize (H2 k).
  destruct (getAttr k (g_data g1)) as [arr|].
  - destruct H1 as [m1 E1]. rewrite E1 in H2. destruct H2 as [m2 E2].
    exists (m1 ++ m2). now rewrite E2, app_assoc.
  - now rewrite H1 in H2.
Qed.

Lemma geometriesGrow_refl s : geometriesGrow s s.
Proof.
  intros j g Hj. exists g. split; [exact Hj|].
  split; [apply sameTags_refl | apply arraysExtend_refl].
Qed.

Lemma geometriesGrow_trans s1 s2 s3 :
  geometriesGrow s1 s2 -> geometriesGrow s2 s3 -> geometriesGrow s1 s3.
Proof.
  intros H1 H2 j g Hj. destruct (H1 j g Hj) as (g2 & Hj2 & Ht2 & Ha2).
  destruct (H2 j g2 Hj2) as (g3 & Hj3 & Ht3 & Ha3). exists g3.
  split; [exact Hj3|].
  split; [now apply sameTags_trans with g2 | now apply arraysExtend_trans with g2].
Qed.

(** The geometries are the same list. *)
Lemma geometriesGrow_same s s' : geometries s' = geometries s -> geometriesGrow s s'.
Proof.
  intros H j g Hj. exists g. rewrite H. split; [exact Hj|].
  split; [apply sameTags_refl | apply arraysExtend_refl].
Qed.

Lemma pushesOnly_refl s : pushesOnly s s.
Proof. repeat split. apply geometriesGrow_refl. Qed.

Lemma pushesOnly_trans s1 s2 s3 : pushesOnly s1 s2 -> pushesOnly s2 s3 -> pushesOnly s1 s3.
Proof.
  intros (T1 & G1 & L1 & P1 & M1 & O1 & C1 & N1 & W1)
         (T2 & G2 & L2 & P2 & M2 & O2 & C2 & N2 & W2).
  split; [now apply sameTables_trans with s2|].
  repeat split; try congruence. now apply geometriesGrow_trans with s2.
Qed.

Lemma pushData_pushesOnly k entry : Relates pushesOnly (pushData k entry).
Proof.
  intros s s' H. apply pushData_inv in H as (r & g & arr & e & Hr & Hl & Ha & -> & ->).
  repeat split; simpl; try reflexivity.
  - apply length_insert.
  - intros j g0 Hj. destruct (decide (j = r)) as [->|Hne].
    + rewrite Hl in Hj. injection Hj as <-. eexists. split.
      * unfold appended. cbn [geometries set_geometries].
        apply list_lookup_insert_eq. now apply lookup_lt_Some with g.
      * split; [repeat split|]. intros k'. simpl.
        destruct (decide (k' = k)) as [->|Hk].
        -- rewrite Ha, getAttr_setAttr_eq. eauto.
        -- rewrite getAttr_setAttr_ne by exact Hk.
           destruct (getAttr k' (g_data g)); [|reflexivity].
           exists []. now rewrite app_nil_r.
    + exists g0. split.
      * unfold appended. cbn [geometries set_geometries].
        rewrite list_lookup_insert_ne by congruence. exact Hj.
      * split; [apply sameTags_refl | apply arraysExtend_refl].
Qed.

Lemma addVertexSlot_pushesOnly i str : Relates pushesOnly (addVertexSlot i str).
Proof.
  intros s s'. unfold addVertexSlot. destruct (JS.isEmpty str).
  { intros [= <-]. apply pushesOnly_refl. }
  destruct (resolveIndex _ _) as [index|]; [|discriminate].
  apply (Relates_andThen pushesOnly pushesOnly_trans).
  - destruct (slotAttr i), (objVertexData s !! i);
      (apply pushData_pushesOnly || apply (Relates_skip pushesOnly pushesOnly_refl)).
  - intros t t'. unfold pushInlineColor.
    destruct (Nat.eqb i 0 && Nat.ltb 1 (length (objColors t)));
      [apply pushData_pushesOnly | intros [= <-]; apply pushesOnly_refl].
Qed.

Lemma addVertexAt_pushesOnly value j : Relates pushesOnly (addVertexAt value j).
Proof.
  unfold addVertexAt. destruct (value !! j) as [vert|]; [|intros s s' [=]].
  unfold addVertex.
  apply (Relates_forEachFrom pushesOnly pushesOnly_refl pushesOnly_trans).
  intros n x. apply addVertexSlot_pushesOnly.
Qed.

Lemma fan_pushesOnly value l : Relates pushesOnly (forEach (emitTriangle value) l).
Proof.
  apply (Relates_forEach pushesOnly pushesOnly_refl pushesOnly_trans).
  intros [[a b] c] _. unfold emitTriangle.
  repeat apply (Relates_andThen pushesOnly pushesOnly_trans);
    apply addVertexAt_pushesOnly.
Qed.

End Accounting.

Section LineAccounting.
Context {F : JSFloat}.
Implicit Types (s : State) (g : Geometry) (k : Attr).

Lemma objLine_cases line s s' :
  objLine line s = Ok s' ->
  (lineKeyword line = None /\ s' = s) \/
  (exists kw, lineKeyword line = Some kw /\ keywords kw = None /\
     (s' = s \/ s' = warn kw s)) \/
  (exists kw h, lineKeyword line = Some kw /\ keywords kw = Some h /\
     h (lineValue line) (lineRaw line) s = Ok s').
Proof.
  intros Hrun. unfold objLine in Hrun.
  destruct (lineKeyword line) as [kw|] eqn:Hkw.
  - right. destruct (keywords kw) as [h|] eqn:Hh.
    + rewrite (processLine_own _ _ _ _ _ Hkw Hh) in Hrun. right. eauto.
    + left. exists kw. repeat split; try assumption.
      destruct (objectPrototype kw) as [m|] eqn:Hm.
      * rewrite (processLine_inherited _ _ _ _ _ _ Hkw Hh Hm) in Hrun.
        apply callInherited_inv in Hrun. now left.
      * rewrite (processLine_unknown _ _ _ _ _ Hkw Hh Hm) in Hrun.
        injection Hrun as <-. now right.
  - left. rewrite (processLine_blank _ _ _ Hkw) in Hrun. now injection Hrun as <-.
Qed.

Lemma setGeometry_inv s s0 :
  setGeometry s = Ok s0 ->
  sameTables s s0 /\ materialLibs s0 = materialLibs s /\
  groups s0 = groups s /\ material s0 = material s /\ object s0 = object s /\
  ((exists r, geometry s = Some r /\ s0 = s) \/
   (geometry s = None /\ geometry s0 = Some (length (geometries s)) /\
    geometries s0
    = geometries s
      ++ [mkGeometry (object s) (groups s) (material s)
            (mkData (Some []) (Some []) (Some []) (Some []))])).
Proof.
  unfold setGeometry. destruct (geometry s) as [r|] eqn:Hr; intros [= <-].
  - repeat split. left. eauto.
  - repeat split. right. repeat split.
Qed.

Lemma keyword_f_inv value raw s s' :
  keyword_f value raw s = Ok s' ->
  exists s0, setGeometry s = Ok s0 /\ pushesOnly s0 s'.
Proof.
  rewrite keyword_f_fan. intros H. apply andThen_inv in H as (s0 & H0 & H1).
  exists s0. split; [exact H0|].
  exact (fan_pushesOnly value (fanTriangles (length value)) s0 s' H1).
Qed.

Lemma declares_not_declaring k line kw :
  lineKeyword line = Some kw ->
  String.eqb kw "v" = false -> String.eqb kw "vn" = false ->
  String.eqb kw "vt" = false -> declares k line = [].
Proof. intros Hk H1 H2 H3. unfold declares. now rewrite Hk, H1, H2, H3. Qed.

Lemma librariesOf_other line kw :
  lineKeyword line = Some kw -> String.eqb kw "mtllib" = false -> librariesOf line = [].
Proof. intros Hk H. unfold librariesOf. now rewrite Hk, H. Qed.

Lemma isFaceLine_other line kw :
  lineKeyword line = Some kw -> String.eqb kw "f" = false -> isFaceLine line = false.
Proof. intros Hk H. unfold isFaceLine. now rewrite Hk. Qed.

Lemma keywords_none kw :
  keywords kw = None ->
  String.eqb kw "v" = false /\ String.eqb kw "vn" = false /\
  String.eqb kw "vt" = false /\ String.eqb kw "mtllib" = false /\
  String.eqb kw "f" = false.
Proof.
  unfold keywords. intros H.
  repeat match goal with
    | |- context [String.eqb kw ?c] =>
        destruct (String.eqb_spec kw c); [subst kw; discriminate |]
    end.
  repeat split.
Qed.

(** The tables, [materialLibs] and the geometries do not depend on
    the console. *)
Lemma accounts_unchanged line s s' :
  declares Position line = [] -> declares Texcoord line = [] ->
  declares Normal line = [] -> declares Color line = [] ->
  librariesOf line = [] ->
  sameTables s s' -> materialLibs s' = materialLibs s ->
  geometries s' = geometries s ->
  accounts [line] s s'.
Proof.
  intros Hp Ht Hn Hc Hl Htab Hm Hg. split; [|split; [|split]].
  - intros k. rewrite (sameTables_tableOf _ _ k Htab). simpl. rewrite app_nil_r.
    destruct k; rewrite ?Hp, ?Ht, ?Hn, ?Hc; now rewrite app_nil_r.
  - simpl. now rewrite Hm, Hl, !app_nil_r.
  - now apply geometriesGrow_same.
  - rewrite Hg. lia.
Qed.

Lemma accounts_single line s s' :
  (forall k, tableOf k s' = tableOf k s ++ declares k line) ->
  materialLibs s' = materialLibs s ++ librariesOf line ->
  geometriesGrow s s' ->
  length (geometries s') <= length (geometries s) + (if isFaceLine line then 1 else 0) ->
  accounts [line] s s'.
Proof.
  intros Ht Hm Hg Hn. split; [|split; [|split]].
  - intros k. simpl. now rewrite app_nil_r.
  - simpl. now rewrite app_nil_r.
  - exact Hg.
  - simpl. destruct (isFaceLine line); simpl; lia.
Qed.

Lemma objLine_accounts line s s' : objLine line s = Ok s' -> accounts [line] s s'.
Proof.
  intros H.
  apply objLine_cases in H as [[Hk ->] | [(kw & Hk & Hn & Hs) | (kw & h & Hk & Hh & Hrun)]].
  - apply accounts_unchanged; try reflexivity;
      unfold declares, librariesOf; now rewrite Hk.
  - destruct (keywords_none kw Hn) as (H1 & H2 & H3 & H4 & H5).
    destruct Hs as [-> | ->]; apply accounts_unchanged; try reflexivity;
      try (now apply declares_not_declaring with kw);
      now apply librariesOf_other with kw.
  - destruct (String.eqb kw "usemtl" || String.eqb kw "g" || String.eqb kw "o") eqn:Hst.
    { destruct (stateHandler_inv kw h _ _ s s' Hh Hst Hrun) as (Ht & Hg & Hm & _).
      assert (Hkw : kw = "usemtl" \/ kw = "g" \/ kw = "o").
      { destruct (String.eqb_spec kw "usemtl"); [now left|].
        destruct (String.eqb_spec kw "g"); [now right; left|].
        destruct (String.eqb_spec kw "o"); [now right; right | discriminate]. }
      apply accounts_unchanged; try assumption;
        try (apply declares_not_declaring with kw; [exact Hk | ..];
             destruct Hkw as [-> | [-> | ->]]; reflexivity).
      apply librariesOf_other with kw; [exact Hk|].
      destruct Hkw as [-> | [-> | ->]]; reflexivity. }
    unfold keywords in Hh. case_keyword kw; try discriminate; injection Hh as <-;
      apply accounts_single; unfold declares, librariesOf, isFaceLine; rewrite ?Hk.
    + intros k. unfold keyword_v in Hrun.
      destruct (Nat.ltb 3 (length (lineValue line))); injection Hrun as <-;
        destruct k; simpl; now rewrite ?app_nil_r.
    + unfold keyword_v in Hrun.
      destruct (Nat.ltb 3 (length (lineValue line))); injection Hrun as <-;
        simpl; now rewrite app_nil_r.
    + unfold keyword_v in Hrun.
      destruct (Nat.ltb 3 (length (lineValue line))); injection Hrun as <-;
        now apply geometriesGrow_same.
    + unfold keyword_v in Hrun.
      destruct (Nat.ltb 3 (length (lineValue line))); injection Hrun as <-; simpl; lia.
    + injection Hrun as <-. intros [| | |]; simpl; now rewrite ?app_nil_r.
    + injection Hrun as <-. simpl. now rewrite app_nil_r.
    + injection Hrun as <-. now apply geometriesGrow_same.
    + injection Hrun as <-. simpl. lia.
    + injection Hrun as <-. intros [| | |]; simpl; now rewrite ?app_nil_r.
    + injection Hrun as <-. simpl. now rewrite app_nil_r.
    + injection Hrun as <-. now apply geometriesGrow_same.
    + injection Hrun as <-. simpl. lia.
    + apply keyword_f_inv in Hrun as (s0 & H0 & Hp).
      destruct Hp as (T1 & _). apply setGeometry_inv in H0 as (T0 & _).
      intros k. rewrite app_nil_r.
      now rewrite (sameTables_tableOf _ _ k T1), (sameTables_tableOf _ _ k T0).
    + apply keyword_f_inv in Hrun as (s0 & H0 & Hp).
      destruct Hp as (_ & _ & L1 & _). apply setGeometry_inv in H0 as (_ & L0 & _).
      rewrite app_nil_r. congruence.
    + apply keyword_f_inv in Hrun as (s0 & H0 & Hp).
      destruct Hp as (_ & _ & _ & _ & _ & _ & _ & _ & W1).
      apply setGeometry_inv in H0 as (_ & _ & _ & _ & _ & Hcase).
      apply geometriesGrow_trans with s0; [|exact W1].
      destruct Hcase as [(r & _ & ->) | (_ & _ & E)]; [apply geometriesGrow_refl|].
      intros j g Hj. exists g. rewrite E.
      split; [now apply lookup_app_l_Some|].
      split; [apply sameTags_refl | apply arraysExtend_refl].
    + apply keyword_f_inv in Hrun as (s0 & H0 & Hp).
      destruct Hp as (_ & _ & _ & _ & _ & _ & _ & N1 & _).
      apply setGeometry_inv in H0 as (_ & _ & _ & _ & _ & Hcase).
      rewrite N1. destruct Hcase as [(r & _ & ->) | (_ & _ & E)]; [lia|].
      rewrite E, length_app. simpl. lia.
    + injection Hrun as <-. intros [| | |]; simpl; now rewrite ?app_nil_r.
    + injection Hrun as <-. simpl. now rewrite app_nil_r.
    + injection Hrun as <-. now apply geometriesGrow_same.
    + injection Hrun as <-. simpl. lia.
    + injection Hrun as <-. intros [| | |]; simpl; now rewrite ?app_nil_r.
    + injection Hrun as <-. reflexivity.
    + injection Hrun as <-. now apply geometriesGrow_same.
    + injection Hrun as <-. simpl. lia.
Qed.

Lemma accounts_nil s : accounts [] s s.
Proof.
  split; [intros k; simpl; now rewrite app_nil_r|].
  split; [simpl; now rewrite app_nil_r|].
  split; [apply geometriesGrow_refl | simpl; lia].
Qed.

Lemma accounts_app l1 l2 s1 s2 s3 :
  accounts l1 s1 s2 -> accounts l2 s2 s3 -> accounts (l1 ++ l2) s1 s3.
Proof.
  intros (T1 & L1 & G1 & N1) (T2 & L2 & G2 & N2).
  split; [intros k; now rewrite T2, T1, flat_map_app, app_assoc|].
  split; [now rewrite L2, L1, flat_map_app, app_assoc|].
  split; [now apply geometriesGrow_trans with s2|].
  rewrite List.filter_app, length_app. lia.
Qed.

Lemma lines_accounts lines s s' : forEach objLine lines s = Ok s' -> accounts lines s s'.
Proof.
  revert s. induction lines as [|l lines IH]; intros s H.
  - injection H as <-. apply accounts_nil.
  - simpl in H. apply andThen_inv in H as (s1 & H1 & H2).
    apply (accounts_app [l] lines s s1 s'); [now apply objLine_accounts | now apply IH].
Qed.

End LineAccounting.

Section CallAccounting.
Context {F : JSFloat}.
Implicit Types (s : State) (g : Geometry) (k : Attr).

Lemma scene_parse :
  ParseObjFile sceneText initialState
  = Ok (mkResult sceneGeometries ["a b.mtl"], sceneState).
Proof. vm_compute. reflexivity. Qed.

Lemma ParseObjFile_accounts text s r s' :
  ParseObjFile text s = Ok (r, s') ->
  exists s1, accounts (JS.split newline text) s s1 /\
    r_geometries r = map removeEmptyArrays (geometries s1) /\
    r_materialLibs r = materialLibs s1 /\
    (forall k, tableOf k s' = tableOf k s1).
Proof.
  intros H. apply ParseObjFile_inv in H as (s1 & Hrun & Hg & Hm & ->).
  exists s1. split; [now apply lines_accounts|].
  split; [exact Hg|]. split; [exact Hm|]. now intros [| | |].
Qed.

(** X2. When a call of [ParseObjFile] returns, each of the four tables
    is the table the call started with, followed by the entries of
    the [v], [vn] and [vt] lines of the text in the order of the
    lines: the floats of all the tokens of a [vn] or [vt] line, of the
    first three tokens of a [v] line (of all of them when there are at
    most three) and, in the color table, of the tokens after the
    third. *)
Theorem tables_list_declarations
    (text : string) (s s' : State) (r : ParseResult) (k : Attr) :
  ParseObjFile text s = Ok (r, s') ->
  tableOf k s' = tableOf k s ++ flat_map (declares k) (JS.split newline text).
Proof.
  intros H. apply ParseObjFile_accounts in H as (s1 & (Ht & _) & _ & _ & Hs).
  now rewrite Hs, Ht.
Qed.

(** X3. The [materialLibs] that a call returns are those the module
    held before, followed by the raw argument text of each [mtllib]
    line of the text, one entry per line, in the order of the lines. *)
Theorem material_libraries_in_order
    (text : string) (s s' : State) (r : ParseResult) :
  ParseObjFile text s = Ok (r, s') ->
  r_materialLibs r
  = materialLibs s ++ flat_map librariesOf (JS.split newline text).
Proof.
  intros H. apply ParseObjFile_accounts in H as (s1 & (_ & Hl & _) & _ & Hm & _).
  now rewrite Hm, Hl.
Qed.

Lemma valuesExtend_cleanup g g1 :
  arraysExtend g g1 -> valuesExtend g (removeEmptyArrays g1).
Proof.
  intros H k x xs Hk. specialize (H k). rewrite Hk in H. destruct H as [more E].
  exists more. rewrite getAttr_removeEmptyArrays, E. reflexivity.
Qed.

(** X4. A call never removes or retags a geometry and never changes a
    value it holds: every geometry of the module before the call is
    returned at the same place with the same object, groups and
    material, and each of its arrays that held values holds them
    still, followed by what the call emitted.  The call adds at most
    one geometry per [f] line of the text. *)
Theorem geometries_are_kept
    (text : string) (s s' : State) (r : ParseResult) :
  ParseObjFile text s = Ok (r, s') ->
  (forall j g, geometries s !! j = Some g ->
     exists g', r_geometries r !! j = Some g' /\ sameTags g g' /\ valuesExtend g g') /\
  length (geometries s) <= length (r_geometries r) /\
  length (r_geometries r)
  <= length (geometries s) + length (List.filter isFaceLine (JS.split newline text)).
Proof.
  intros H. apply ParseObjFile_accounts in H as (s1 & (_ & _ & Hg & Hn) & Hr & _ & _).
  assert (Hkeep : forall j g, geometries s !! j = Some g ->
            exists g', r_geometries r !! j = Some g' /\ sameTags g g' /\ valuesExtend g g').
  { intros j g Hj. destruct (Hg j g Hj) as (g1 & Hj1 & Ht & Ha).
    exists (removeEmptyArrays g1). rewrite Hr, list_lookup_fmap, Hj1.
    split; [reflexivity|]. split; [exact Ht | now apply valuesExtend_cleanup]. }
  split; [exact Hkeep|]. rewrite Hr, length_map. split; [|exact Hn].
  destruct (le_lt_dec (length (geometries s)) (length (geometries s1))) as [Hle|Hlt];
    [exact Hle|].
  destruct (lookup_lt_is_Some_2 (geometries s) (length (geometries s1)) Hlt) as [g Hj].
  destruct (Hg _ g Hj) as (g1 & Hj1 & _). apply lookup_lt_Some in Hj1. lia.
Qed.

End CallAccounting.

Section CallAccountingAtDecimal.
Local Existing Instance decimalFloat.

Lemma tables_list_declarations_witness :
  ParseObjFile sceneText initialState
  = Ok (mkResult sceneGeometries ["a b.mtl"], sceneState) /\
  tableOf Position sceneState
  = tableOf Position initialState
    ++ flat_map (declares Position) (JS.split newline sceneText).
Proof.
  split; [exact scene_parse|].
  exact (tables_list_declarations sceneText initialState sceneState
           (mkResult sceneGeometries ["a b.mtl"]) Position scene_parse).
Defined.

Lemma material_libraries_in_order_witness :
  ParseObjFile sceneText initialState
  = Ok (mkResult sceneGeometries ["a b.mtl"], sceneState) /\
  r_materialLibs (mkResult sceneGeometries ["a b.mtl"])
  = materialLibs initialState ++ flat_map librariesOf (JS.split newline sceneText).
Proof.
  split; [exact scene_parse|].
  exact (material_libraries_in_order sceneText initialState sceneState
           (mkResult sceneGeometries ["a b.mtl"]) scene_parse).
Defined.

Lemma geometries_are_kept_witness :
  let r := mkResult sceneGeometries ["a b.mtl"] in
  ParseObjFile sceneText initialState = Ok (r, sceneState) /\
  ((forall j g, geometries initialState !! j = Some g ->
      exists g', r_geometries r !! j = Some g' /\ sameTags g g' /\ valuesExtend g g') /\
   length (geometries initialState) <= length (r_geometries r) /\
   length (r_geometries r)
   <= length (geometries initialState)
      + length (List.filter isFaceLine (JS.split newline sceneText))).
Proof.
  intros r. split; [exact scene_parse|].
  exact (geometries_are_kept sceneText initialState sceneState r scene_parse).
Defined.

End CallAccountingAtDecimal.

(** ** Faces and the current geometry *)

Section LazyGeometries.
Context {F : JSFloat}.
Implicit Types (s : State) (g : Geometry).

Lemma newGeometry_closes s x xs :
  currentArray Position s = Some (x :: xs) -> newGeometry s = Ok (set_geometry None s).
Proof.
  unfold currentArray, currentGeometry, newGeometry.
  destruct (geometry s) as [r|]; [|discriminate]. simpl.
  destruct (geometries s !! r) as [g|]; [|discriminate]. simpl.
  now intros ->.
Qed.

Lemma stateLine_closes line s s1 x xs :
  isStateLine line = true -> currentArray Position s = Some (x :: xs) ->
  objLine line s = Ok s1 ->
  geometry s1 = None /\ geometries s1 = geometries s /\
  forall g, g_object g = object s1 -> g_groups g = groups s1 ->
    g_material g = material s1 -> retagged line s g.
Proof.
  intros Hl Hp Hrun. unfold isStateLine, retagged in *.
  destruct (lineKeyword line) as [kw|] eqn:Hk; [|discriminate].
  assert (Hkw : kw = "usemtl" \/ kw = "g" \/ kw = "o").
  { destruct (String.eqb_spec kw "usemtl"); [now left|].
    destruct (String.eqb_spec kw "g"); [now right; left|].
    destruct (String.eqb_spec kw "o"); [now right; right | discriminate]. }
  destruct Hkw as [-> | [-> | ->]];
    rewrite (objLine_own line _ _ Hk eq_refl) in Hrun;
    unfold keyword_usemtl, keyword_g, keyword_o in Hrun;
    apply andThen_inv in Hrun as (t & [= <-] & Hg);
    (rewrite newGeometry_closes with (x := x) (xs := xs) in Hg by exact Hp);
    injection Hg as <-; simpl; repeat split; congruence.
Qed.

(** X5. A face line uses the current geometry when there is one, and
    otherwise creates exactly one geometry, tagged with the object,
    groups and material current at that moment.  After a face that
    emitted a position, a [usemtl], [g] or [o] line makes the next
    face create a geometry that carries the name the line has set. *)
Theorem faces_fill_geometries_lazily (face : string) (s1 s2 : State) :
  lineKeyword face = Some "f" ->
  objLine face s1 = Ok s2 ->
  (forall r, geometry s1 = Some r ->
     geometry s2 = Some r /\ length (geometries s2) = length (geometries s1)) /\
  (geometry s1 = None ->
     geometry s2 = Some (length (geometries s1)) /\
     length (geometries s2) = S (length (geometries s1)) /\
     exists g, geometries s2 !! length (geometries s1) = Some g /\
       g_object g = object s1 /\ g_groups g = groups s1 /\
       g_material g = material s1) /\
  (forall line s x xs,
     isStateLine line = true -> currentArray Position s = Some (x :: xs) ->
     objLine line s = Ok s1 ->
     length (geometries s2) = S (length (geometries s)) /\
     exists g, geometries s2 !! length (geometries s) = Some g /\ retagged line s g).
Proof.
  intros Hk Hrun. rewrite (objLine_own face "f" keyword_f Hk eq_refl) in Hrun.
  apply keyword_f_inv in Hrun as (s0 & H0 & Hp).
  destruct Hp as (_ & G1 & _ & _ & _ & _ & _ & N1 & W1).
  apply setGeometry_inv in H0 as (_ & _ & _ & _ & _ & Hcase).
  assert (Hnew : geometry s1 = None ->
            geometry s2 = Some (length (geometries s1)) /\
            length (geometries s2) = S (length (geometries s1)) /\
            exists g, geometries s2 !! length (geometries s1) = Some g /\
              g_object g = object s1 /\ g_groups g = groups s1 /\
              g_material g = material s1).
  { intros Hnone. destruct Hcase as [(r & Hr & _) | (_ & Hg0 & E)]; [congruence|].
    split; [congruence|]. split; [rewrite N1, E, length_app; simpl; lia|].
    destruct (W1 (length (geometries s1))
                (mkGeometry (object s1) (groups s1) (material s1)
                   (mkData (Some []) (Some []) (Some []) (Some []))))
      as (g & Hj & (Ho & Hgr & Hm) & _).
    { rewrite E. now rewrite list_lookup_middle. }
    exists g. repeat split; assumption. }
  split; [|split; [exact Hnew|]].
  - intros r Hr. destruct Hcase as [(r' & _ & ->) | (Hnone & _)]; [|congruence].
    split; congruence.
  - intros line s x xs Hl Hpos Hline.
    destruct (stateLine_closes line s s1 x xs Hl Hpos Hline) as (Hnone & Hgs & Htag).
    destruct (Hnew Hnone) as (_ & Hlen & g & Hj & Ho & Hgr & Hm).
    rewrite Hgs in *. split; [exact Hlen|]. exists g. split; [exact Hj|].
    now apply Htag.
Qed.

End LazyGeometries.

Section LazyGeometriesAtDecimal.
Local Existing Instance decimalFloat.

Lemma faces_fill_geometries_lazily_witness :
  let s1 := set_objPositions
              [[zero; zero; zero]; map parseFloat ["0"; "0"; "0"]] initialState in
  let s2 := set_geometry (Some 0)
              (set_geometries
                 [mkGeometry (Some "default") ["default"] (Some "default")
                    (mkData (Some (map parseFloat
                                     ["0"; "0"; "0"; "0"; "0"; "0"; "0"; "0"; "0"]))
                       (Some []) (Some []) (Some []))] s1) in
  (lineKeyword "f 1 1 1" = Some "f" /\ objLine "f 1 1 1" s1 = Ok s2) /\
  ((forall r, geometry s1 = Some r ->
      geometry s2 = Some r /\ length (geometries s2) = length (geometries s1)) /\
   (geometry s1 = None ->
      geometry s2 = Some (length (geometries s1)) /\
      length (geometries s2) = S (length (geometries s1)) /\
      exists g, geometries s2 !! length (geometries s1) = Some g /\
        g_object g = object s1 /\ g_groups g = groups s1 /\
        g_material g = material s1) /\
   (forall line s x xs,
      isStateLine line = true -> currentArray Position s = Some (x :: xs) ->
      objLine line s = Ok s1 ->
      length (geometries s2) = S (length (geometries s)) /\
      exists g, geometries s2 !! length (geometries s) = Some g /\ retagged line s g)).
Proof.
  intros s1 s2.
  assert (H1 : lineKeyword "f 1 1 1" = Some "f") by reflexivity.
  assert (H2 : objLine "f 1 1 1" s1 = Ok s2) by reflexivity.
  split; [split; assumption|].
  exact (faces_fill_geometries_lazily "f 1 1 1" s1 s2 H1 H2).
Defined.

End LazyGeometriesAtDecimal.

(** ** The material parser as a whole *)

Section MtlRuns.
Context {F : JSFloat}.
Implicit Types (s t : MtlState).

Lemma mtlKeywords_newmtl_only kw h :
  mtlKeywords kw = Some h -> kw <> "newmtl" -> kw ∈ propertyKeywords.
Proof. intros H Hne. destruct (mtlKeywords_inv kw h H); [contradiction | assumption]. Qed.

Lemma propertyKeywords_handled kw :
  kw ∈ propertyKeywords -> kw <> "newmtl" /\ is_Some (mtlKeywords kw).
Proof.
  unfold propertyKeywords. rewrite !elem_of_cons, elem_of_nil. intros H.
  repeat (destruct H as [-> | H]; [split; [discriminate | eexists; reflexivity] |]).
  contradiction.
Qed.

Lemma not_property_unhandled kw :
  kw <> "newmtl" -> kw ∉ propertyKeywords -> mtlKeywords kw = None.
Proof.
  intros Hn Hp. destruct (mtlKeywords kw) as [h|] eqn:E; [|reflexivity].
  destruct (mtlKeywords_inv kw h E); contradiction.
Qed.

(** The loop runs through exactly the texts that [mtlSafe] accepts. *)
Lemma lines_run opened lines s :
  (opened = true -> is_Some (currentRecord s)) ->
  (opened = false -> Unopened s) ->
  isOk (forEach mtlLine lines s) = mtlSafe opened lines.
Proof.
  revert opened s. induction lines as [|line rest IH]; intros opened s Ho Hu;
    [reflexivity|].
  simpl. destruct (lineKeyword line) as [kw|] eqn:Hk.
  - destruct (String.eqb_spec kw "newmtl") as [-> | Hn].
    + destruct (newmtl_opens line s Hk) as (s1 & H1 & Hc).
      rewrite (andThen_ok _ _ _ _ H1). apply IH; [|discriminate].
      intros _. rewrite Hc. eauto.
    + destruct (bool_decide_reflect (kw ∈ propertyKeywords)) as [Hp | Hp].
      * destruct opened.
        -- destruct (Ho eq_refl) as [m Hm].
           destruct (mtlKeywords_property kw Hp) as (h & Hh & Hset).
           destruct (Hset (lineValue line) (lineRaw line)) as (name & v & E).
           destruct (setProperty_current name v s m Hm) as (s1 & H1 & Hc & _).
           assert (Hrun : mtlLine line s = Ok s1).
           { unfold mtlLine. rewrite (processLine_own _ _ _ _ _ Hk Hh), E. exact H1. }
           rewrite (andThen_ok _ _ _ _ Hrun). simpl. apply IH; [|discriminate].
           intros _. rewrite Hc. eauto.
        -- rewrite (andThen_throw _ _ _ _
                      (property_line_unopened line kw s (Hu eq_refl) Hk Hp)).
           reflexivity.
      * pose proof (not_property_unhandled kw Hn Hp) as Hh.
        destruct (objectPrototype kw) as [m|] eqn:Hm.
        -- unfold andThen, mtlLine.
           rewrite (processLine_inherited _ _ _ _ _ _ Hk Hh Hm).
           unfold inheritedReturns.
           destruct m; simpl; unfold skip; try reflexivity; now apply IH.
        -- unfold andThen, mtlLine. rewrite (processLine_unknown _ _ _ _ _ Hk Hh Hm).
           apply IH.
           ++ intros E. exact (Ho E).
           ++ intros E. exact (Hu E).
  - unfold andThen, mtlLine. rewrite (processLine_blank _ _ _ Hk). unfold skip.
    now apply IH.
Qed.

Lemma material_file_runs_gen (text : string) :
  isOk (ParseMaterialFile text) = mtlSafe false (JS.split newline text).
Proof.
  unfold ParseMaterialFile.
  rewrite <- (lines_run false (JS.split newline text) mtlInitialState).
  - now destruct (forEach mtlLine (JS.split newline text) mtlInitialState).
  - discriminate.
  - intros _. split; reflexivity.
Qed.

(** X6. [ParseMaterialFile] returns exactly for the texts in which no
    property line comes before the first [newmtl] line and no line has
    as its keyword the name of an inherited member whose call throws;
    every other text makes it throw. *)
Theorem material_file_runs (text : string) :
  isOk (ParseMaterialFile text) = mtlSafe false (JS.split newline text).
Proof. apply material_file_runs_gen. Qed.

End MtlRuns.

Section MtlNames.
Context {F : JSFloat}.
#[local] Set Warnings "-clear-no-such-hyp".
Implicit Types (s t : MtlState).

Lemma setProperty_keeps_names name v s s' :
  setProperty name v s = Ok s' ->
  dom (own (materials s')) = dom (own (materials s)).
Proof.
  unfold setProperty.
  destruct (materialAt (materials s) (index s)) as [k m|m| | |] eqn:E;
    try discriminate; intros [= <-]; try reflexivity.
  apply materialAt_own in E as (_ & _ & Ho). simpl.
  rewrite dom_insert_L.
  assert (k ∈ dom (own (materials s))) by (apply elem_of_dom; eauto).
  set_solver.
Qed.

Lemma mtlLine_names line s s' :
  mtlLine line s = Ok s' ->
  dom (own (materials s'))
  = dom (own (materials s)) ∪ list_to_set (declaredNames line).
Proof.
  intros Hrun. unfold mtlLine in Hrun. unfold declaredNames.
  destruct (lineKeyword line) as [kw|] eqn:Hk.
  - destruct (mtlKeywords kw) as [h|] eqn:Hh.
    + destruct (mtlKeywords_inv _ _ Hh) as [-> | Hp].
      * rewrite (processLine_own _ _ _ _ keyword_newmtl Hk eq_refl) in Hrun.
        unfold keyword_newmtl in Hrun. cbn [index set_index] in Hrun.
        change (String.eqb "newmtl" "newmtl") with true. cbv iota.
        destruct (String.eqb (propertyKey (lineValue line !! 0)) "__proto__");
          injection Hrun as <-; simpl.
        -- set_solver.
        -- rewrite dom_insert_L. set_solver.
      * destruct (propertyKeywords_handled kw Hp) as (Hn & _).
        apply String.eqb_neq in Hn. rewrite Hn.
        destruct (mtlKeywords_property kw Hp) as (h' & Hh' & Hset).
        rewrite Hh in Hh'. injection Hh' as <-.
        rewrite (processLine_own _ _ _ _ _ Hk Hh) in Hrun.
        destruct (Hset (lineValue line) (lineRaw line)) as (name & v & E).
        rewrite E in Hrun. rewrite (setProperty_keeps_names _ _ _ _ Hrun).
        set_solver.
    + assert (Hn : String.eqb kw "newmtl" = false).
      { apply String.eqb_neq. intros ->. discriminate. }
      rewrite Hn.
      destruct (objectPrototype kw) as [p|] eqn:Hp.
      * rewrite (processLine_inherited _ _ _ _ _ _ Hk Hh Hp) in Hrun.
        apply callInherited_inv in Hrun. subst. set_solver.
      * rewrite (processLine_unknown _ _ _ _ _ Hk Hh Hp) in Hrun.
        injection Hrun as <-. simpl. set_solver.
  - rewrite (processLine_blank _ _ _ Hk) in Hrun. injection Hrun as <-. set_solver.
Qed.

Lemma lines_names lines s s' :
  forEach mtlLine lines s = Ok s' ->
  dom (own (materials s'))
  = dom (own (materials s)) ∪ list_to_set (flat_map declaredNames lines).
Proof.
  revert s. induction lines as [|line rest IH]; intros s Hrun; simpl in *.
  - injection Hrun as <-. set_solver.
  - apply andThen_inv in Hrun as (s1 & H1 & H2).
    rewrite (IH _ H2), (mtlLine_names _ _ _ H1), list_to_set_app_L. set_solver.
Qed.

(** X7. The own keys of the object that [ParseMaterialFile] returns
    are exactly the names declared by the [newmtl] lines of the text,
    where a line without a name declares ["undefined"] and the name
    [__proto__] creates no key. *)
Theorem materials_are_the_declared_names (text : string) (ms : Materials) :
  ParseMaterialFile text = Ok ms ->
  dom (own ms) = list_to_set (flat_map declaredNames (JS.split newline text)).
Proof.
  unfold ParseMaterialFile.
  destruct (forEach mtlLine (JS.split newline text) mtlInitialState) as [s|e] eqn:E;
    [|discriminate].
  intros [= <-]. rewrite (lines_names _ _ _ E). simpl. rewrite dom_empty_L. set_solver.
Qed.

Lemma declared_names_sample :
  ParseMaterialFile (unlines ["newmtl"; "Kd 1 0 0"; "newmtl __proto__"; "newmtl wood"])
  = Ok (mkMaterials
          (<["wood" := ∅]>
             (<["undefined" :=
                  <["diffuse" := VArray (map parseFloat ["1"; "0"; "0"])]> ∅]> ∅))
          (Some ∅)).
Proof. vm_compute. reflexivity. Qed.

End MtlNames.

Section MtlNamesAtDecimal.
Local Existing Instance decimalFloat.

Lemma materials_are_the_declared_names_witness :
  let text := unlines ["newmtl"; "Kd 1 0 0"; "newmtl __proto__"; "newmtl wood"] in
  let ms := mkMaterials
              (<["wood" := ∅]>
                 (<["undefined" :=
                      <["diffuse" := VArray (map parseFloat ["1"; "0"; "0"])]> ∅]> ∅))
              (Some ∅) in
  ParseMaterialFile text = Ok ms /\
  dom (own ms) = list_to_set (flat_map declaredNames (JS.split newline text)).
Proof.
  intros text ms.
  assert (H : ParseMaterialFile text = Ok ms) by exact declared_names_sample.
  split; [exact H|].
  exact (materials_are_the_declared_names text ms H).
Defined.

End MtlNamesAtDecimal.

Section MtlRecords.
Context {F : JSFloat}.
Implicit Types (s t : MtlState).

(** Two writes through [materials[index]] in a row. *)
Lemma setProperty_twice n1 v1 n2 v2 s :
  (setProperty n1 v1 >>> setProperty n2 v2) s =
  match materialAt (materials s) (index s) with
  | OwnRecord k m =>
      Ok (set_materials
            (mkMaterials (<[k := <[n2 := v2]> (<[n1 := v1]> m)]> (own (materials s)))
               (proto (materials s))) s)
  | ProtoRecord m =>
      Ok (set_materials
            (mkMaterials (own (materials s)) (Some (<[n2 := v2]> (<[n1 := v1]> m)))) s)
  | OtherObject => Ok s
  | Primitive => Throw WriteOnPrimitive
  | Undefined => Throw WriteOnUndefined
  end.
Proof.
  unfold andThen, setProperty at 1.
  destruct (materialAt (materials s) (index s)) as [k m|m| | |] eqn:E; try reflexivity.
  - apply materialAt_own in E as (-> & Hk & Ho).
    unfold setProperty, materialAt. simpl. rewrite Hk, lookup_insert_eq.
    unfold set_materials. simpl. now rewrite insert_insert_eq.
  - apply materialAt_proto in E as (Hk & Hp).
    unfold setProperty, materialAt. simpl. now rewrite Hk.
  - unfold setProperty. now rewrite E.
Qed.

Lemma setProperty_commute n1 v1 n2 v2 s :
  n1 <> n2 ->
  (setProperty n1 v1 >>> setProperty n2 v2) s
  = (setProperty n2 v2 >>> setProperty n1 v1) s.
Proof.
  intros Hne. rewrite !setProperty_twice.
  destruct (materialAt (materials s) (index s)); try reflexivity;
    now rewrite (insert_insert_ne _ n1 n2) by exact Hne.
Qed.

Lemma setProperty_override n v1 v2 s :
  (setProperty n v1 >>> setProperty n v2) s = setProperty n v2 s.
Proof.
  rewrite setProperty_twice. unfold setProperty.
  destruct (materialAt (materials s) (index s)); try reflexivity;
    now rewrite insert_insert_eq.
Qed.

Lemma forEach_two {St A} (f : A -> Action St) x y (s : St) :
  forEach f [x; y] s = (f x >>> f y) s.
Proof. simpl. unfold andThen, skip. destruct (f x s); [|reflexivity]. now destruct (f y _). Qed.

Lemma forEach_one {St A} (f : A -> Action St) x (s : St) : forEach f [x] s = f x s.
Proof. simpl. unfold andThen, skip. now destruct (f x s). Qed.

(** X8. Two property lines with different keywords can be exchanged,
    and of two property lines with the same keyword the second alone
    has the same effect: every keyword writes a property of its own,
    and a write replaces what the property held.  This includes the
    runs that throw, which throw the same exception. *)
Theorem property_lines_commute (l1 l2 k1 k2 : string) (s : MtlState) :
  lineKeyword l1 = Some k1 -> lineKeyword l2 = Some k2 ->
  k1 ∈ propertyKeywords -> k2 ∈ propertyKeywords ->
  (k1 <> k2 -> forEach mtlLine [l1; l2] s = forEach mtlLine [l2; l1] s) /\
  (k1 = k2 -> forEach mtlLine [l1; l2] s = forEach mtlLine [l2] s).
Proof.
  intros Hk1 Hk2 Hp1 Hp2. rewrite !forEach_two, forEach_one. unfold mtlLine.
  unfold propertyKeywords in Hp1, Hp2. rewrite !elem_of_cons, elem_of_nil in Hp1, Hp2.
  repeat (destruct Hp1 as [-> | Hp1]); try contradiction;
    rewrite (processLine_own _ _ l1 _ _ Hk1 eq_refl);
    (repeat (destruct Hp2 as [-> | Hp2])); try contradiction;
    rewrite (processLine_own _ _ l2 _ _ Hk2 eq_refl);
    (split; [intros Hne | intros Heq]);
    try congruence; try discriminate;
    try (apply setProperty_commute; discriminate);
    apply setProperty_override.
Qed.

(** The record that [materials[index]] designates, after a write. *)
Lemma setProperty_target name v s s' :
  is_Some (currentRecord s) -> setProperty name v s = Ok s' ->
  index s' = index s /\
  materialAt (materials s') (index s')
  = match materialAt (materials s) (index s) with
    | OwnRecord k m => OwnRecord k (<[name := v]> m)
    | ProtoRecord m => ProtoRecord (<[name := v]> m)
    | other => other
    end.
Proof.
  unfold currentRecord, setProperty. intros [m0 Hm].
  destruct (materialAt (materials s) (index s)) as [k m|m| | |] eqn:E;
    try discriminate; intros [= <-]; (split; [reflexivity|]).
  - apply materialAt_own in E as (-> & Hk & Ho).
    unfold materialAt. simpl. now rewrite Hk, lookup_insert_eq.
  - apply materialAt_proto in E as (Hk & Hp).
    unfold materialAt. simpl. now rewrite Hk.
Qed.

Lemma sameTarget_line line s t s' :
  lineKeyword line <> Some "newmtl" -> sameTarget s t ->
  mtlLine line s = Ok s' ->
  exists t', mtlLine line t = Ok t' /\ sameTarget s' t'.
Proof.
  intros Hn (Hi & Hm & Hc) Hrun. unfold mtlLine in *.
  destruct (lineKeyword line) as [kw|] eqn:Hk.
  - destruct (mtlKeywords kw) as [h|] eqn:Hh.
    + destruct (mtlKeywords_inv _ _ Hh) as [-> | Hp]; [congruence|].
      destruct (mtlKeywords_property kw Hp) as (h' & Hh' & Hset).
      rewrite Hh in Hh'. injection Hh' as <-.
      rewrite (processLine_own _ _ _ _ _ Hk Hh) in *.
      destruct (Hset (lineValue line) (lineRaw line)) as (name & v & E).
      rewrite E in *.
      assert (Hct : is_Some (currentRecord t)).
      { unfold currentRecord in *. now rewrite <- Hm. }
      destruct Hct as [m Hct].
      destruct (setProperty_current name v t m Hct) as (t' & Ht & _).
      exists t'. split; [exact Ht|].
      destruct (setProperty_target name v s s' Hc Hrun) as (Hi1 & Hm1).
      destruct (setProperty_target name v t t' (ex_intro _ m Hct) Ht) as (Hi2 & Hm2).
      repeat split.
      * congruence.
      * rewrite Hm1, Hm2, Hm. reflexivity.
      * destruct Hc as [m1 Hc].
        destruct (setProperty_current name v s m1 Hc) as (s1 & H1 & Hc1 & _).
        rewrite H1 in Hrun. injection Hrun as <-. rewrite Hc1. eauto.
    + destruct (objectPrototype kw) as [p|] eqn:Hp.
      * rewrite (processLine_inherited _ _ _ _ _ _ Hk Hh Hp) in Hrun.
        rewrite (processLine_inherited _ _ _ _ _ _ Hk Hh Hp).
        pose proof (callInherited_inv _ _ _ Hrun) as ->.
        exists t. split; [|repeat split; assumption].
        destruct p; simpl in *; unfold skip in *; congruence.
      * rewrite (processLine_unknown _ _ _ _ _ Hk Hh Hp) in Hrun.
        rewrite (processLine_unknown _ _ _ _ _ Hk Hh Hp).
        injection Hrun as <-. eexists. split; [reflexivity|].
        repeat split; assumption.
  - rewrite (processLine_blank _ _ _ Hk) in *. injection Hrun as <-.
    exists t. split; [reflexivity | repeat split; assumption].
Qed.

Lemma sameTarget_lines lines s t s' :
  Forall (fun l => lineKeyword l <> Some "newmtl") lines -> sameTarget s t ->
  forEach mtlLine lines s = Ok s' ->
  exists t', forEach mtlLine lines t = Ok t' /\ sameTarget s' t'.
Proof.
  intros Hall. revert s t. induction Hall as [|l lines Hl _ IH]; intros s t HR Hrun.
  - injection Hrun as <-. exists t. split; [reflexivity | exact HR].
  - simpl in Hrun. apply andThen_inv in Hrun as (s1 & H1 & H2).
    destruct (sameTarget_line l s t s1 Hl HR H1) as (t1 & Ht1 & HR1).
    destruct (IH s1 t1 HR1 H2) as (t' & Ht' & HR').
    exists t'. split; [|exact HR']. simpl. now rewrite (andThen_ok _ _ _ _ Ht1).
Qed.

Lemma newmtl_target line s s' :
  lineKeyword line = Some "newmtl" -> mtlLine line s = Ok s' ->
  index s' = lineValue line !! 0 /\
  materialAt (materials s') (index s')
  = (if String.eqb (propertyKey (lineValue line !! 0)) "__proto__"
     then ProtoRecord ∅ else OwnRecord (propertyKey (lineValue line !! 0)) ∅).
Proof.
  intros Hk. unfold mtlLine.
  rewrite (processLine_own _ _ _ _ keyword_newmtl Hk eq_refl).
  unfold keyword_newmtl. cbn [index set_index].
  destruct (String.eqb (propertyKey (lineValue line !! 0)) "__proto__") eqn:E;
    intros [= <-]; (split; [reflexivity|]); unfold materialAt; simpl; rewrite E;
    [reflexivity|].
  now rewrite lookup_insert_eq.
Qed.

Lemma property_lines_keep_index lines s s' :
  Forall (fun l => lineKeyword l <> Some "newmtl") lines ->
  forEach mtlLine lines s = Ok s' -> index s' = index s.
Proof.
  intros Hall. revert s. induction Hall as [|l lines Hl _ IH]; intros s Hrun.
  - now injection Hrun as <-.
  - simpl in Hrun. apply andThen_inv in Hrun as (s1 & H1 & H2).
    rewrite (IH _ H2). clear IH H2. unfold mtlLine in H1.
    destruct (lineKeyword l) as [kw|] eqn:Hk.
    + destruct (mtlKeywords kw) as [h|] eqn:Hh.
      * destruct (mtlKeywords_inv _ _ Hh) as [-> | Hp]; [congruence|].
        destruct (mtlKeywords_property kw Hp) as (h' & Hh' & Hset).
        rewrite Hh in Hh'. injection Hh' as <-.
        rewrite (processLine_own _ _ _ _ _ Hk Hh) in H1.
        destruct (Hset (lineValue l) (lineRaw l)) as (name & v & E).
        rewrite E in H1. unfold setProperty in H1.
        destruct (materialAt (materials s) (index s)); try discriminate;
          now injection H1 as <-.
      * destruct (objectPrototype kw) as [p|] eqn:Hp.
        -- rewrite (processLine_inherited _ _ _ _ _ _ Hk Hh Hp) in H1.
           now rewrite (callInherited_inv _ _ _ H1).
        -- rewrite (processLine_unknown _ _ _ _ _ Hk Hh Hp) in H1.
           now injection H1 as <-.
    + rewrite (processLine_blank _ _ _ Hk) in H1. now injection H1 as <-.
Qed.

(** X9. The record of the material declared last is built from the
    lines that follow its [newmtl] line alone: a [newmtl] line starts
    from an empty record even when the name was declared before, and
    what [materials[name]] holds at the end is what the same lines
    produce when nothing precedes them. *)
Theorem last_material_starts_afresh
    (text : string) (pre : list string) (line : string) (post : list string)
    (ms : Materials) :
  JS.split newline text = pre ++ line :: post ->
  lineKeyword line = Some "newmtl" ->
  Forall (fun l => lineKeyword l <> Some "newmtl") post ->
  ParseMaterialFile text = Ok ms ->
  exists t, forEach mtlLine (line :: post) mtlInitialState = Ok t /\
    materialAt ms (lineValue line !! 0)
    = materialAt (materials t) (lineValue line !! 0) /\
    (forall s, forEach mtlLine pre mtlInitialState = Ok s ->
       exists s1, mtlLine line s = Ok s1 /\ currentRecord s1 = Some ∅).
Proof.
  intros Hsplit Hk Hpost. unfold ParseMaterialFile. rewrite Hsplit.
  destruct (forEach mtlLine (pre ++ line :: post) mtlInitialState) as [s|e] eqn:E;
    [|discriminate].
  intros [= <-]. rewrite forEach_app in E. apply andThen_inv in E as (s0 & H0 & E).
  simpl in E. apply andThen_inv in E as (s1 & H1 & H2).
  destruct (newmtl_opens line mtlInitialState Hk) as (t1 & Ht1 & Hct1).
  destruct (newmtl_opens line s0 Hk) as (s1' & Hs1 & Hcs1).
  rewrite H1 in Hs1. injection Hs1 as <-.
  destruct (newmtl_target line s0 s1 Hk H1) as (Hi1 & Hm1).
  destruct (newmtl_target line mtlInitialState t1 Hk Ht1) as (Hi2 & Hm2).
  assert (HR : sameTarget s1 t1).
  { repeat split; [congruence | now rewrite Hm1, Hm2 | rewrite Hcs1; eauto]. }
  destruct (sameTarget_lines post s1 t1 s Hpost HR H2) as (t & Ht & (Hi & Hm & _)).
  exists t. split; [simpl; now rewrite (andThen_ok _ _ _ _ Ht1)|]. split.
  - rewrite <- Hi1, <- (property_lines_keep_index post s1 s Hpost H2).
    rewrite Hm, Hi. reflexivity.
  - intros s' Hs'. apply (newmtl_opens line s' Hk).
Qed.

Lemma redeclared_sample :
  ParseMaterialFile (unlines ["newmtl a"; "Kd 1 0 0"; "newmtl a"; "Ns 5"])
  = Ok (mkMaterials (<["a" := <["shininess" := VNumber (parseFloat "5")]> ∅]> ∅) None).
Proof. vm_compute. reflexivity. Qed.

End MtlRecords.

Section MtlRecordsAtDecimal.
Local Existing Instance decimalFloat.

Lemma property_lines_commute_witness :
  let s := mkMtlState (mkMaterials {[ "X" := ∅ ]} None) (Some "X") [] in
  (lineKeyword "Kd 1 0 0" = Some "Kd" /\ lineKeyword "Ns 50" = Some "Ns" /\
   "Kd" ∈ propertyKeywords /\ "Ns" ∈ propertyKeywords) /\
  (("Kd" <> "Ns" ->
    forEach mtlLine ["Kd 1 0 0"; "Ns 50"] s = forEach mtlLine ["Ns 50"; "Kd 1 0 0"] s) /\
   ("Kd" = "Ns" ->
    forEach mtlLine ["Kd 1 0 0"; "Ns 50"] s = forEach mtlLine ["Ns 50"] s)).
Proof.
  intros s.
  assert (H1 : lineKeyword "Kd 1 0 0" = Some "Kd") by reflexivity.
  assert (H2 : lineKeyword "Ns 50" = Some "Ns") by reflexivity.
  assert (H3 : "Kd" ∈ propertyKeywords)
    by (unfold propertyKeywords; apply list_elem_of_In; simpl; tauto).
  assert (H4 : "Ns" ∈ propertyKeywords)
    by (unfold propertyKeywords; apply list_elem_of_In; simpl; tauto).
  split; [repeat split; assumption|].
  exact (property_lines_commute "Kd 1 0 0" "Ns 50" "Kd" "Ns" s H1 H2 H3 H4).
Defined.

Lemma last_material_starts_afresh_witness :
  let text := unlines ["newmtl a"; "Kd 1 0 0"; "newmtl a"; "Ns 5"] in
  let pre := ["newmtl a"; "Kd 1 0 0"] in
  let line := "newmtl a" in
  let post := ["Ns 5"] in
  let ms := mkMaterials (<["a" := <["shininess" := VNumber (parseFloat "5")]> ∅]> ∅)
              None in
  (JS.split newline text = pre ++ line :: post /\
   lineKeyword line = Some "newmtl" /\
   Forall (fun l => lineKeyword l <> Some "newmtl") post /\
   ParseMaterialFile text = Ok ms) /\
  (exists t, forEach mtlLine (line :: post) mtlInitialState = Ok t /\
     materialAt ms (lineValue line !! 0)
     = materialAt (materials t) (lineValue line !! 0) /\
     (forall s, forEach mtlLine pre mtlInitialState = Ok s ->
        exists s1, mtlLine line s = Ok s1 /\ currentRecord s1 = Some ∅)).
Proof.
  intros text pre line post ms.
  assert (H1 : JS.split newline text = pre ++ line :: post) by reflexivity.
  assert (H2 : lineKeyword line = Some "newmtl") by reflexivity.
  assert (H3 : Forall (fun l => lineKeyword l <> Some "newmtl") post)
    by (repeat constructor; vm_compute; discriminate).
  assert (H4 : ParseMaterialFile text = Ok ms) by exact redeclared_sample.
  split; [repeat split; assumption|].
  exact (last_material_starts_afresh text pre line post ms H1 H2 H3 H4).
Defined.

End MtlRecordsAtDecimal.

(** ** Sizes of textures *)

Section PowersOfTwo.
Open Scope Z_scope.

Lemma toInt32_small z : - 2 ^ 31 <= z < 2 ^ 31 -> toInt32 z = z.
Proof. intros H. unfold toInt32. rewrite Z.mod_small; lia. Qed.

Lemma land_pred_power k : 0 <= k -> Z.land (2 ^ k) (2 ^ k - 1) = 0.
Proof.
  intros Hk. replace (2 ^ k - 1) with (Z.ones k) by (rewrite Z.ones_equiv; lia).
  rewrite Z.land_ones by exact Hk. apply Z.mod_same. apply Z.pow_nonzero; lia.
Qed.

Lemma land_pred_zero v : 0 < v -> Z.land v (v - 1) = 0 -> v = 2 ^ Z.log2 v.
Proof.
  intros Hv Hl. pose proof (Z.log2_spec v Hv) as [Hlo Hhi].
  pose proof (Z.log2_nonneg v) as Hk.
  destruct (Z.eq_dec v (2 ^ Z.log2 v)) as [|Hne]; [assumption|exfalso].
  assert (Hpos : 0 < 2 ^ Z.log2 v) by (apply Z.pow_pos_nonneg; lia).
  assert (Hlog : Z.log2 (v - 1) = Z.log2 v) by (apply Z.log2_unique; lia).
  assert (Hb1 : Z.testbit v (Z.log2 v) = true) by (apply Z.bit_log2; lia).
  assert (Hb2 : Z.testbit (v - 1) (Z.log2 v) = true).
  { rewrite <- Hlog. apply Z.bit_log2. lia. }
  assert (Hb : Z.testbit (Z.land v (v - 1)) (Z.log2 v) = true).
  { rewrite Z.land_spec, Hb1, Hb2. reflexivity. }
  rewrite Hl, Z.bits_0 in Hb. discriminate.
Qed.

(** X10. On the sizes an image can have, [isPowerOf2] accepts exactly
    the powers of two and zero: zero passes the test although it is no
    power of two. *)
Theorem isPowerOf2_accepts (value : Z) :
  0 <= value < 2 ^ 31 ->
  isPowerOf2 value = true <-> value = 0 \/ exists k, 0 <= k /\ value = 2 ^ k.
Proof.
  intros Hv. unfold isPowerOf2.
  rewrite (toInt32_small value), (toInt32_small (value - 1)) by lia.
  rewrite Z.eqb_eq. split.
  - intros Hl. destruct (Z.eq_dec value 0) as [|Hne]; [now left|right].
    exists (Z.log2 value). split; [apply Z.log2_nonneg|].
    apply land_pred_zero; [lia | exact Hl].
  - intros [-> | (k & Hk & ->)]; [reflexivity|]. now apply land_pred_power.
Qed.

Lemma isPowerOf2_accepts_witness :
  0 <= 64 < 2 ^ 31 /\
  (isPowerOf2 64 = true <-> 64 = 0 \/ exists k, 0 <= k /\ 64 = 2 ^ k).
Proof.
  assert (H : 0 <= 64 < 2 ^ 31) by (split; [lia | reflexivity]).
  split; [exact H|]. exact (isPowerOf2_accepts 64 H).
Defined.

End PowersOfTwo.

(** ** Several material files *)

Section JoinedTexts.

Lemma split_nonempty sep s : JS.split sep s <> [].
Proof.
  destruct s as [|c s]; simpl; [discriminate|].
  destruct (JS.ascii_eqb c sep); [discriminate|].
  destruct (JS.split sep s); discriminate.
Qed.

Lemma split_append sep a b :
  JS.split sep (String.append a (String sep b)) = JS.split sep a ++ JS.split sep b.
Proof.
  induction a as [|c a IH].
  - simpl. unfold JS.ascii_eqb. now rewrite Nat.eqb_refl.
  - rewrite append_cons. simpl. destruct (JS.ascii_eqb c sep).
    + now rewrite IH.
    + rewrite IH. pose proof (split_nonempty sep a) as Hne.
      destruct (JS.split sep a); [contradiction | reflexivity].
Qed.

Lemma split_join sep x texts :
  JS.split sep (JS.join (String sep EmptyString) (x :: texts))
  = flat_map (JS.split sep) (x :: texts).
Proof.
  revert x. induction texts as [|y texts IH]; intros x.
  - simpl. now rewrite app_nil_r.
  - change (JS.join (String sep EmptyString) (x :: y :: texts))
      with (String.append x
              (String.append (String sep EmptyString)
                 (JS.join (String sep EmptyString) (y :: texts)))).
    rewrite append_cons, append_nil, split_append, IH. reflexivity.
Qed.

End JoinedTexts.

Section JoinedMaterials.
Context {F : JSFloat}.

(** X11. The material files of a model are parsed as one text, joined
    by line feeds: the lines of all the files go through one loop, so
    the record that is current at the end of a file receives the
    property lines at the head of the next one, and the parse returns
    exactly when the lines of all the files, taken together, are
    accepted. *)
Theorem material_files_are_parsed_as_one (texts : list string) :
  let lines := flat_map (JS.split newline) texts in
  ParseMaterialFile (JS.join (String newline EmptyString) texts)
  = match forEach mtlLine lines mtlInitialState with
    | Throw e => Throw e
    | Ok s => Ok (materials s)
    end /\
  isOk (ParseMaterialFile (JS.join (String newline EmptyString) texts))
  = mtlSafe false lines.
Proof.
  intros lines. rewrite material_file_runs_gen. unfold ParseMaterialFile, lines.
  destruct texts as [|x texts]; [split; reflexivity|].
  rewrite split_join. split; reflexivity.
Qed.

End JoinedMaterials.

(** ** The extents of the geometries *)

Section ExtentsProofs.
Context {F : JSFloat} {M : JSMath}.
Implicit Types (e acc : Extents) (g : Geometry).

(** The rounds of the loop of [getExtents] end by its condition:
    more fuel changes nothing. *)
Lemma extentsLoop_fuel positions n fuel i e :
  length positions <= fuel + i ->
  extentsLoop (fuel + n) positions i e = extentsLoop fuel positions i e.
Proof.
  revert i e. induction fuel as [|fuel IH]; intros i e Hlen.
  - simpl. destruct n as [|n]; [reflexivity|]. simpl.
    destruct (Nat.ltb_spec i (length positions)); [lia | reflexivity].
  - simpl. destruct (Nat.ltb_spec i (length positions)); [|reflexivity].
    apply IH. lia.
Qed.

(** The body of the loop runs on arrays of three elements, and leaves
    them so. *)
Lemma extents_start (positions : list num) :
  3 < length positions -> length (take 3 positions) = 3.
Proof. intros H. rewrite length_take. lia. Qed.

Lemma extentsAt_lengths positions i j e :
  length (e_min (extentsAt positions i j e)) = length (e_min e) /\
  length (e_max (extentsAt positions i j e)) = length (e_max e).
Proof. unfold extentsAt. simpl. now rewrite !length_insert. Qed.

Lemma extendBy_lengths g acc acc' :
  extendBy g acc = Ok acc' ->
  length (e_min acc') = length (e_min acc) /\ length (e_max acc') = length (e_max acc).
Proof.
  unfold extendBy. destruct (position (g_data g)); [|discriminate].
  intros [= <-]. simpl. now rewrite !length_imap.
Qed.

Lemma extendBy_runs gs acc :
  thrown (forEach extendBy gs acc)
  = (if forallb hasPositions gs then None else Some ReadOfUndefined).
Proof.
  revert acc. induction gs as [|g gs IH]; intros acc; [reflexivity|].
  simpl. unfold andThen, hasPositions at 1, extendBy at 1.
  destruct (position (g_data g)); [apply IH | reflexivity].
Qed.

Lemma extendBy_all_lengths gs acc acc' :
  forEach extendBy gs acc = Ok acc' ->
  length (e_min acc') = length (e_min acc) /\ length (e_max acc') = length (e_max acc).
Proof.
  revert acc. induction gs as [|g gs IH]; intros acc H; simpl in H.
  - injection H as <-. split; reflexivity.
  - apply andThen_inv in H as (a1 & H1 & H2).
    destruct (extendBy_lengths _ _ _ H1) as [E1 E2].
    destruct (IH _ H2) as [E3 E4]. split; congruence.
Qed.

(** X12. [getGeometriesExtents] throws exactly when one of the
    geometries has no [position] array, the exception being the read
    of [slice] on [undefined]; when it returns, [min] and [max] have
    three elements each, whatever the arrays hold. *)
Theorem extents_need_positions (gs : list Geometry) :
  thrown (getGeometriesExtents gs)
  = (if forallb hasPositions gs then None else Some ReadOfUndefined) /\
  (forall e, getGeometriesExtents gs = Ok e ->
     length (e_min e) = 3 /\ length (e_max e) = 3).
Proof.
  split; [apply extendBy_runs|].
  intros e H. apply extendBy_all_lengths in H. exact H.
Qed.

(** The three rounds of the inner loop on a full triple. *)
Lemma extentsAt_triple pre a b c post x y z x' y' z' :
  let positions := pre ++ [a; b; c] ++ post in
  let i := length pre in
  extentsAt positions i 2
    (extentsAt positions i 1 (extentsAt positions i 0 (mkExtents [x; y; z] [x'; y'; z'])))
  = mkExtents [Math_min a x; Math_min b y; Math_min c z]
      [Math_max a x'; Math_max b y'; Math_max c z'].
Proof.
  intros positions i. unfold extentsAt, positions, i. simpl.
  rewrite !lookup_app_r by lia.
  replace (length pre + 0 - length pre) with 0 by lia.
  replace (length pre + 1 - length pre) with 1 by lia.
  replace (length pre + 2 - length pre) with 2 by lia.
  reflexivity.
Qed.

Lemma extentsLoop_triples todo : forall pre e fuel,
  length todo <= fuel ->
  Forall (fun t => length t = 3) todo ->
  length (e_min e) = 3 -> length (e_max e) = 3 ->
  extentsLoop fuel (pre ++ concat todo) (length pre) e
  = mkExtents (foldl (fun col t => zip_with Math_min t col) (e_min e) todo)
      (foldl (fun col t => zip_with Math_max t col) (e_max e) todo).
Proof.
  induction todo as [|t todo IH]; intros pre e fuel Hfuel Hall Hmin Hmax.
  - simpl. rewrite app_nil_r. destruct e as [mn mx].
    destruct fuel; simpl; [reflexivity|].
    destruct (Nat.ltb_spec (length pre) (length pre)); [lia | reflexivity].
  - inversion Hall as [|? ? Ht Hall']; subst.
    destruct t as [|a [|b [|c [|]]]]; try discriminate.
    destruct e as [mn mx]. simpl in Hmin, Hmax.
    destruct mn as [|x [|y [|z [|]]]]; try discriminate.
    destruct mx as [|x' [|y' [|z' [|]]]]; try discriminate.
    destruct fuel as [|fuel]; [simpl in Hfuel; lia|].
    cbn [extentsLoop concat].
    destruct (Nat.ltb_spec (length pre) (length (pre ++ [a; b; c] ++ concat todo)))
      as [_|Hge]; [|rewrite length_app in Hge; simpl in Hge; lia].
    rewrite (extentsAt_triple pre a b c (concat todo)).
    replace (length pre + 3) with (length (pre ++ [a; b; c]))
      by (rewrite length_app; reflexivity).
    replace (pre ++ [a; b; c] ++ concat todo) with ((pre ++ [a; b; c]) ++ concat todo)
      by (now rewrite <- app_assoc).
    rewrite IH; [reflexivity | simpl in Hfuel; lia | exact Hall' | reflexivity..].
Qed.

(** X13. On an array made of whole triples, [getExtents] returns in
    [min] and [max] the fold of [Math.min] and of [Math.max] over each
    of the three columns, starting from the first triple; the later
    triples are the first arguments of the calls. *)
Theorem extents_fold_the_columns (first : list num) (rest : list (list num)) :
  length first = 3 ->
  Forall (fun t => length t = 3) rest ->
  getExtents (first ++ concat rest)
  = mkExtents (foldl (fun col t => zip_with Math_min t col) first rest)
      (foldl (fun col t => zip_with Math_max t col) first rest).
Proof.
  intros Hf Hall. unfold getExtents.
  rewrite take_app_length' by (symmetry; exact Hf).
  pose proof (extentsLoop_triples rest first (mkExtents first first)
                (length (first ++ concat rest))) as H.
  rewrite Hf in H. apply H; [| exact Hall | exact Hf | exact Hf].
  rewrite length_app, Hf. clear H Hf.
  induction Hall as [|t rest Ht _ IH]; simpl; [lia|].
  rewrite length_app. lia.
Qed.

End ExtentsProofs.

Section ExtentsOfParses.
Context {F : JSFloat} {M : JSMath}.

Lemma hasPositions_removeEmptyArrays g :
  hasPositions (removeEmptyArrays g) = hasCoordinates g.
Proof.
  unfold hasPositions, hasCoordinates, removeEmptyArrays. simpl.
  now destruct (position (g_data g)) as [[|]|].
Qed.

Lemma forallb_removeEmptyArrays gs :
  forallb hasPositions (map removeEmptyArrays gs) = forallb hasCoordinates gs.
Proof.
  induction gs as [|g gs IH]; [reflexivity|].
  simpl. now rewrite hasPositions_removeEmptyArrays, IH.
Qed.

(** X14. The extents of what [ParseObjFile] returns can be computed
    exactly when every geometry received a position coordinate: a
    geometry whose [position] array was still empty at the end of the
    lines has lost it in the cleanup, and [getGeometriesExtents]
    throws on it. *)
Theorem extents_need_a_coordinate
    (text : string) (s s' : State) (r : ParseResult) :
  ParseObjFile text s = Ok (r, s') ->
  exists s1, forEach objLine (JS.split newline text) s = Ok s1 /\
    thrown (getGeometriesExtents (r_geometries r))
    = (if forallb hasCoordinates (geometries s1) then None else Some ReadOfUndefined).
Proof.
  intros H. apply ParseObjFile_inv in H as (s1 & Hrun & Hg & _).
  exists s1. split; [exact Hrun|].
  unfold getGeometriesExtents. rewrite extendBy_runs, Hg.
  now rewrite forallb_removeEmptyArrays.
Qed.

End ExtentsOfParses.

Section ExtentsAtDecimal.
Local Existing Instance decimalFloat.
Local Existing Instance decimalMath.

Lemma extents_fold_the_columns_witness :
  let first := map parseFloat ["0"; "1"; "2"] in
  let rest := [map parseFloat ["3"; "-1"; "2"]] in
  (length first = 3 /\ Forall (fun t => length t = 3) rest) /\
  getExtents (first ++ concat rest)
  = mkExtents (foldl (fun col t => zip_with Math_min t col) first rest)
      (foldl (fun col t => zip_with Math_max t col) first rest).
Proof.
  intros first rest.
  assert (H1 : length first = 3) by reflexivity.
  assert (H2 : Forall (fun t => length t = 3) rest) by (repeat constructor).
  split; [split; assumption|].
  exact (extents_fold_the_columns first rest H1 H2).
Defined.

Lemma extents_need_a_coordinate_witness :
  ParseObjFile sceneText initialState
  = Ok (mkResult sceneGeometries ["a b.mtl"], sceneState) /\
  (exists s1, forEach objLine (JS.split newline sceneText) initialState = Ok s1 /\
     thrown (getGeometriesExtents (mkResult sceneGeometries ["a b.mtl"]).(r_geometries))
     = (if forallb hasCoordinates (geometries s1) then None else Some ReadOfUndefined)).
Proof.
  split; [exact scene_parse|].
  exact (extents_need_a_coordinate sceneText initialState sceneState
           (mkResult sceneGeometries ["a b.mtl"]) scene_parse).
Defined.

End ExtentsAtDecimal.

(** ** What the console receives *)

Section Warnings.
Context {F : JSFloat}.

Lemma pushData_console k values s s' :
  pushData k values s = Ok s' -> console s' = console s.
Proof. intros H. now destruct (pushData_pushesOnly _ _ _ _ H) as (_ & _ & _ & _ & _ & _ & Hc & _). Qed.

Lemma handler_console kw h value raw s s' :
  keywords kw = Some h -> h value raw s = Ok s' -> console s' = console s.
Proof.
  unfold keywords. intros Hh Hrun.
  case_keyword kw; try discriminate; injection Hh as <-.
  - unfold keyword_v in Hrun. destruct (Nat.ltb 3 (length value));
      now injection Hrun as <-.
  - now injection Hrun as <-.
  - now injection Hrun as <-.
  - apply keyword_f_inv in Hrun as (s0 & H0 & Hp).
    destruct Hp as (_ & _ & _ & _ & _ & _ & Hc & _). rewrite Hc.
    unfold setGeometry in H0. destruct (geometry s); now injection H0 as <-.
  - now injection Hrun as <-.
  - now injection Hrun as <-.
  - unfold keyword_usemtl in Hrun. apply andThen_inv in Hrun as (s1 & [= <-] & H2).
    apply newGeometry_inv in H2 as [-> | (-> & _)]; reflexivity.
  - unfold keyword_g in Hrun. apply andThen_inv in Hrun as (s1 & [= <-] & H2).
    apply newGeometry_inv in H2 as [-> | (-> & _)]; reflexivity.
  - unfold keyword_o in Hrun. apply andThen_inv in Hrun as (s1 & [= <-] & H2).
    apply newGeometry_inv in H2 as [-> | (-> & _)]; reflexivity.
Qed.

Lemma objLine_console line s s' :
  objLine line s = Ok s' -> console s' = console s ++ warnedBy keywords line.
Proof.
  intros Hrun. unfold objLine in Hrun. unfold warnedBy, lookupHandler.
  destruct (lineKeyword line) as [kw|] eqn:Hk.
  - destruct (keywords kw) as [h|] eqn:Hh.
    + rewrite (processLine_own _ _ _ _ _ Hk Hh) in Hrun.
      rewrite (handler_console _ _ _ _ _ _ Hh Hrun). now rewrite app_nil_r.
    + destruct (objectPrototype kw) as [m|] eqn:Hm.
      * rewrite (processLine_inherited _ _ _ _ _ _ Hk Hh Hm) in Hrun.
        apply callInherited_inv in Hrun. subst. now rewrite app_nil_r.
      * rewrite (processLine_unknown _ _ _ _ _ Hk Hh Hm) in Hrun.
        now injection Hrun as <-.
  - rewrite (processLine_blank _ _ _ Hk) in Hrun. injection Hrun as <-.
    now rewrite app_nil_r.
Qed.

Lemma setProperty_console name v t t' :
  setProperty name v t = Ok t' -> mtlConsole t' = mtlConsole t.
Proof.
  unfold setProperty. destruct (materialAt (materials t) (index t));
    try discriminate; now intros [= <-].
Qed.

Lemma mtlLine_console line t t' :
  mtlLine line t = Ok t' -> mtlConsole t' = mtlConsole t ++ warnedBy mtlKeywords line.
Proof.
  intros Hrun. unfold mtlLine in Hrun. unfold warnedBy, lookupHandler.
  destruct (lineKeyword line) as [kw|] eqn:Hk.
  - destruct (mtlKeywords kw) as [h|] eqn:Hh.
    + rewrite (processLine_own _ _ _ _ _ Hk Hh) in Hrun. rewrite app_nil_r.
      destruct (mtlKeywords_inv _ _ Hh) as [-> | Hp].
      * injection Hh as <-. unfold keyword_newmtl in Hrun.
        destruct (String.eqb _ "__proto__"); now injection Hrun as <-.
      * destruct (mtlKeywords_property kw Hp) as (h' & Hh' & Hset).
        rewrite Hh in Hh'. injection Hh' as <-.
        destruct (Hset (lineValue line) (lineRaw line)) as (name & v & E).
        rewrite E in Hrun. now apply setProperty_console with name v.
    + destruct (objectPrototype kw) as [m|] eqn:Hm.
      * rewrite (processLine_inherited _ _ _ _ _ _ Hk Hh Hm) in Hrun.
        apply callInherited_inv in Hrun. subst. now rewrite app_nil_r.
      * rewrite (processLine_unknown _ _ _ _ _ Hk Hh Hm) in Hrun.
        now injection Hrun as <-.
  - rewrite (processLine_blank _ _ _ Hk) in Hrun. injection Hrun as <-.
    now rewrite app_nil_r.
Qed.

Lemma lines_console lines s s' :
  forEach objLine lines s = Ok s' ->
  console s' = console s ++ flat_map (warnedBy keywords) lines.
Proof.
  revert s. induction lines as [|l lines IH]; intros s H; simpl in *.
  - injection H as <-. now rewrite app_nil_r.
  - apply andThen_inv in H as (s1 & H1 & H2).
    now rewrite (IH _ H2), (objLine_console _ _ _ H1), app_assoc.
Qed.

Lemma mtlLines_console lines t t' :
  forEach mtlLine lines t = Ok t' ->
  mtlConsole t' = mtlConsole t ++ flat_map (warnedBy mtlKeywords) lines.
Proof.
  revert t. induction lines as [|l lines IH]; intros t H; simpl in *.
  - injection H as <-. now rewrite app_nil_r.
  - apply andThen_inv in H as (t1 & H1 & H2).
    now rewrite (IH _ H2), (mtlLine_console _ _ _ H1), app_assoc.
Qed.

(** X15. When [ParseObjFile] returns, the console has received, after
    what it held, one warning for each line of the text whose keyword
    is neither a keyword of the parser nor the name of an inherited
    member, in the order of the lines, and nothing else; the warning
    names the keyword of the line. *)
Theorem warnings_name_the_unknown_keywords
    (text : string) (s s' : State) (r : ParseResult) :
  ParseObjFile text s = Ok (r, s') ->
  console s' = console s ++ flat_map (warnedBy keywords) (JS.split newline text).
Proof.
  intros H. apply ParseObjFile_inv in H as (s1 & Hrun & _ & _ & ->).
  simpl. now apply lines_console.
Qed.

(** X16. The same in [ParseMaterialFile]: when its loop ends, the
    console has received the keywords of the lines that are neither
    [newmtl], nor a property keyword, nor the name of an inherited
    member, in the order of the lines, and the materials are those the
    call returns. *)
Theorem material_warnings_name_the_unknown_keywords (text : string) (t : MtlState) :
  forEach mtlLine (JS.split newline text) mtlInitialState = Ok t ->
  mtlConsole t = flat_map (warnedBy mtlKeywords) (JS.split newline text) /\
  ParseMaterialFile text = Ok (materials t).
Proof.
  intros Ht. split.
  - now rewrite (mtlLines_console _ _ _ Ht).
  - unfold ParseMaterialFile. now rewrite Ht.
Qed.

Lemma unknown_keyword_sample :
  forEach mtlLine (JS.split newline (unlines ["# head"; "bogus 1"; "newmtl"; "Tf 1 1 1"]))
    mtlInitialState
  = Ok (mkMtlState (mkMaterials (<["undefined" := ∅]> ∅) None) None ["bogus"; "Tf"]).
Proof. vm_compute. reflexivity. Qed.

End Warnings.

Section WarningsAtDecimal.
Local Existing Instance decimalFloat.

Lemma warnings_name_the_unknown_keywords_witness :
  ParseObjFile sceneText initialState
  = Ok (mkResult sceneGeometries ["a b.mtl"], sceneState) /\
  console sceneState
  = console initialState ++ flat_map (warnedBy keywords) (JS.split newline sceneText).
Proof.
  split; [exact scene_parse|].
  exact (warnings_name_the_unknown_keywords sceneText initialState sceneState
           (mkResult sceneGeometries ["a b.mtl"]) scene_parse).
Defined.

Lemma material_warnings_name_the_unknown_keywords_witness :
  let text := unlines ["# head"; "bogus 1"; "newmtl"; "Tf 1 1 1"] in
  let t := mkMtlState (mkMaterials (<["undefined" := ∅]> ∅) None) None ["bogus"; "Tf"] in
  forEach mtlLine (JS.split newline text) mtlInitialState = Ok t /\
  (mtlConsole t = flat_map (warnedBy mtlKeywords) (JS.split newline text) /\
   ParseMaterialFile text = Ok (materials t)).
Proof.
  intros text t. split; [exact unknown_keyword_sample|].
  exact (material_warnings_name_the_unknown_keywords text t unknown_keyword_sample).
Defined.

End WarningsAtDecimal.

(** ** The object parser as a whole *)

Section ObjRunsProofs.
Context {F : JSFloat}.
Implicit Types (s : State) (lens : list nat).

Lemma Runs_skip lens : Runs lens skip true.
Proof. intros s HP. split; [reflexivity|]. now intros s' [= <-]. Qed.

Lemma Runs_andThen lens a b p q :
  Runs lens a p -> Runs lens b q -> Runs lens (a >>> b) (p && q).
Proof.
  intros Ha Hb s HP. destruct (Ha s HP) as [Hp Hnext]. unfold andThen.
  destruct (a s) as [s1|e]; simpl in Hp; subst p.
  - simpl. apply Hb. now apply Hnext.
  - split; [reflexivity | discriminate].
Qed.

Lemma Runs_forEach {A} lens (f : A -> Action State) (p : A -> bool) l :
  (forall x, Runs lens (f x) (p x)) -> Runs lens (forEach f l) (forallb p l).
Proof.
  intros H. induction l as [|x l IH]; simpl.
  - apply Runs_skip.
  - now apply Runs_andThen.
Qed.

Lemma tableLengths_lookup s i :
  tableLengths s !! i = length <$> (objVertexData s !! i).
Proof. unfold tableLengths. apply list_lookup_fmap. Qed.

Lemma tableLengths_same s s' : sameTables s s' -> tableLengths s' = tableLengths s.
Proof. unfold sameTables, tableLengths. now intros ->. Qed.

Lemma designates_entryAt (table : list (list num)) index :
  designates index (length table) = bool_decide (is_Some (entryAt table index)).
Proof.
  unfold designates, entryAt. destruct index as [z|]; [|reflexivity].
  destruct (Z.leb_spec 0 z) as [Hz|Hz]; simpl; [|reflexivity].
  destruct (Z.ltb_spec z (Z.of_nat (length table))) as [Hlt|Hge].
  - destruct (lookup_lt_is_Some_2 table (Z.to_nat z)) as [e He]; [lia|].
    rewrite He. reflexivity.
  - rewrite (proj2 (lookup_ge_None table (Z.to_nat z))) by lia. reflexivity.
Qed.

Lemma pushData_runs lens k entry :
  Runs lens (pushData k entry) (bool_decide (is_Some entry)).
Proof.
  intros s HP. pose proof HP as (Hpres & [r Hr] & Hl).
  destruct (ArraysPresent_current s r Hpres Hr) as (g & Hg & Hkeys).
  destruct (Hkeys k) as [arr Harr]. split.
  - unfold pushData. rewrite Hr, Hg, Harr. now destruct entry as [e|].
  - intros s' Hrun. split; [now apply (pushData_present k entry s)|].
    apply pushData_effect in Hrun as (Ht & Hgeo & _).
    split; [rewrite Hgeo; eauto|]. now rewrite (tableLengths_same _ _ Ht).
Qed.

Lemma colors_length lens s :
  tableLengths s = lens -> length (objColors s) = default 0 (lens !! 3).
Proof. intros <-. reflexivity. Qed.

Lemma pushInlineColor_runs lens i index :
  Runs lens (pushInlineColor i index)
    (if Nat.eqb i 0 && Nat.ltb 1 (default 0 (lens !! 3))
     then designates index (default 0 (lens !! 3)) else true).
Proof.
  intros s HP. pose proof HP as (_ & _ & Hl).
  unfold pushInlineColor. rewrite (colors_length lens s Hl).
  destruct (Nat.eqb i 0 && Nat.ltb 1 (default 0 (lens !! 3))).
  - rewrite <- (colors_length lens s Hl), designates_entryAt.
    now apply pushData_runs.
  - now apply Runs_skip.
Qed.

Lemma addVertexSlot_runs lens i str :
  Runs lens (addVertexSlot i str) (slotRuns lens i str).
Proof.
  intros s HP. pose proof HP as (_ & _ & Hl).
  unfold addVertexSlot, slotRuns.
  destruct (JS.isEmpty str); [now apply Runs_skip|].
  rewrite <- Hl at 1. rewrite tableLengths_lookup.
  destruct (objVertexData s !! i) as [table|] eqn:Htab;
    cbn [fmap option_fmap option_map].
  - assert (Hk : exists k, slotAttr i = Some k).
    { apply lookup_lt_Some in Htab. unfold slotAttr.
      apply lookup_lt_is_Some. exact Htab. }
    destruct Hk as [k Hk]. rewrite Hk.
    destruct (JS.parseInt str) as [n|]; cbn [fmap option_fmap option_map resolveIndex].
    + destruct (Z.leb 0 n) eqn:Hn; rewrite designates_entryAt.
      * apply (Runs_andThen lens _ _ _ _ (pushData_runs lens k _)
                 (pushInlineColor_runs lens i (Some n)) s HP).
      * apply (Runs_andThen lens _ _ _ _ (pushData_runs lens k _)
                 (pushInlineColor_runs lens i (Some (n + Z.of_nat (length table))%Z))
                 s HP).
    + apply (Runs_andThen lens _ _ false _ (pushData_runs lens k None)
               (pushInlineColor_runs lens i None) s HP).
  - assert (Hi : i <> 0).
    { intros ->. discriminate. }
    destruct (JS.parseInt str) as [n|]; cbn [resolveIndex];
      [|split; [reflexivity | discriminate]].
    destruct (Z.leb 0 n); [|split; [reflexivity | discriminate]].
    assert (Hs : slotAttr i = None).
    { unfold slotAttr. apply lookup_ge_None. apply lookup_ge_None in Htab.
      exact Htab. }
    rewrite Hs. unfold andThen, skip, pushInlineColor.
    destruct i as [|i]; [contradiction|]. simpl.
    split; [reflexivity|]. now intros s' [= <-].
Qed.

Lemma slots_run lens ptn : forall i,
  Runs lens (forEachFrom i addVertexSlot ptn) (slotsRun lens i ptn).
Proof.
  induction ptn as [|str ptn IH]; intros i; simpl.
  - apply Runs_skip.
  - apply Runs_andThen; [apply addVertexSlot_runs | apply IH].
Qed.

Lemma addVertex_runs lens vert : Runs lens (addVertex vert) (vertexRuns lens vert).
Proof. apply slots_run. Qed.

Lemma addVertexAt_runs lens value k :
  Runs lens (addVertexAt value k)
    (match value !! k with Some vert => vertexRuns lens vert | None => false end).
Proof.
  unfold addVertexAt. destruct (value !! k) as [vert|].
  - apply addVertex_runs.
  - intros s _. split; [reflexivity | discriminate].
Qed.

Lemma emitTriangle_runs lens value t :
  Runs lens (emitTriangle value t) (triangleRuns lens value t).
Proof.
  destruct t as [[a b] c]. unfold emitTriangle, triangleRuns.
  repeat apply Runs_andThen; apply addVertexAt_runs.
Qed.

Lemma fan_runs lens value :
  forallb (triangleRuns lens value) (fanTriangles (length value))
  = faceRuns lens value.
Proof.
  unfold faceRuns. destruct (Nat.ltb_spec (length value) 3) as [Hlt|Hge].
  - unfold fanTriangles. now replace (length value - 2) with 0 by lia.
  - apply eq_true_iff_eq. rewrite !forallb_forall. split.
    + intros H vert Hin. apply In_nth_error in Hin as [j Hj].
      assert (Hjv : value !! j = Some vert).
      { revert j Hj. clear. induction value as [|x value IH]; intros [|j]; simpl;
          try discriminate; auto. }
      destruct (fan_covers (length value) j Hge) as (t & Ht & Hm).
      { now apply lookup_lt_Some with vert. }
      specialize (H t Ht). destruct t as [[a b] c]. unfold triangleRuns in H.
      apply andb_prop in H as [Ha H]. apply andb_prop in H as [Hb Hc].
      destruct Hm as [-> | [-> | ->]]; simpl in *.
      * now rewrite Hjv in Ha.
      * now rewrite Hjv in Hb.
      * now rewrite Hjv in Hc.
    + intros H [[a b] c] Hin. unfold fanTriangles in Hin.
      apply in_map_iff in Hin as (k & [= <- <- <-] & Hk). apply in_seq in Hk.
      unfold triangleRuns.
      assert (Hrun : forall j, j < length value ->
                match value !! j with
                | Some vert => vertexRuns lens vert
                | None => false
                end = true).
      { intros j Hj. destruct (lookup_lt_is_Some_2 value j Hj) as [vert Hv].
        rewrite Hv. apply H. apply list_elem_of_In. now apply list_elem_of_lookup_2 with j. }
      rewrite !Hrun by lia. reflexivity.
Qed.

(** One line, from a state in which no array is missing. *)
Lemma objLine_runs line s :
  ArraysPresent s ->
  match lineLengths (tableLengths s) line with
  | Some lens' =>
      exists s', objLine line s = Ok s' /\ ArraysPresent s' /\ tableLengths s' = lens'
  | None => exists e, objLine line s = Throw e
  end.
Proof.
  intros HP. unfold lineLengths.
  destruct (lineKeyword line) as [kw|] eqn:Hk.
  2:{ exists s. unfold objLine. rewrite (processLine_blank _ _ _ Hk).
      split; [reflexivity | split; [exact HP | reflexivity]]. }
  destruct (String.eqb_spec kw "v") as [-> | Hv].
  { rewrite (objLine_own line "v" keyword_v Hk eq_refl). unfold keyword_v.
    destruct (Nat.ltb 3 (length (lineValue line))); eexists; (split; [reflexivity|]);
      (split; [exact HP|]); unfold tableLengths; simpl;
      rewrite !length_app; simpl; repeat f_equal; lia. }
  destruct (String.eqb_spec kw "vn") as [-> | Hvn].
  { rewrite (objLine_own line "vn" keyword_vn Hk eq_refl). unfold keyword_vn.
    eexists; (split; [reflexivity|]); (split; [exact HP|]); unfold tableLengths; simpl;
      rewrite !length_app; simpl; repeat f_equal; lia. }
  destruct (String.eqb_spec kw "vt") as [-> | Hvt].
  { rewrite (objLine_own line "vt" keyword_vt Hk eq_refl). unfold keyword_vt.
    eexists; (split; [reflexivity|]); (split; [exact HP|]); unfold tableLengths; simpl;
      rewrite !length_app; simpl; repeat f_equal; lia. }
  destruct (String.eqb_spec kw "f") as [-> | Hf].
  { rewrite (objLine_own line "f" keyword_f Hk eq_refl), keyword_f_fan.
    destruct (setGeometry_ok s) as (s0 & H0 & Ht).
    rewrite (andThen_ok _ _ _ _ H0).
    assert (HP0 : Pushable (tableLengths s) s0).
    { split; [exact (setGeometry_present s s0 HP H0)|].
      split; [|now apply tableLengths_same].
      unfold setGeometry in H0. destruct (geometry s) eqn:Hg; injection H0 as <-;
        [rewrite Hg; eauto | simpl; eauto]. }
    destruct (Runs_forEach (tableLengths s) (emitTriangle (lineValue line))
                (triangleRuns (tableLengths s) (lineValue line))
                (fanTriangles (length (lineValue line)))
                (emitTriangle_runs (tableLengths s) (lineValue line)) s0 HP0)
      as [Hok Hnext].
    rewrite fan_runs in Hok.
    destruct (forEach _ _ s0) as [s'|e]; simpl in Hok; rewrite <- Hok.
    - exists s'. split; [reflexivity|]. destruct (Hnext s' eq_refl) as (H1 & _ & H2).
      now split.
    - now exists e. }
  destruct (keywords kw) as [h|] eqn:Hh.
  - assert (Hcases : kw = "s" \/ kw = "mtllib" \/ isStateLine line = true).
    { unfold keywords in Hh. unfold isStateLine. rewrite Hk.
      case_keyword kw; try discriminate; try contradiction; auto. }
    destruct Hcases as [-> | [-> | Hst]].
    + injection Hh as <-. rewrite (objLine_own line "s" keyword_s Hk eq_refl).
      exists s. split; [reflexivity | split; [exact HP | reflexivity]].
    + injection Hh as <-.
      rewrite (objLine_own line "mtllib" keyword_mtllib Hk eq_refl).
      eexists. split; [reflexivity|]. split; [exact HP | reflexivity].
    + destruct (stateLine_runs line s Hst HP) as (s' & Hrun & HP' & _).
      exists s'. split; [exact Hrun|]. split; [exact HP'|].
      apply tableLengths_same.
      destruct (isStateLine_inv line Hst) as (kw' & h' & Hk' & Hh' & Hst' & _).
      rewrite (objLine_own line kw' h' Hk' Hh') in Hrun.
      now apply (stateHandler_inv kw' h' _ _ s s' Hh' Hst' Hrun).
  - destruct (objectPrototype kw) as [m|] eqn:Hm.
    + unfold objLine. rewrite (processLine_inherited _ _ _ _ _ _ Hk Hh Hm).
      unfold inheritedReturns.
      destruct m; simpl; unfold skip;
        try (exists s; split; [reflexivity | split; [exact HP | reflexivity]]);
        eexists; reflexivity.
    + unfold objLine. rewrite (processLine_unknown _ _ _ _ _ Hk Hh Hm).
      eexists. split; [reflexivity|]. split; [exact HP | reflexivity].
Qed.

Lemma objLines_run lines : forall s,
  ArraysPresent s ->
  isOk (forEach objLine lines s) = objSafe (tableLengths s) lines.
Proof.
  induction lines as [|line lines IH]; intros s HP; [reflexivity|].
  simpl. pose proof (objLine_runs line s HP) as H.
  destruct (lineLengths (tableLengths s) line) as [lens'|].
  - destruct H as (s' & Hrun & HP' & <-). rewrite (andThen_ok _ _ _ _ Hrun).
    now apply IH.
  - destruct H as [e He]. now rewrite (andThen_throw _ _ _ _ He).
Qed.

(** X17. From a state in which every geometry has its four arrays, as
    in the first call, whether [ParseObjFile] returns is decided by the
    lengths of the tables and the text alone: it returns exactly when
    every face line with three references or more has only sub-indices
    that designate an entry of their table (and of the color table,
    for the first sub-index, once a color was declared) and no line
    has as keyword the name of an inherited member whose call throws.
    The numbers in the text play no part. *)
Theorem obj_file_runs (text : string) (s : State) :
  ArraysPresent s ->
  isOk (ParseObjFile text s) = objSafe (tableLengths s) (JS.split newline text).
Proof.
  intros HP. rewrite <- (objLines_run _ s HP). unfold ParseObjFile.
  now destruct (forEach objLine (JS.split newline text) s).
Qed.

End ObjRunsProofs.

Section ObjRunsAtDecimal.
Local Existing Instance decimalFloat.

Lemma obj_file_runs_witness :
  ArraysPresent initialState /\
  isOk (ParseObjFile sceneText initialState)
  = objSafe (tableLengths initialState) (JS.split newline sceneText).
Proof.
  split; [exact ArraysPresent_initial|].
  exact (obj_file_runs sceneText initialState ArraysPresent_initial).
Defined.

End ObjRunsAtDecimal.

(** ** A geometry that lost its position array *)

Section EmptiedGeometry.
Context {F : JSFloat}.
Implicit Types (s : State) (g : Geometry).

Lemma newGeometry_emptied s j g :
  geometry s = Some j -> geometries s !! j = Some g -> position (g_data g) = None ->
  newGeometry s = Throw ReadOfUndefined.
Proof. intros Hj Hg Hp. unfold newGeometry. now rewrite Hj, Hg, Hp. Qed.

Lemma stateLine_emptied line s j g :
  isStateLine line = true ->
  geometry s = Some j -> geometries s !! j = Some g -> position (g_data g) = None ->
  objLine line s = Throw ReadOfUndefined.
Proof.
  intros Hl Hj Hg Hp. unfold isStateLine in Hl.
  destruct (lineKeyword line) as [kw|] eqn:Hk; [|discriminate].
  assert (Hkw : kw = "usemtl" \/ kw = "g" \/ kw = "o").
  { destruct (String.eqb_spec kw "usemtl"); [now left|].
    destruct (String.eqb_spec kw "g"); [now right; left|].
    destruct (String.eqb_spec kw "o"); [now right; right | discriminate]. }
  destruct Hkw as [-> | [-> | ->]];
    rewrite (objLine_own line _ _ Hk eq_refl);
    unfold keyword_usemtl, keyword_g, keyword_o, andThen;
    now apply newGeometry_emptied with j g.
Qed.

Lemma addVertex_emptied vert str rest s j g :
  JS.split "/" vert = str :: rest -> JS.isEmpty str = false ->
  geometry s = Some j -> geometries s !! j = Some g -> position (g_data g) = None ->
  addVertex vert s = Throw ReadOfUndefined.
Proof.
  intros Hv Hstr Hj Hg Hp. unfold addVertex. rewrite Hv. simpl.
  apply andThen_throw. unfold addVertexSlot. rewrite Hstr.
  change (objVertexData s !! 0) with (Some (objPositions s)).
  change (slotAttr 0) with (Some Position).
  assert (Hpush : forall entry, pushData Position entry s = Throw ReadOfUndefined).
  { intros entry. unfold pushData. rewrite Hj, Hg. simpl. now rewrite Hp. }
  destruct (JS.parseInt str) as [n|]; simpl.
  - destruct (Z.leb 0 n); simpl; apply andThen_throw; apply Hpush.
  - apply andThen_throw. apply Hpush.
Qed.

Lemma face_emptied line vert str rest s j g :
  lineKeyword line = Some "f" -> 3 <= length (lineValue line) ->
  lineValue line !! 0 = Some vert ->
  JS.split "/" vert = str :: rest -> JS.isEmpty str = false ->
  geometry s = Some j -> geometries s !! j = Some g -> position (g_data g) = None ->
  objLine line s = Throw ReadOfUndefined.
Proof.
  intros Hk Hn H0 Hv Hstr Hj Hg Hp.
  rewrite (objLine_own line "f" keyword_f Hk eq_refl), keyword_f_fan.
  assert (Hs : setGeometry s = Ok s) by (unfold setGeometry; now rewrite Hj).
  rewrite (andThen_ok _ _ _ _ Hs). unfold fanTriangles.
  destruct (length (lineValue line) - 2) as [|m] eqn:E; [lia|].
  simpl. apply andThen_throw. apply andThen_throw.
  unfold addVertexAt. rewrite H0. now apply addVertex_emptied with str rest j g.
Qed.

(** X18. The reference to the current geometry outlives the call.
    When a call returns while the current geometry has no position
    coordinate, the cleanup has deleted its [position] array, and in
    the state the call leaves behind every [usemtl], [g] or [o] line
    throws ([newGeometry] reads the length of the deleted array), and so
    does every face line with three references or more whose first
    reference starts with a sub-index. *)
Theorem emptied_geometry_blocks_later_calls
    (text : string) (s s' : State) (r : ParseResult) (j : nat) (g : Geometry) :
  ParseObjFile text s = Ok (r, s') ->
  geometry s' = Some j ->
  r_geometries r !! j = Some g ->
  position (g_data g) = None ->
  (forall line, isStateLine line = true -> objLine line s' = Throw ReadOfUndefined) /\
  (forall line vert str rest,
     lineKeyword line = Some "f" -> 3 <= length (lineValue line) ->
     lineValue line !! 0 = Some vert ->
     JS.split "/" vert = str :: rest -> JS.isEmpty str = false ->
     objLine line s' = Throw ReadOfUndefined).
Proof.
  intros H Hj Hg Hp. apply ParseObjFile_inv in H as (s1 & _ & Hr & _ & Hs').
  assert (Hg' : geometries s' !! j = Some g) by (rewrite Hs'; simpl; now rewrite <- Hr).
  split.
  - intros line Hl. now apply stateLine_emptied with j g.
  - intros line vert str rest Hk Hn H0 Hv Hstr.
    now apply face_emptied with vert str rest j g.
Qed.

Lemma short_face_parse :
  ParseObjFile "f 1 2" initialState
  = Ok (mkResult [mkGeometry (Some "default") ["default"] (Some "default")
                    (mkData None None None None)] [],
        set_geometry (Some 0)
          (set_geometries
             [mkGeometry (Some "default") ["default"] (Some "default")
                (mkData None None None None)] initialState)).
Proof. vm_compute. reflexivity. Qed.

End EmptiedGeometry.

Section EmptiedGeometryAtDecimal.
Local Existing Instance decimalFloat.

Lemma emptied_geometry_blocks_later_calls_witness :
  let g := mkGeometry (Some "default") ["default"] (Some "default")
             (mkData None None None None) in
  let s' := set_geometry (Some 0) (set_geometries [g] initialState) in
  let r := mkResult [g] [] in
  (ParseObjFile "f 1 2" initialState = Ok (r, s') /\
   geometry s' = Some 0 /\ r_geometries r !! 0 = Some g /\
   position (g_data g) = None) /\
  ((forall line, isStateLine line = true -> objLine line s' = Throw ReadOfUndefined) /\
   (forall line vert str rest,
      lineKeyword line = Some "f" -> 3 <= length (lineValue line) ->
      lineValue line !! 0 = Some vert ->
      JS.split "/" vert = str :: rest -> JS.isEmpty str = false ->
      objLine line s' = Throw ReadOfUndefined)).
Proof.
  intros g s' r.
  assert (H1 : ParseObjFile "f 1 2" initialState = Ok (r, s')) by exact short_face_parse.
  assert (H2 : geometry s' = Some 0) by reflexivity.
  assert (H3 : r_geometries r !! 0 = Some g) by reflexivity.
  assert (H4 : position (g_data g) = None) by reflexivity.
  split; [repeat split; assumption|].
  exact (emptied_geometry_blocks_later_calls "f 1 2" initialState s' r 0 g H1 H2 H3 H4).
Defined.

End EmptiedGeometryAtDecimal.

(** ** What a face appends to each array *)

Section EmissionProofs.
Context {F : JSFloat}.
Implicit Types (s : State) (k : Attr).

Lemma EmitsTo_skip : EmitsTo skip (fun _ _ => []).
Proof.
  intros s s' [= <-]. split; [reflexivity|]. split; [reflexivity|].
  intros k arr ->. now rewrite app_nil_r.
Qed.

Lemma EmitsTo_andThen a b oa ob :
  EmitsTo a oa -> EmitsTo b ob -> stableTo ob ->
  EmitsTo (a >>> b) (fun k s => oa k s ++ ob k s).
Proof.
  intros Ha Hb Hst s s' H. apply andThen_inv in H as (s1 & H1 & H2).
  destruct (Ha _ _ H1) as (Ht1 & Hg1 & Hp1). destruct (Hb _ _ H2) as (Ht2 & Hg2 & Hp2).
  split; [now apply sameTables_trans with s1|]. split; [congruence|].
  intros k arr Harr. rewrite (Hp2 _ _ (Hp1 _ _ Harr)), (Hst _ _ _ Ht1).
  now rewrite app_assoc.
Qed.

Lemma EmitsTo_ext a o o' : (forall k s, o k s = o' k s) -> EmitsTo a o -> EmitsTo a o'.
Proof.
  intros He Ha s s' H. destruct (Ha _ _ H) as (Ht & Hg & Hp).
  split; [exact Ht|]. split; [exact Hg|]. intros k arr Harr. rewrite <- He. now apply Hp.
Qed.

Lemma stableTo_flat_map {A} (o : A -> Attr -> State -> list num) l :
  (forall x, stableTo (o x)) -> stableTo (fun k s => flat_map (fun x => o x k s) l).
Proof.
  intros Hst k s s' Ht. induction l as [|x l IH]; [reflexivity|].
  simpl. now rewrite (Hst x _ _ _ Ht), IH.
Qed.

Lemma EmitsTo_forEach {A} (f : A -> Action State) (o : A -> Attr -> State -> list num) l :
  (forall x, EmitsTo (f x) (o x)) -> (forall x, stableTo (o x)) ->
  EmitsTo (forEach f l) (fun k s => flat_map (fun x => o x k s) l).
Proof.
  intros Hf Hst. induction l as [|x l IH]; [apply EmitsTo_skip|].
  simpl. apply EmitsTo_andThen; [apply Hf | exact IH | now apply stableTo_flat_map].
Qed.

(** One push. *)
Lemma pushData_emits k0 entry s s' :
  pushData k0 entry s = Ok s' ->
  sameTables s s' /\ geometry s' = geometry s /\
  forall k arr, currentArray k s = Some arr ->
    currentArray k s'
    = Some (arr ++ if bool_decide (k0 = k) then default [] entry else []).
Proof.
  intros H. apply pushData_effect in H as (Ht & Hg & arr0 & e & H0 & -> & H1 & Hother).
  split; [exact Ht|]. split; [exact Hg|]. intros k arr Harr.
  destruct (bool_decide_reflect (k0 = k)) as [<- | Hne].
  - rewrite H0 in Harr. injection Harr as <-. exact H1.
  - rewrite (Hother k) by congruence. now rewrite app_nil_r.
Qed.

Lemma stableTo_slotOut i str : stableTo (fun k s => slotOut k s i str).
Proof.
  intros k s s' Ht. unfold slotOut.
  now rewrite (slotEntry_sameTables _ _ _ _ Ht), (inlineColorEntry_sameTables _ _ _ Ht),
    (sameTables_colors _ _ Ht).
Qed.

Lemma slotAttr_zero k : bool_decide (slotAttr 0 = Some k) = bool_decide (Position = k).
Proof. destruct k; reflexivity. Qed.

Lemma addVertexSlot_emitsTo i str :
  EmitsTo (addVertexSlot i str) (fun k s => slotOut k s i str).
Proof.
  intros s s'. unfold addVertexSlot, slotOut.
  destruct (JS.isEmpty str) eqn:Hstr.
  { intros [= <-]. split; [reflexivity|]. split; [reflexivity|].
    intros k arr ->. now rewrite app_nil_r. }
  unfold slotEntry, inlineColorEntry.
  destruct (objVertexData s !! i) as [table|] eqn:Htab.
  - assert (Hk : exists k0, slotAttr i = Some k0).
    { apply lookup_lt_Some in Htab. unfold slotAttr.
      apply lookup_lt_is_Some. exact Htab. }
    destruct Hk as [k0 Hk0]. rewrite Hk0.
    destruct (resolveIndex (JS.parseInt str) (Some table)) as [index|] eqn:Hres;
      [|discriminate].
    intros H. apply andThen_inv in H as (s1 & H1 & H2).
    apply pushData_emits in H1 as (Ht1 & Hg1 & Hp1).
    unfold pushInlineColor in H2. rewrite (sameTables_colors _ _ Ht1) in H2.
    destruct (Nat.eqb_spec i 0) as [-> | Hi]; simpl in H2.
    + injection Htab as <-. injection Hk0 as <-.
      change (objPositions s) with (tableOf Position s) in Hres.
      simpl in Hres. rewrite Hres.
      destruct (Nat.ltb 1 (length (objColors s))) eqn:Hc.
      * apply pushData_emits in H2 as (Ht2 & Hg2 & Hp2).
        split; [now apply sameTables_trans with s1|]. split; [congruence|].
        intros k arr Harr. rewrite (Hp2 _ _ (Hp1 _ _ Harr)), <- app_assoc.
        repeat f_equal.
        -- destruct k; reflexivity.
        -- destruct k; simpl; reflexivity.
      * injection H2 as <-. split; [exact Ht1|]. split; [exact Hg1|].
        intros k arr Harr. rewrite (Hp1 _ _ Harr). repeat f_equal.
        rewrite andb_false_r, app_nil_r. destruct k; reflexivity.
    + injection H2 as <-. split; [exact Ht1|]. split; [exact Hg1|].
      intros k arr Harr. rewrite (Hp1 _ _ Harr). repeat f_equal.
      rewrite andb_false_r. simpl. rewrite app_nil_r.
      destruct (bool_decide_reflect (k0 = k)) as [<- | Hne].
      * now rewrite bool_decide_eq_true_2.
      * rewrite bool_decide_eq_false_2 by congruence. reflexivity.
  - destruct (resolveIndex (JS.parseInt str) None) as [index|] eqn:Hres; [|discriminate].
    assert (Hs : slotAttr i = None).
    { unfold slotAttr. apply lookup_ge_None. apply lookup_ge_None in Htab.
      exact Htab. }
    assert (Hi : Nat.eqb i 0 = false).
    { destruct i; [discriminate | reflexivity]. }
    rewrite Hs. unfold andThen, skip, pushInlineColor. rewrite Hi. simpl.
    intros [= <-]. split; [reflexivity|]. split; [reflexivity|].
    intros k arr ->. rewrite andb_false_r. simpl. now rewrite app_nil_r.
Qed.

Lemma stableTo_slotsOut ptn : forall i, stableTo (fun k s => slotsOut k s i ptn).
Proof.
  induction ptn as [|str ptn IH]; intros i k s s' Ht; [reflexivity|].
  simpl. now rewrite (stableTo_slotOut i str _ _ _ Ht), (IH (S i) _ _ _ Ht).
Qed.

Lemma slots_emitTo ptn : forall i,
  EmitsTo (forEachFrom i addVertexSlot ptn) (fun k s => slotsOut k s i ptn).
Proof.
  induction ptn as [|str ptn IH]; intros i; [apply EmitsTo_skip|].
  simpl. apply EmitsTo_andThen;
    [apply addVertexSlot_emitsTo | apply IH | apply stableTo_slotsOut].
Qed.

Lemma stableTo_vertexOutAt value j : stableTo (fun k s => vertexOutAt k s value j).
Proof.
  intros k s s' Ht. unfold vertexOutAt. destruct (value !! j); [|reflexivity].
  simpl. now apply stableTo_slotsOut.
Qed.

Lemma addVertexAt_emitsTo value j :
  EmitsTo (addVertexAt value j) (fun k s => vertexOutAt k s value j).
Proof.
  unfold addVertexAt, vertexOutAt. destruct (value !! j) as [vert|].
  - apply slots_emitTo.
  - intros s s' [=].
Qed.

Lemma stableTo_triangleOut value t : stableTo (fun k s => triangleOut k s value t).
Proof.
  intros k s s' Ht. destruct t as [[a b] c]. unfold triangleOut.
  now rewrite !(stableTo_vertexOutAt value _ _ _ _ Ht).
Qed.

Lemma emitTriangle_emitsTo value t :
  EmitsTo (emitTriangle value t) (fun k s => triangleOut k s value t).
Proof.
  destruct t as [[a b] c]. unfold emitTriangle, triangleOut.
  apply EmitsTo_andThen; [apply addVertexAt_emitsTo | | ].
  - apply EmitsTo_andThen; [apply addVertexAt_emitsTo .. | apply stableTo_vertexOutAt].
  - intros k s s' Ht. now rewrite !(stableTo_vertexOutAt value _ _ _ _ Ht).
Qed.

Lemma fan_emitsTo value :
  EmitsTo (forEach (emitTriangle value) (fanTriangles (length value)))
    (fun k s => faceOut k s value).
Proof.
  unfold faceOut.
  apply (EmitsTo_forEach (emitTriangle value) (fun t k s => triangleOut k s value t)).
  - apply emitTriangle_emitsTo.
  - apply stableTo_triangleOut.
Qed.

(** X19. When an [f] line returns, each of the four arrays of the
    current geometry has grown by what the fan designates for it,
    vertex by vertex: for [position], [texcoord] and [normal] the
    entries of the first, second and third sub-index, and for [color]
    the color at the index of the position, when a color was declared,
    followed by the entry of a fourth sub-index.  A geometry that the
    line creates holds exactly that. *)
Theorem face_emits_every_attribute (line : string) (s s' : State) (k : Attr) :
  lineKeyword line = Some "f" ->
  objLine line s = Ok s' ->
  (forall arr, currentArray k s = Some arr ->
     currentArray k s' = Some (arr ++ faceOut k s (lineValue line))) /\
  (geometry s = None ->
     currentArray k s' = Some (faceOut k s (lineValue line))).
Proof.
  intros Hk Hrun. rewrite (objLine_own line "f" keyword_f Hk eq_refl) in Hrun.
  rewrite keyword_f_fan in Hrun. apply andThen_inv in Hrun as (s0 & H0 & H1).
  destruct (fan_emitsTo (lineValue line) s0 s' H1) as (_ & _ & Hp).
  assert (Hst : faceOut k s0 (lineValue line) = faceOut k s (lineValue line)).
  { unfold faceOut. apply (stableTo_flat_map (fun t k s => triangleOut k s (lineValue line) t)).
    - intros t. apply stableTo_triangleOut.
    - destruct (setGeometry_ok s) as (s0' & E & Ht). rewrite H0 in E.
      now injection E as <-. }
  unfold setGeometry in H0. split.
  - intros arr Harr. destruct (geometry s) as [r|] eqn:Hg.
    + injection H0 as <-. now apply Hp.
    + unfold currentArray, currentGeometry in Harr. rewrite Hg in Harr. discriminate.
  - intros Hnone. rewrite Hnone in H0. injection H0 as <-.
    rewrite <- Hst. apply (Hp k []).
    unfold currentArray, currentGeometry. simpl.
    rewrite list_lookup_middle by reflexivity. now destruct k.
Qed.

Lemma textured_face_sample :
  objLine "f 0/0/0 0/0/0 0/0/0" initialState
  = Ok (set_geometry (Some 0)
          (set_geometries
             [mkGeometry (Some "default") ["default"] (Some "default")
                (mkData (Some (replicate 9 zero)) (Some (replicate 6 zero))
                   (Some (replicate 9 zero)) (Some []))]
             initialState)).
Proof. vm_compute. reflexivity. Qed.

End EmissionProofs.

Section EmissionAtDecimal.
Local Existing Instance decimalFloat.

Lemma face_emits_every_attribute_witness :
  let line := "f 0/0/0 0/0/0 0/0/0" in
  let s' := set_geometry (Some 0)
              (set_geometries
                 [mkGeometry (Some "default") ["default"] (Some "default")
                    (mkData (Some (replicate 9 zero)) (Some (replicate 6 zero))
                       (Some (replicate 9 zero)) (Some []))]
                 initialState) in
  (lineKeyword line = Some "f" /\ objLine line initialState = Ok s') /\
  ((forall arr, currentArray Texcoord initialState = Some arr ->
      currentArray Texcoord s'
      = Some (arr ++ faceOut Texcoord initialState (lineValue line))) /\
   (geometry initialState = None ->
      currentArray Texcoord s' = Some (faceOut Texcoord initialState (lineValue line)))).
Proof.
  intros line s'.
  assert (H1 : lineKeyword line = Some "f") by reflexivity.
  assert (H2 : objLine line initialState = Ok s') by exact textured_face_sample.
  split; [split; assumption|].
  exact (face_emits_every_attribute line initialState s' Texcoord H1 H2).
Defined.

End EmissionAtDecimal.
